(** * gpu-burn (Windows driver): the worker object, the memory option,
      the monitor loop and the shutdown sequence of [gpu_burn-drv.cpp]

    The development follows the source file top-down.  Machine integers are
    [Z] with their wrap-around written out (MSVC on x64: [int] is 32 bits,
    [long long], [ssize_t] and [time_t] are 64 bits, [size_t] and the
    [QuadPart] of a [ULARGE_INTEGER] are unsigned 64 bits).  Every answer of
    the operating system or of the CUDA driver is an explicit input.

    Floating point: the [double] and [float] expressions of the source are
    evaluated operation by operation, and each result is rounded to the
    nearest value of its format (53 or 24 significant bits, ties to even).
    A value is held as the rational it denotes (type [Q], and [fl] where
    the source can divide by zero).  The exponent range is not modelled:
    the operands are 64-bit integers and small constants, so that no
    operation of the source overflows or reaches the subnormal numbers. *)

From Stdlib Require Import ZArith QArith Qround Lia Lqa String Ascii Bool.
From stdpp Require Import base option list.

Local Open Scope Z_scope.

(** ** Machine integers *)

Module MachineInt.

Definition two32 : Z := 2 ^ 32.
Definition two64 : Z := 2 ^ 64.

(** [int]: signed 32 bits, two's complement. *)
Definition to_int32 (z : Z) : Z := (z + 2 ^ 31) mod two32 - 2 ^ 31.
(** [long long], [ssize_t], [time_t]: signed 64 bits. *)
Definition to_int64 (z : Z) : Z := (z + 2 ^ 63) mod two64 - 2 ^ 63.
(** [size_t], [unsigned long long], [ULONGLONG]: unsigned 64 bits. *)
Definition to_uint64 (z : Z) : Z := z mod two64.

Definition is_int32 (z : Z) : Prop := - 2 ^ 31 <= z < 2 ^ 31.
Definition is_int64 (z : Z) : Prop := - 2 ^ 63 <= z < 2 ^ 63.
Definition is_uint64 (z : Z) : Prop := 0 <= z < 2 ^ 64.

Definition INT64_MIN : Z := - 2 ^ 63.
Definition INT64_MAX : Z := 2 ^ 63 - 1.

End MachineInt.
Import MachineInt.

(** ** Floating-point rounding *)

(** [n / d] rounded to the nearest integer, a tie to the even one
    ([0 <= n], [0 < d]). *)
Definition round_half_even (n d : Z) : Z :=
  let f := n / d in
  match 2 * (n mod d) ?= d with
  | Lt => f
  | Gt => f + 1
  | Eq => if Z.even f then f else f + 1
  end.

(** [n / d] times [2 ^ s], as a fraction of two integers. *)
Definition scaled (n d s : Z) : Z * Z :=
  (n * 2 ^ Z.max 0 s, d * 2 ^ Z.max 0 (- s)).

(** The shift [s] that brings [n / d] into the binade of the integers of
    [prec] bits: [2 ^ (prec - 1) <= n / d * 2 ^ s < 2 ^ prec]. *)
Definition binade (prec n d : Z) : Z :=
  let s := prec - Z.log2 n + Z.log2 d in
  let '(N, D) := scaled n d s in
  if N <? 2 ^ prec * D then s else s - 1.

(** A positive [n / d] rounded to [prec] significant bits. *)
Definition rnd_pos (prec n d : Z) : Q :=
  let s := binade prec n d in
  let '(N, D) := scaled n d s in
  Qmake (round_half_even N D * 2 ^ Z.max 0 (- s)) (Z.to_pos (2 ^ Z.max 0 s)).

(** Rounding to nearest, ties to even, to [prec] significant bits. *)
Definition rnd (prec : Z) (q : Q) : Q :=
  match Qnum q with
  | 0 => 0%Q
  | Zpos n => rnd_pos prec (Zpos n) (Zpos (Qden q))
  | Zneg n => (- rnd_pos prec (Zpos n) (Zpos (Qden q)))%Q
  end.

(** The result of an operation on [double]s, and of one on [float]s. *)
Definition to_double (q : Q) : Q := rnd 53 q.
Definition to_float (q : Q) : Q := rnd 24 q.

(** The fraction [z / 2 ^ j]. *)
Definition dyadic (z j : Z) : Q := Qmake z (Z.to_pos (2 ^ j)).

(** ** Constants of the source *)

Definition MATRIX_SIZE : Z := 8192.
(** [#define USEMEM 0.9] *)
Definition USEMEM : Q := 9 # 10.
Definition OPS_PER_MUL : Z := 1100048498688.
Definition SIGTERM_TIMEOUT_THRESHOLD_SECS : Z := 30.
Definition ENOMEDIUM : Z := 123.
Definition EMEDIUMTYPE : Z := 124.
Definition ERROR_BROKEN_PIPE : Z := 109.
Definition STILL_ACTIVE : Z := 259.

(** ** The worker object, [GPU_Test<T>] *)

(** The element type [T] of the template: [float] or [double]. *)
Inductive elemT := FloatT | DoubleT.

Definition sizeofT (T : elemT) : Z :=
  match T with FloatT => 4 | DoubleT => 8 end.

(** What a C++ function of the file can throw. *)
Inductive exn :=
| runtime_error (desc : string)   (* thrown by [checkError] *)
| string_exn (msg : string)       (* [throw std::string(...)] *)
| out_of_range.                   (* [std::vector::at] *)

Inductive outcome (A : Type) :=
| Ret (a : A)
| Throw (e : exn).
Arguments Ret {A} a.
Arguments Throw {A} e.

(** The fields of [GPU_Test] that the host code reads and writes.
    [d_faultyElemsHost] holds the [int] the pointer of that name points to
    (page-locked host memory the device copies its fault count into). *)
Record GPU_Test := mkGPU_Test {
  d_devNumber : Z;
  d_doubles : bool;
  d_tensors : bool;
  d_kernelFile : string;
  d_iters : Z;
  d_error : Z;
  d_faultyElemsHost : Z
}.

Definition set_d_error (v : Z) (t : GPU_Test) : GPU_Test :=
  mkGPU_Test (d_devNumber t) (d_doubles t) (d_tensors t) (d_kernelFile t)
             (d_iters t) v (d_faultyElemsHost t).

Definition set_d_iters (v : Z) (t : GPU_Test) : GPU_Test :=
  mkGPU_Test (d_devNumber t) (d_doubles t) (d_tensors t) (d_kernelFile t)
             v (d_error t) (d_faultyElemsHost t).

Definition set_d_faultyElemsHost (v : Z) (t : GPU_Test) : GPU_Test :=
  mkGPU_Test (d_devNumber t) (d_doubles t) (d_tensors t) (d_kernelFile t)
             (d_iters t) (d_error t) v.

(** [d_error] after the conditional [d_error += (long long)*d_faultyElemsHost]
    at the head of [getErrors]. *)
Definition accumulated (t : GPU_Test) : Z :=
  if d_faultyElemsHost t =? 0 then d_error t
  else to_int64 (d_error t + d_faultyElemsHost t).

(** [unsigned long long getErrors()]: the returned value and the object
    afterwards.  Only [d_error] is written; the host copy of the fault
    count is left as it is. *)
Definition getErrors (t : GPU_Test) : Z * GPU_Test :=
  let tempErrs := to_uint64 (accumulated t) in
  (tempErrs, set_d_error 0 t).

Definition getIters (t : GPU_Test) : Z := d_iters t.

#[export] Instance outcome_ret : MRet outcome := fun _ a => Ret a.
#[export] Instance outcome_bind : MBind outcome := fun _ _ f m =>
  match m with
  | Ret a => f a
  | Throw e => Throw e
  end.

(** The answers of the CUDA driver and of cuBLAS to the calls of one worker.
    [true] stands for [CUDA_SUCCESS] / [CUBLAS_STATUS_SUCCESS]. *)
Record Driver := mkDriver {
  cuDeviceGet_ok : bool;
  cuCtxCreate_ok : bool;
  cuCtxSetCurrent_ok : bool;
  cublasCreate_ok : bool;
  cublasSetMathMode_ok : bool;
  cuMemAllocHost_ok : bool;
  cuMemGetInfo_ok : bool;
  freeMem : Z;                 (* size_t *)
  totalMem : Z;                (* size_t *)
  cuMemAlloc_ok : Z -> bool;   (* by requested byte count *)
  cuMemcpyHtoD_ok : bool;
  kernelFile_good : bool;      (* [std::ifstream f(d_kernelFile); f.good()] *)
  cuModuleLoad_ok : bool;
  cuModuleGetFunction_ok : bool;
  cuFuncSetCacheConfig_ok : bool;
  cuParamSetSize_ok : bool;
  cuParamSetv_ok : bool;
  cuFuncSetBlockShape_ok : bool;
  cuMemsetD32Async_ok : bool;
  cuLaunchGridAsync_ok : bool;
  cuMemcpyDtoHAsync_ok : bool
}.

(** [checkError(rCode, desc)] *)
Definition checkError (ok : bool) (desc : string) : outcome unit :=
  if ok then Ret tt else Throw (runtime_error desc).

(** [bool g_running = false;] is the one global of the file.  Functions
    that write it take its value and return the new one. *)
Definition g_running_init : bool := false.

(** [void bind()] *)
Definition bind (drv : Driver) : outcome unit :=
  checkError (cuCtxSetCurrent_ok drv) "Bind CTX".

(** The constructor [GPU_Test(dev, doubles, tensors, kernelFile)].  Its
    last statement is [g_running = true]; an exception of an earlier
    [checkError] leaves the global as it was.  [host0] is what the freshly
    allocated host [int] happens to hold. *)
Definition GPU_Test_new (drv : Driver) (dev : Z) (doubles tensors : bool)
    (kernelFile : string) (host0 : Z) (g_running : bool)
  : outcome GPU_Test * bool :=
  let checks : outcome unit :=
    checkError (cuDeviceGet_ok drv) EmptyString;;
    checkError (cuCtxCreate_ok drv) EmptyString;;
    bind drv;;
    checkError (cublasCreate_ok drv) "init";;
    (if tensors then checkError (cublasSetMathMode_ok drv) EmptyString else Ret tt);;
    checkError (cuMemAllocHost_ok drv) EmptyString in
  match checks with
  | Throw e => (Throw e, g_running)
  | Ret _ => (Ret (mkGPU_Test dev doubles tensors kernelFile 0 0 host0), true)
  end.

(** [static void termHandler(int signum) { g_running = false; }] *)
Definition termHandler (signum : Z) (g_running : bool) : bool := false.

(** [bool shouldRun() { return g_running; }] *)
Definition shouldRun (g_running : bool) : bool := g_running.

(** [size_t totalMemory()] and [size_t availMemory()] *)
Definition totalMemory (drv : Driver) : outcome Z :=
  bind drv;; checkError (cuMemGetInfo_ok drv) EmptyString;; Ret (totalMem drv).

Definition availMemory (drv : Driver) : outcome Z :=
  bind drv;; checkError (cuMemGetInfo_ok drv) EmptyString;; Ret (freeMem drv).

(** Truncation toward zero of a rational. *)
Definition Qtrunc (q : Q) : Z := Z.quot (Qnum q) (Zpos (Qden q)).

(** [(ssize_t)x] for a [double] [x].  Out of the range of [ssize_t] the
    conversion is undefined in C++; x64 code yields the integer-indefinite
    value [INT64_MIN], which is what is written here. *)
Definition double_to_ssize (q : Q) : Z :=
  let z := Qtrunc q in
  if (INT64_MIN <=? z) && (z <=? INT64_MAX) then z else INT64_MIN.

(** [(ssize_t)((double)availMemory() * USEMEM)]: the conversion of the
    [size_t], the constant [0.9] as a [double], and their product. *)
Definition useBytes_default (avail : Z) : Z :=
  double_to_ssize (to_double (to_double (inject_Z avail) * to_double USEMEM)).

(** [(ssize_t)((double)availMemory() * (-useBytes / 100.0))]: the
    negation is in [ssize_t], the quotient and the product are [double]
    operations. *)
Definition useBytes_percent (avail useBytes : Z) : Z :=
  double_to_ssize
    (to_double (to_double (inject_Z avail)
                * to_double (to_double (inject_Z (to_int64 (- useBytes)))
                             / inject_Z 100))).

(** The first two [if]s of [initBuffers]: the byte count the worker will
    use, from the [useBytes] argument. *)
Definition usableBytes (drv : Driver) (useBytes : Z) : outcome Z :=
  useBytes1 ← (if useBytes =? 0
               then avail ← availMemory drv; Ret (useBytes_default avail)
               else Ret useBytes);
  if useBytes1 <? 0
  then avail ← availMemory drv; Ret (useBytes_percent avail useBytes1)
  else Ret useBytes1.

(** [sizeof(T) * MATRIX_SIZE * MATRIX_SIZE] *)
Definition resultSize (T : elemT) : Z :=
  to_uint64 (sizeofT T * MATRIX_SIZE * MATRIX_SIZE).

(** [(useBytes - 2 * d_resultSize) / d_resultSize], computed in [size_t]. *)
Definition itersFor (T : elemT) (useBytes : Z) : Z :=
  to_uint64 (to_uint64 useBytes - to_uint64 (2 * resultSize T)) / resultSize T.

Definition lowMemMessage : string :=
  "Low mem for result. aborting." ++ String (ascii_of_nat 10) EmptyString.

(** [void initCompareKernel()] *)
Definition initCompareKernel (drv : Driver) (kernelFile : string) : outcome unit :=
  checkError (kernelFile_good drv) ("couldn't find compare kernel: " ++ kernelFile);;
  checkError (cuModuleLoad_ok drv) "load module";;
  checkError (cuModuleGetFunction_ok drv) "get func";;
  checkError (cuFuncSetCacheConfig_ok drv) "L1 config";;
  checkError (cuParamSetSize_ok drv) "set param size";;
  checkError (cuParamSetv_ok drv) "set param";;
  checkError (cuParamSetv_ok drv) "set param";;
  checkError (cuParamSetv_ok drv) "set param";;
  checkError (cuFuncSetBlockShape_ok drv) "set block size".

(** [void initBuffers(T *A, T *B, ssize_t useBytes)]: what it returns or
    throws, and the object afterwards.  [d_iters] is assigned before the
    low-memory test, so it is set also when the test throws. *)
Definition initBuffers (drv : Driver) (T : elemT) (useBytes : Z) (t : GPU_Test)
  : outcome unit * GPU_Test :=
  match (bind drv;;
         usable ← usableBytes drv useBytes;
         totalMemory drv;; availMemory drv;;   (* arguments of the printf *)
         Ret usable) with
  | Throw e => (Throw e, t)
  | Ret usable =>
      let d_resultSize := resultSize T in
      let t1 := set_d_iters (itersFor T usable) t in
      if to_uint64 usable <? to_uint64 (3 * d_resultSize)
      then (Throw (string_exn lowMemMessage), t1)
      else
        (checkError (cuMemAlloc_ok drv (to_uint64 (d_iters t1 * d_resultSize))) "C alloc";;
         checkError (cuMemAlloc_ok drv d_resultSize) "A alloc";;
         checkError (cuMemAlloc_ok drv d_resultSize) "B alloc";;
         checkError (cuMemAlloc_ok drv 4) "faulty data";;
         checkError (cuMemcpyHtoD_ok drv) "A -> device";;
         checkError (cuMemcpyHtoD_ok drv) "B -> device";;
         initCompareKernel drv (d_kernelFile t1),
         t1)
  end.

(** [void compare()]: three asynchronous driver calls; when the copy has
    completed the host [int] holds [faulty], the count the device kernel
    produced. *)
Definition compare (drv : Driver) (faulty : Z) (t : GPU_Test)
  : outcome unit * GPU_Test :=
  match (checkError (cuMemsetD32Async_ok drv) "memset";;
         checkError (cuLaunchGridAsync_ok drv) "Launch grid";;
         checkError (cuMemcpyDtoHAsync_ok drv) "Read faultyelemdata") with
  | Ret _ => (Ret tt, set_d_faultyElemsHost (to_int32 faulty) t)
  | Throw e => (Throw e, t)
  end.

(** ** The memory option: [strtoll] and [decodeUSEMEM] *)

Definition char_code (c : ascii) : Z := Z.of_N (N_of_ascii c).

(** [isspace] in the C locale. *)
Definition isspace (c : ascii) : bool :=
  (char_code c =? 32) || ((9 <=? char_code c) && (char_code c <=? 13)).

Definition digit_value (c : ascii) : option Z :=
  if (48 <=? char_code c) && (char_code c <=? 57)
  then Some (char_code c - 48) else None.

Fixpoint skip_spaces (s : string) : string :=
  match s with
  | String c s' => if isspace c then skip_spaces s' else s
  | EmptyString => s
  end.

Fixpoint read_digits (acc : Z) (s : string) : Z * string :=
  match s with
  | String c s' =>
      match digit_value c with
      | Some d => read_digits (acc * 10 + d) s'
      | None => (acc, s)
      end
  | EmptyString => (acc, s)
  end.

(** [strtoll] saturates at the ends of [long long]. *)
Definition clamp_int64 (z : Z) : Z := Z.max INT64_MIN (Z.min INT64_MAX z).

(** [strtoll(s, &s2, 10)]: white space, an optional sign, decimal digits.
    [Some (r, s2)] is the value and the unparsed rest; [None] is the case
    of no conversion, in which the library stores [s] itself in [s2]. *)
Definition strtoll (s : string) : option (Z * string) :=
  let s1 := skip_spaces s in
  let '(neg, s2) :=
    match s1 with
    | String "-"%char t => (true, t)
    | String "+"%char t => (false, t)
    | _ => (false, s1)
    end in
  match s2 with
  | String c _ =>
      match digit_value c with
      | Some _ =>
          let '(v, rest) := read_digits 0 s2 in
          Some (clamp_int64 (if neg then - v else v), rest)
      | None => None
      end
  | EmptyString => None
  end.

(** [ssize_t decodeUSEMEM(const char *s)] *)
Definition decodeUSEMEM (s : string) : Z :=
  match strtoll s with
  | None => 0                                       (* s == s2 *)
  | Some (r, s2) =>
      match s2 with
      | String "%"%char rest =>
          match rest with
          | EmptyString => to_int64 (- r)
          | _ => 0
          end
      | EmptyString => to_int64 (to_int64 (r * 1024) * 1024)
      | _ => 0
      end
  end.

(** The [-m] handling of [main]: [useBytes] starts at [0] and is replaced
    by [decodeUSEMEM] of the option's argument; a result of [0] is the
    syntax error ([exit(EINVAL)]), here [None]. *)
Definition main_useBytes (m_arg : option string) : option Z :=
  match m_arg with
  | None => Some 0
  | Some a => let useBytes := decodeUSEMEM a in
              if useBytes =? 0 then None else Some useBytes
  end.

(** ** The monitor, [listenClients] *)

(** A [float] that may come out of a division by zero: a finite value, an
    infinity or a NaN. *)
Inductive fl :=
| Fin (q : Q)
| PInf
| NInf
| NaN.

(** [(float)a / (float)b] for two integers: two conversions and a
    [float] division. *)
Definition fl_div (a b : Z) : fl :=
  if b =? 0 then
    (if a =? 0 then NaN else if 0 <? a then PInf else NInf)
  else Fin (to_float (to_float (inject_Z a) / to_float (inject_Z b))).

(** [x * k] in [float], for a constant [k > 0]. *)
Definition fl_scale (k : Q) (x : fl) : fl :=
  match x with
  | Fin q => Fin (to_float (q * k))
  | other => other
  end.

(** [x + k] in [float]. *)
Definition fl_add (x : fl) (k : Q) : fl :=
  match x with
  | Fin q => Fin (to_float (q + k))
  | other => other
  end.

Definition Qlt_bool (x y : Q) : bool := negb (Qle_bool y x).

(** [fminf(x, k)]: a NaN argument is ignored. *)
Definition fminf (x : fl) (k : Q) : fl :=
  match x with
  | Fin q => Fin (if Qlt_bool q k then q else k)
  | PInf => Fin k
  | NInf => NInf
  | NaN => Fin k
  end.

(** [x < y]; false as soon as one side is a NaN. *)
Definition fl_lt (x y : fl) : bool :=
  match x, y with
  | Fin a, Fin b => Qlt_bool a b
  | Fin _, PInf => true
  | NInf, Fin _ => true
  | NInf, PInf => true
  | _, _ => false
  end.

(** The locals of [listenClients] that live across passes of its loop: the
    seven parallel vectors, [nextReport], [childReport], and the [static]
    [gpuIter] of [updateTemps].  A [FILETIME] is held as its 64-bit count
    of 100 ns ticks. *)
Record Monitor := mkMonitor {
  clientTemp : list Z;
  clientErrors : list Z;
  clientCalcs : list Z;
  clientUpdateTime : list Z;
  clientGflops : list Q;
  clientFaulty : list bool;
  clientFirstUpdate : list bool;
  nextReport : fl;
  childReport : bool;
  gpuIter : Z
}.

Definition set_clientTemp v m :=
  mkMonitor v (clientErrors m) (clientCalcs m) (clientUpdateTime m)
    (clientGflops m) (clientFaulty m) (clientFirstUpdate m)
    (nextReport m) (childReport m) (gpuIter m).
Definition set_clientErrors v m :=
  mkMonitor (clientTemp m) v (clientCalcs m) (clientUpdateTime m)
    (clientGflops m) (clientFaulty m) (clientFirstUpdate m)
    (nextReport m) (childReport m) (gpuIter m).
Definition set_clientCalcs v m :=
  mkMonitor (clientTemp m) (clientErrors m) v (clientUpdateTime m)
    (clientGflops m) (clientFaulty m) (clientFirstUpdate m)
    (nextReport m) (childReport m) (gpuIter m).
Definition set_clientUpdateTime v m :=
  mkMonitor (clientTemp m) (clientErrors m) (clientCalcs m) v
    (clientGflops m) (clientFaulty m) (clientFirstUpdate m)
    (nextReport m) (childReport m) (gpuIter m).
Definition set_clientGflops v m :=
  mkMonitor (clientTemp m) (clientErrors m) (clientCalcs m) (clientUpdateTime m)
    v (clientFaulty m) (clientFirstUpdate m)
    (nextReport m) (childReport m) (gpuIter m).
Definition set_clientFaulty v m :=
  mkMonitor (clientTemp m) (clientErrors m) (clientCalcs m) (clientUpdateTime m)
    (clientGflops m) v (clientFirstUpdate m)
    (nextReport m) (childReport m) (gpuIter m).
Definition set_clientFirstUpdate v m :=
  mkMonitor (clientTemp m) (clientErrors m) (clientCalcs m) (clientUpdateTime m)
    (clientGflops m) (clientFaulty m) v
    (nextReport m) (childReport m) (gpuIter m).
Definition set_nextReport v m :=
  mkMonitor (clientTemp m) (clientErrors m) (clientCalcs m) (clientUpdateTime m)
    (clientGflops m) (clientFaulty m) (clientFirstUpdate m)
    v (childReport m) (gpuIter m).
Definition set_childReport v m :=
  mkMonitor (clientTemp m) (clientErrors m) (clientCalcs m) (clientUpdateTime m)
    (clientGflops m) (clientFaulty m) (clientFirstUpdate m)
    (nextReport m) v (gpuIter m).
Definition set_gpuIter v m :=
  mkMonitor (clientTemp m) (clientErrors m) (clientCalcs m) (clientUpdateTime m)
    (clientGflops m) (clientFaulty m) (clientFirstUpdate m)
    (nextReport m) (childReport m) v.

(** [std::vector::at]: the functions of the monitor run in the [option]
    monad, where [None] is the uncaught [std::out_of_range] (or, in
    [updateTemps], the division by a zero size) that ends the process. *)
Definition vec_at {A} (v : list A) (i : nat) : option A := v !! i.

(** [v.at(i) = x] *)
Definition vec_set {A} (v : list A) (i : nat) (x : A) : option (list A) :=
  _ ← v !! i; Some (<[i := x]> v).

(** [for (size_t i = 0; i < n; ++i) body], threading the state. *)
Fixpoint for_loop {S} (body : nat -> S -> option S) (i count : nat) (s : S)
  : option S :=
  match count with
  | O => Some s
  | Datatypes.S count' => s' ← body i s; for_loop body (Datatypes.S i) count' s'
  end.

(** The monitor's initial vectors for [n] client pipes; [spawnClock i] is
    the [GetSystemTimeAsFileTime] reading taken for client [i]. *)
Definition monitor_init (n : nat) (spawnClock : nat -> Z) : Monitor :=
  mkMonitor (replicate n 0) (replicate n 0) (replicate n 0)
            (spawnClock <$> seq 0 n) (replicate n 0%Q)
            (replicate n false) (replicate n true)
            (Fin 10) false 0.

(** The throughput expression
    [(float)((double)((unsigned long long)processed * OPS_PER_MUL)
       / clientTimeDelta / 1000.0 / 1000.0 / 1000.0)],
    with [clientTimeDelta = (double)ticks / 10000000.0]: a conversion and
    four divisions in [double], and the conversion of the result to
    [float]. *)
Definition gflopsOf (processed ticks : Z) : Q :=
  let clientTimeDelta :=
    to_double (to_double (inject_Z ticks) / inject_Z 10000000) in
  let ops := to_double (inject_Z (to_uint64 (to_uint64 processed * OPS_PER_MUL))) in
  to_float
    (to_double (to_double (to_double (to_double (ops / clientTimeDelta)
                                      / inject_Z 1000)
                           / inject_Z 1000)
                / inject_Z 1000)).

(** [curr.QuadPart - prev.QuadPart]: an unsigned 64-bit difference. *)
Definition tickDelta (thisTimeSpec clientPrevTime : Z) : Z :=
  to_uint64 (thisTimeSpec - clientPrevTime).

(** What the monitor does with one pair [(processed, errors)] read from the
    pipe of client [i] at clock reading [thisTimeSpec]: the statements
    from [clientErrors.at(i) += errors] to [childReport = true]. *)
Definition applyReport (i : nat) (thisTimeSpec processed errors : Z) (m : Monitor)
  : option Monitor :=
  e ← vec_at (clientErrors m) i;
  ce ← vec_set (clientErrors m) i (to_int32 (e + errors));
  let m := set_clientErrors ce m in
  m ← (if processed =? -1 then
         cc ← vec_set (clientCalcs m) i (-1);
         Some (set_clientCalcs cc m)
       else
         clientPrevTime ← vec_at (clientUpdateTime m) i;
         let ticks := tickDelta thisTimeSpec clientPrevTime in
         ut ← vec_set (clientUpdateTime m) i thisTimeSpec;
         let m := set_clientUpdateTime ut m in
         compute ← (if 0 <? ticks
                    then first ← vec_at (clientFirstUpdate m) i; Some (negb first)
                    else Some false);
         m ← (if compute : bool then
                g ← vec_set (clientGflops m) i (gflopsOf processed ticks);
                Some (set_clientGflops g m)
              else
                g ← vec_set (clientGflops m) i 0%Q;
                f ← vec_set (clientFirstUpdate m) i false;
                Some (set_clientFirstUpdate f (set_clientGflops g m)));
         c ← vec_at (clientCalcs m) i;
         cc ← vec_set (clientCalcs m) i (to_int32 (c + processed));
         Some (set_clientCalcs cc m));
  Some (set_childReport true m).

(** The answer to [ReadFile(h, &x, sizeof(int), &bytesRead, NULL) &&
    bytesRead == sizeof(int)]. *)
Inductive ReadFileResult :=
| ReadInt (v : Z)     (* holds, and [x] is [v] *)
| ReadShort.          (* does not hold *)

(** The answers of the system to the calls made for one client pipe in
    one pass, in the order of the calls.  Answers to calls that the code
    does not reach are ignored. *)
Inductive PeekResult :=
| Peeked (bytesAvailable : Z) (thisTimeSpec : Z)
         (rd_processed rd_errors : ReadFileResult)
| PeekFailed (lastError : Z).

(** The body of the polling [for] loop for client [i]. *)
Definition pollClient (peek : nat -> PeekResult) (i : nat) (m : Monitor)
  : option Monitor :=
  match peek i with
  | Peeked bytesAvailable thisTimeSpec rd_processed rd_errors =>
      if 8 <=? bytesAvailable then
        match rd_processed with
        | ReadInt processed =>
            match rd_errors with
            | ReadInt errors => applyReport i thisTimeSpec processed errors m
            | ReadShort => Some m
            end
        | ReadShort => Some m
        end
      else Some m
  | PeekFailed error =>
      if error =? ERROR_BROKEN_PIPE then
        c ← vec_at (clientCalcs m) i;
        if c =? -1 then Some m
        else cc ← vec_set (clientCalcs m) i (-1); Some (set_clientCalcs cc m)
      else Some m
  end.

(** One line of the temperature tool, as a call of [updateTemps] that
    returns classifies it.  The call reads the line byte by byte with a
    [ReadFile] that waits while the pipe is empty; a call that never gets
    its newline does not return, which is the answer [TempReadWaits] of
    a pass that may wait (module [Waits] below). *)
Inductive TempLine :=
| LineAborted                 (* a [ReadFile] failed or gave 0 bytes: return *)
| LineTemp (tempValue : Z)    (* the [sscanf_s] pattern matched *)
| LineNA                      (* the [strcmp] with the N/A line matched *)
| LineOther.

Inductive TempPeek :=
| TempNothing                 (* the peek failed or found no byte *)
| TempData (line : TempLine).

(** [gpuIter = (gpuIter + 1) % temps->size()] *)
Definition rotateGpuIter (m : Monitor) : option Monitor :=
  let size := Z.of_nat (length (clientTemp m)) in
  if size =? 0 then None
  else Some (set_gpuIter (to_int32 ((gpuIter m + 1) mod size)) m).

(** [void updateTemps(HANDLE handle, std::vector<int> *temps)], for a
    call whose read loop comes to an end. *)
Definition updateTemps (line : TempLine) (m : Monitor) : option Monitor :=
  match line with
  | LineAborted => Some m
  | LineTemp tempValue =>
      if gpuIter m <? 0 then None
      else t ← vec_set (clientTemp m) (Z.to_nat (gpuIter m)) tempValue;
           rotateGpuIter (set_clientTemp t m)
  | LineNA => rotateGpuIter m
  | LineOther => Some m
  end.

Inductive Note := NoNote | Died | Warning.

(** What the process prints and the system calls it makes that act on
    other threads, processes and handles, in program order. *)
Inductive Event :=
| NoTempMonitor                      (* "Could not start nvidia-smi ..." *)
| Progress (elapsed : fl) (procd : list (Z * Q))
           (errors : list (Z * Note)) (temps : list Z)
| SummaryAt                          (* "Summary at: <local time>" *)
| NoClientsAlive                     (* "No clients are alive!  Aborting" *)
| SleepMs (ms : Z)                   (* [Sleep(ms)] *)
| TerminatingThreads                 (* "Terminating threads" *)
| SetRunning (b : bool)              (* [g_running = b] *)
| SleepFor (secs : Z)                (* [std::this_thread::sleep_for] *)
| TerminateThread (i : nat) (code : Z)
| TerminateProcess (code : Z)        (* on the temperature process *)
| CloseTempHandle
| CloseTempProcess
| CloseHandle (h : Z)
| DoneLine                           (* "done" *)
| Tested (n : Z)                     (* "Tested %d GPUs:" *)
| Verdict (i : nat) (v : string).    (* "GPU %d: %s" *)

Definition noteOf (calcs errors : Z) : Note :=
  if calcs =? -1 then Died
  else if errors =? 0 then NoNote else Warning.

(** The three printing loops of the progress line. *)
Definition progressLine (elapsed : fl) (m : Monitor) : option Event :=
  procd ← mapM (fun i => c ← vec_at (clientCalcs m) i;
                         g ← vec_at (clientGflops m) i;
                         Some (c, g))
               (seq 0 (length (clientCalcs m)));
  errors ← mapM (fun i => c ← vec_at (clientCalcs m) i;
                          e ← vec_at (clientErrors m) i;
                          Some (e, noteOf c e))
                (seq 0 (length (clientErrors m)));
  temps ← mapM (fun i => vec_at (clientTemp m) i)
               (seq 0 (length (clientTemp m)));
  Some (Progress elapsed procd errors temps).

(** [if (clientErrors.at(i)) clientFaulty.at(i) = true;] *)
Definition markFaulty (i : nat) (m : Monitor) : option Monitor :=
  e ← vec_at (clientErrors m) i;
  if e =? 0 then Some m
  else f ← vec_set (clientFaulty m) i true; Some (set_clientFaulty f m).

(** [clientErrors.at(i) = 0;] *)
Definition resetErrors (i : nat) (m : Monitor) : option Monitor :=
  ce ← vec_set (clientErrors m) i 0; Some (set_clientErrors ce m).

(** [fminf((float)(thisTime - startTime) / (float)runTime * 100.0f, 100.0f)] *)
Definition elapsedPercent (thisTime startTime runTime : Z) : fl :=
  fminf (fl_scale (inject_Z 100) (fl_div (to_int64 (thisTime - startTime)) runTime))
        (inject_Z 100).

(** The block guarded by [if (shouldPrint)]: the progress line, the
    marking of faulty clients, and on a 10% boundary the summary stamp
    with the reset of the error counters. *)
Definition report (elapsed : fl) (m : Monitor) : option (Monitor * list Event) :=
  line ← progressLine elapsed m;
  m ← for_loop markFaulty 0 (length (clientErrors m)) m;
  if fl_lt (nextReport m) elapsed then
    m ← for_loop resetErrors 0 (length (clientErrors m))
                 (set_nextReport (fl_add elapsed (inject_Z 10)) m);
    Some (m, [line; SummaryAt])
  else Some (m, [line]).

(** The loop that computes [oneAlive]. *)
Definition oneAlive (m : Monitor) : option bool :=
  for_loop (fun i alive => c ← vec_at (clientCalcs m) i;
                           Some (if c =? -1 then alive else true))
           0 (length (clientCalcs m)) false.

(** The system's answers during one pass of the [while (true)] loop in
    which every call returns. *)
Record PassInput := mkPassInput {
  thisTime : Z;                (* [time(0)] *)
  peek : nat -> PeekResult;    (* per client pipe *)
  tempPeek : TempPeek
}.

(** The parameters of [listenClients] and the values fixed before its
    loop. *)
Record Config := mkConfig {
  clientHandles : list Z;
  clientThreads : list Z;
  runTime : Z;
  sigterm_timeout_threshold_secs : Z;
  startTime : Z;
  hasTempHandle : bool
}.

(** [startTime + runTime < thisTime] *)
Definition deadlinePassed (cfg : Config) (now : Z) : bool :=
  to_int64 (startTime cfg + runTime cfg) <? now.

(** A pass from the polling loop to the end of the [if (shouldPrint)]
    block. *)
Definition pollAndReport (cfg : Config) (inp : PassInput) (m : Monitor)
  : option (Monitor * list Event) :=
  m ← for_loop (pollClient (peek inp)) 0 (length (clientHandles cfg)) m;
  m ← (if hasTempHandle cfg then
         match tempPeek inp with
         | TempData line => updateTemps line m
         | TempNothing => Some m
         end
       else Some m);
  let shouldPrint := childReport m in
  if shouldPrint
  then report (elapsedPercent (thisTime inp) (startTime cfg) (runTime cfg)) m
  else Some (m, []).

Inductive PassResult :=
| Next (m : Monitor) (out : list Event)   (* reached [Sleep(50)] *)
| Deadline                                (* [break] *)
| Exit (code : Z) (out : list Event)      (* [exit(code)] *)
| Crash.                                  (* uncaught exception *)

(** One pass of the [while (true)] loop. *)
Definition pass (cfg : Config) (inp : PassInput) (m : Monitor) : PassResult :=
  if deadlinePassed cfg (thisTime inp) then Deadline
  else
    match pollAndReport cfg inp m with
    | None => Crash
    | Some (m', out) =>
        match oneAlive m' with
        | None => Crash
        | Some true => Next m' (out ++ [SleepMs 50])
        | Some false => Exit ENOMEDIUM (out ++ [NoClientsAlive])
        end
    end.

Inductive LoopResult :=
| AtDeadline (m : Monitor) (tr : list Event)
| Exited (code : Z) (tr : list Event)
| Crashed (tr : list Event)
| Polling (m : Monitor) (tr : list Event).   (* the inputs ran out *)

(** The [while (true)] loop over the passes the system's answers allow. *)
Fixpoint pollLoop (cfg : Config) (inputs : list PassInput) (m : Monitor)
    (tr : list Event) : LoopResult :=
  match inputs with
  | [] => Polling m tr
  | inp :: rest =>
      match pass cfg inp m with
      | Next m' out => pollLoop cfg rest m' (tr ++ out)
      | Deadline => AtDeadline m tr
      | Exit code out => Exited code (tr ++ out)
      | Crash => Crashed tr
      end
  end.

(** The answer to [GetExitCodeThread(h, &exitCode)]. *)
Inductive ThreadQuery :=
| ExitCode (exitCode : Z)
| QueryFailed.

(** [if (GetExitCodeThread(...) && exitCode == STILL_ACTIVE)
       TerminateThread(clientThreads[i], 1);] *)
Definition reapThread (exitCodes : nat -> ThreadQuery) (i : nat) : list Event :=
  match exitCodes i with
  | ExitCode exitCode =>
      if exitCode =? STILL_ACTIVE then [TerminateThread i 1] else []
  | QueryFailed => []
  end.

Definition verdict (faulty : bool) : string :=
  if faulty then "FAULTY" else "OK".

(** The statements of [listenClients] after its loop. *)
Definition shutdown (cfg : Config) (exitCodes : nat -> ThreadQuery)
    (m : Monitor) : option (list Event) :=
  let cancel := [TerminatingThreads; SetRunning false;
                 SleepFor (sigterm_timeout_threshold_secs cfg)] in
  let reap := flat_map (reapThread exitCodes)
                       (seq 0 (length (clientThreads cfg))) in
  let temp := if hasTempHandle cfg
              then [TerminateProcess 1; CloseTempHandle; CloseTempProcess]
              else [] in
  closes ← mapM (fun i => h ← clientHandles cfg !! i;
                          t ← clientThreads cfg !! i;
                          Some [CloseHandle h; CloseHandle t])
                (seq 0 (length (clientHandles cfg)));
  verdicts ← mapM (fun i => f ← vec_at (clientFaulty m) i;
                            Some (Verdict i (verdict f)))
                  (seq 0 (length (clientThreads cfg)));
  Some (cancel ++ reap ++ temp ++ concat closes
        ++ [DoneLine; Tested (Z.of_nat (length (clientThreads cfg)))]
        ++ verdicts).

(** The value of [g_running] after a trace: the last [SetRunning] wins. *)
Definition runningAfter (g_running : bool) (tr : list Event) : bool :=
  fold_left (fun g ev => match ev with SetRunning b => b | _ => g end)
            tr g_running.

(** The trace [listenClients] starts its loop with: the complaint printed
    when the temperature tool could not be started. *)
Definition startTrace (cfg : Config) : list Event :=
  if hasTempHandle cfg then [] else [NoTempMonitor].

Inductive RunResult :=
| Returned (tr : list Event)     (* [listenClients] returned *)
| ExitedWith (code : Z) (tr : list Event)
| Terminated (tr : list Event)   (* uncaught exception *)
| StillPolling (tr : list Event).

(** [void listenClients(clientHandles, clientThreads, runTime,
    sigterm_timeout_threshold_secs)] against the answers of the system:
    the clock readings at start, the passes, and the thread exit codes
    read after the grace sleep. *)
Definition listenClients (cfg : Config) (spawnClock : nat -> Z)
    (inputs : list PassInput) (exitCodes : nat -> ThreadQuery) : RunResult :=
  let m0 := monitor_init (length (clientHandles cfg)) spawnClock in
  match pollLoop cfg inputs m0 (startTrace cfg) with
  | AtDeadline m tr =>
      match shutdown cfg exitCodes m with
      | Some tr' => Returned (tr ++ tr')
      | None => Terminated tr
      end
  | Exited code tr => ExitedWith code tr
  | Crashed tr => Terminated tr
  | Polling m tr => StillPolling tr
  end.

(** ** The threads that write [g_running]

    The worker threads and the monitor thread share the global.  Each
    statement of the file that assigns it is a step; a run of the program
    interleaves the steps of its threads. *)
Inductive Step :=
| WorkerConstructs (drv : Driver) (dev : Z) (doubles tensors : bool)
                   (kernelFile : string) (host0 : Z)
    (* a worker thread runs [new GPU_Test<T>(...)] in [startBurnThread] *)
| MonitorCancels
    (* [g_running = false] after the loop of [listenClients] *)
| SignalHandler (signum : Z).
    (* [termHandler] *)

Definition step (g_running : bool) (s : Step) : bool :=
  match s with
  | WorkerConstructs drv dev doubles tensors kernelFile host0 =>
      snd (GPU_Test_new drv dev doubles tensors kernelFile host0 g_running)
  | MonitorCancels => runningAfter g_running [SetRunning false]
  | SignalHandler signum => termHandler signum g_running
  end.

Definition interleaving (steps : list Step) (g_running : bool) : bool :=
  fold_left step steps g_running.

(** ** Vocabulary of the statements below *)

(** The byte count [initBuffers] settles on, as a function of the free
    memory the driver reports. *)
Definition usableOf (avail useBytes : Z) : Z :=
  let useBytes1 := if useBytes =? 0 then useBytes_default avail else useBytes in
  if useBytes1 <? 0 then useBytes_percent avail useBytes1 else useBytes1.

(** The driver calls of [initBuffers] before the low-memory test succeed:
    binding the context and querying the memory. *)
Definition queries_ok (drv : Driver) : Prop :=
  cuCtxSetCurrent_ok drv = true /\ cuMemGetInfo_ok drv = true.

(** The driver calls after the test succeed: the allocations, the two
    uploads and the set-up of the compare kernel. *)
Definition uploads_ok (drv : Driver) : Prop :=
  (forall bytes, cuMemAlloc_ok drv bytes = true)
  /\ cuMemcpyHtoD_ok drv = true
  /\ forall kernelFile, initCompareKernel drv kernelFile = Ret tt.

(** A decimal numeral given by its digits, most significant first. *)
Definition is_digit (d : Z) : Prop := 0 <= d <= 9.

Definition digitChar (d : Z) : ascii := ascii_of_N (Z.to_N (48 + d)).

Fixpoint digitString (ds : list Z) : string :=
  match ds with
  | [] => EmptyString
  | d :: ds' => String (digitChar d) (digitString ds')
  end.

Definition digitsValue (ds : list Z) : Z :=
  fold_left (fun acc d => acc * 10 + d) ds 0.

(** What follows the numeral: the end of the string or a character that is
    not a digit. *)
Definition stops (rest : string) : Prop :=
  match rest with
  | EmptyString => True
  | String c _ => digit_value c = None
  end.

(** A report as the monitor reads it: the clock reading taken for it and
    the pair [(processed, errors)]. *)
Record Report := mkReport {
  observedAt : Z;
  processed : Z;
  errors : Z
}.

(** The sentinel test of the monitor: [processed == -1]. *)
Definition isSentinel (r : Report) : bool := processed r =? -1.

(** The reports of one client applied in order. *)
Fixpoint applyReports (i : nat) (rs : list Report) (m : Monitor) : option Monitor :=
  match rs with
  | [] => Some m
  | r :: rs' =>
      m' ← applyReport i (observedAt r) (processed r) (errors r) m;
      applyReports i rs' m'
  end.

Definition sumProcessed (rs : list Report) : Z :=
  fold_right (fun r acc => processed r + acc) 0 rs.

(** The seven vectors have the size of [clientHandles]. *)
Record wf (n : nat) (m : Monitor) : Prop := mkWf {
  wf_temp : length (clientTemp m) = n;
  wf_errors : length (clientErrors m) = n;
  wf_calcs : length (clientCalcs m) = n;
  wf_time : length (clientUpdateTime m) = n;
  wf_gflops : length (clientGflops m) = n;
  wf_faulty : length (clientFaulty m) = n;
  wf_first : length (clientFirstUpdate m) = n
}.

(** A client is alive while its calc count is not the dead marker. *)
Definition alive (m : Monitor) (i : nat) : Prop :=
  exists c, clientCalcs m !! i = Some c /\ c <> -1.

Definition allDead (m : Monitor) : Prop :=
  Forall (fun c => c = -1) (clientCalcs m).

(** Does a trace contain a progress line? *)
Definition isProgress (ev : Event) : bool :=
  match ev with Progress _ _ _ _ => true | _ => false end.

Definition rendered (out : list Event) : bool := existsb isProgress out.

(** Do the answers for client [i] let the monitor read a complete report
    from its pipe? *)
Definition consumedBy (pk : nat -> PeekResult) (i : nat) : bool :=
  match pk i with
  | Peeked bytesAvailable _ (ReadInt _) (ReadInt _) => 8 <=? bytesAvailable
  | _ => false
  end.

(** Did the pass read a complete report from the pipe of client [i]? *)
Definition consumed (inp : PassInput) (i : nat) : bool :=
  consumedBy (peek inp) i.

(** The seconds a trace spends in [sleep_for]; a negative duration does
    not wait. *)
Definition graceWaited (tr : list Event) : Z :=
  fold_right (fun ev acc => match ev with
                            | SleepFor secs => Z.max 0 secs + acc
                            | _ => acc
                            end) 0 tr.


Definition theCancel (cfg : Config) : list Event :=
  [TerminatingThreads; SetRunning false;
   SleepFor (sigterm_timeout_threshold_secs cfg)].

(** [applyReport] in closed form, for a client whose entries before the
    report are [e0] (errors), [c0] (calcs), [t0] (update time) and [f0]
    (first-update flag). *)
Definition applied (i : nat) (thisTimeSpec p e : Z) (e0 c0 t0 : Z) (f0 : bool)
    (m : Monitor) : Monitor :=
  let m1 := set_clientErrors (<[i := to_int32 (e0 + e)]> (clientErrors m)) m in
  set_childReport true
    (if p =? -1 then set_clientCalcs (<[i := -1]> (clientCalcs m)) m1
     else
       let ticks := tickDelta thisTimeSpec t0 in
       let m2 := set_clientUpdateTime (<[i := thisTimeSpec]> (clientUpdateTime m)) m1 in
       let m3 :=
         if (0 <? ticks) && negb f0
         then set_clientGflops (<[i := gflopsOf p ticks]> (clientGflops m)) m2
         else set_clientFirstUpdate (<[i := false]> (clientFirstUpdate m))
                (set_clientGflops (<[i := 0%Q]> (clientGflops m)) m2) in
       set_clientCalcs (<[i := to_int32 (c0 + p)]> (clientCalcs m)) m3).

(** The test of the [oneAlive] loop on one entry. *)
Definition isAlive (c : Z) : bool := negb (c =? -1).

(** Every client with a nonzero windowed error count carries the faulty
    flag. *)
Definition flagged (m : Monitor) : Prop :=
  forall j e, clientErrors m !! j = Some e -> e <> 0 ->
              clientFaulty m !! j = Some true.

(** The faulty flag of client [i] is set. *)
Definition faultyAt (i : nat) (m : Monitor) : Prop :=
  clientFaulty m !! i = Some true.

(** What the polling loop keeps and what it changes. *)
Record polled (pk : nat -> PeekResult) (m s : Monitor) (j : nat) : Prop := mkPolled {
  polled_faulty : clientFaulty s = clientFaulty m;
  polled_child : childReport m = true -> childReport s = true;
  polled_silent : childReport s = false -> clientErrors s = clientErrors m;
  polled_later : forall k, (j <= k)%nat -> clientErrors s !! k = clientErrors m !! k;
  polled_earlier : forall i bytes t p e e0, (i < j)%nat ->
      pk i = Peeked bytes t (ReadInt p) (ReadInt e) -> 8 <= bytes ->
      clientErrors m !! i = Some e0 ->
      clientErrors s !! i = Some (to_int32 (e0 + e)) /\ childReport s = true
}.

(** [s'] differs from [s] at most in the faulty flags. *)
Definition onlyFaultyChanged (s s' : Monitor) : Prop :=
  s' = set_clientFaulty (clientFaulty s') s.

(** [s'] differs from [s] at most in the error counters. *)
Definition onlyErrorsChanged (s s' : Monitor) : Prop :=
  s' = set_clientErrors (clientErrors s') s.

(** Flags that are set in [s] are set in [s']. *)
Definition flagsKept (s s' : Monitor) : Prop :=
  forall k, faultyAt k s -> faultyAt k s'.

(** The state the loop keeps between passes: well-formed vectors of the
    size of [clientHandles], and [flagged]. *)
Definition good (cfg : Config) (m : Monitor) : Prop :=
  wf (length (clientHandles cfg)) m /\ flagged m.

(** The events of the phase after the grace sleep: forced termination,
    closing of handles and the final report.  None of them waits, and
    none writes [g_running]. *)
Definition isReclaim (ev : Event) : bool :=
  match ev with
  | TerminateThread _ _ | TerminateProcess _ | CloseTempHandle
  | CloseTempProcess | CloseHandle _ | DoneLine | Tested _ | Verdict _ _ => true
  | _ => false
  end.

(** The threads a trace terminates by force, in order. *)
Definition killed (tr : list Event) : list nat :=
  flat_map (fun ev => match ev with
                      | TerminateThread i _ => [i]
                      | _ => []
                      end) tr.

(** The exit-code query of thread [i] succeeded and said [STILL_ACTIVE]. *)
Definition stillActive (exitCodes : nat -> ThreadQuery) (i : nat) : bool :=
  match exitCodes i with
  | ExitCode exitCode => exitCode =? STILL_ACTIVE
  | QueryFailed => false
  end.

(** The state the loop stops or pauses in. *)
Definition stateOf (r : LoopResult) : option Monitor :=
  match r with
  | AtDeadline m _ | Polling m _ => Some m
  | _ => None
  end.

(** An event that is not a forced thread termination. *)
Definition notKill (ev : Event) : Prop :=
  match ev with
  | TerminateThread _ _ => False
  | _ => True
  end.

(** The events of the polling loop: prints and the 50 ms sleep. *)
Definition isLoopEvent (ev : Event) : bool :=
  match ev with
  | NoTempMonitor | Progress _ _ _ _ | SummaryAt | NoClientsAlive | SleepMs _ => true
  | _ => false
  end.

(** The state of a monitor that cannot fail: well-formed vectors and a
    [gpuIter] that indexes them. *)
Definition steady (n : nat) (m : Monitor) : Prop :=
  wf n m /\ 0 <= gpuIter m < Z.of_nat n.

(** The loop has ended: [listenClients] returned or the process exited
    with the all-dead code. *)
Definition ended (r : RunResult) : Prop :=
  match r with
  | Returned _ => True
  | ExitedWith code _ => code = ENOMEDIUM
  | _ => False
  end.

(** ** Inputs used in the examples *)

(** A worker whose last compare found three faulty elements. *)
Definition worker3 : GPU_Test :=
  mkGPU_Test 0 false false "compare.ptx" 26 0 3.

(** A driver that answers every call with success, for a device with
    8 GiB free of 16 GiB. *)
Definition driver8G : Driver :=
  mkDriver true true true true true true true
           (8 * 2 ^ 30) (16 * 2 ^ 30) (fun _ => true) true
           true true true true true true true
           true true true.

(** A device with 25 GiB free of 32 GiB. *)
Definition driver25G : Driver :=
  mkDriver true true true true true true true
           (25 * 2 ^ 30) (32 * 2 ^ 30) (fun _ => true) true
           true true true true true true true
           true true true.

(** Worker 0 is constructed, the monitor cancels at the deadline, and the
    constructor of worker 1 completes only then. *)
Definition lateConstructor : list Step :=
  [WorkerConstructs driver8G 0 false false "compare.ptx" 0;
   MonitorCancels;
   WorkerConstructs driver8G 1 false false "compare.ptx" 0].

(** The monitor of one client, spawned at tick 1000. *)
Definition oneClient : Monitor := monitor_init 1 (fun _ => 1000).

(** A report of 100 iterations without errors, then the sentinel pair. *)
Definition reportThenSentinel : list Report :=
  [mkReport 20000000 100 0; mkReport 40000000 (-1) (-1)].

(** The system clock is set back by one second between two reports of
    100 iterations: the first is read at tick 30000000, the second at
    tick 20000000. *)
Definition clockStepsBack : list Report :=
  [mkReport 30000000 100 0; mkReport 20000000 100 0].

(** One client pipe (handle 7, thread handle 8), a run of 10 seconds
    started at second 100, no temperature tool. *)
Definition cfgOne : Config := mkConfig [7] [8] 10 30 100 false.

(** A pass in which the pipe holds one report of 100 iterations. *)
Definition passWithReport : PassInput :=
  mkPassInput 101 (fun _ => Peeked 8 20000000 (ReadInt 100) (ReadInt 0)) TempNothing.

(** A pass in which the pipe is empty. *)
Definition passWithoutData : PassInput :=
  mkPassInput 101 (fun _ => Peeked 0 20500000 ReadShort ReadShort) TempNothing.


(** Two client pipes (handles 7 and 9, thread handles 8 and 10), a run of
    10 seconds started at second 100, no temperature tool. *)
Definition cfgTwo : Config := mkConfig [7; 9] [8; 10] 10 30 100 false.

(** A pipe with nothing to read. *)
Definition quietPeek : PeekResult := Peeked 0 0 ReadShort ReadShort.

(** Four passes of [cfgTwo]: client 0 reports five errors, then a clean
    batch, then the sentinel pair; the last pass is read after the
    deadline.  Client 1 stays silent and alive throughout. *)
Definition passErrors : PassInput :=
  mkPassInput 101
    (fun i => if Nat.eqb i 0 then Peeked 8 20000000 (ReadInt 100) (ReadInt 5)
              else quietPeek)
    TempNothing.

Definition passClean : PassInput :=
  mkPassInput 105
    (fun i => if Nat.eqb i 0 then Peeked 8 60000000 (ReadInt 100) (ReadInt 0)
              else quietPeek)
    TempNothing.

Definition passDies : PassInput :=
  mkPassInput 108
    (fun i => if Nat.eqb i 0 then Peeked 8 90000000 (ReadInt (-1)) (ReadInt (-1))
              else quietPeek)
    TempNothing.

Definition passLate : PassInput :=
  mkPassInput 111 (fun _ => quietPeek) TempNothing.

(** After the grace sleep thread 0 has ended (exit code 0) and thread 1 is
    still active. *)
Definition exitCodesTwo (i : nat) : ThreadQuery :=
  if Nat.eqb i 0 then ExitCode 0 else ExitCode STILL_ACTIVE.

(** * The rest of the driver: the worker thread and the launch *)

(** ** Constants of the platform headers

    The file uses these macros of [<winerror.h>] and [<errno.h>] without
    defining them; the functions below take their values as a parameter. *)
Record Platform := mkPlatform {
  ERROR_NO_DATA : Z;
  ERROR_PIPE_NOT_CONNECTED : Z;
  ECONNREFUSED : Z;
  ENODEV : Z
}.

(** ** [GPU_Test::compute] *)

Definition gemmName (t : GPU_Test) : string :=
  if d_doubles t then "DGEMM" else "SGEMM".

(** The [for] loop of [compute]: one checked GEMM call per result buffer,
    [gemm_ok i] being the answer of cuBLAS to call [i]. *)
Fixpoint gemms (gemm_ok : nat -> bool) (name : string) (i count : nat)
  : outcome unit :=
  match count with
  | O => Ret tt
  | S count' => checkError (gemm_ok i) name;; gemms gemm_ok name (S i) count'
  end.

(** [void compute()] *)
Definition compute (drv : Driver) (gemm_ok : nat -> bool) (t : GPU_Test)
  : outcome unit :=
  bind drv;; gemms gemm_ok (gemmName t) 0 (Z.to_nat (d_iters t)).

(** ** The worker thread, [startBurnThread] *)

(** The answer to [WriteFile(pipe, &ops, sizeof(int), &written, NULL)]. *)
Inductive WriteResult :=
| Written (written : Z)          (* the call succeeded *)
| WriteError (lastError : Z).    (* it failed, and [GetLastError()] *)

(** What the thread does to its pipe and what it prints on [stderr]. *)
Inductive WorkerEvent :=
| InitComplaint                  (* "Couldn't init a GPU test: ..." *)
| ComputeComplaint               (* "Failure during compute: ..." *)
| WriteInt (v : Z) (r : WriteResult)
| WriteComplaint (lastError : Z) (* "Failed to write ... to pipe" *)
| PartialComplaint (written : Z) (* "Partial write to pipe" *)
| FlushPipe                      (* [FlushFileBuffers] *)
| ClosePipe.                     (* [CloseHandle(args->writePipe)] *)

(** The errors the thread expects from a pipe whose reader is gone. *)
Definition expectedWriteError (P : Platform) (err : Z) : bool :=
  (err =? ERROR_BROKEN_PIPE) || (err =? ERROR_NO_DATA P)
  || (err =? ERROR_PIPE_NOT_CONNECTED P).

(** One [WriteFile] of the loop with the tests that follow it: the events,
    and whether the loop is left by [break]. *)
Definition writeInt (P : Platform) (v : Z) (r : WriteResult)
  : list WorkerEvent * bool :=
  match r with
  | Written written =>
      (WriteInt v r :: (if written =? 4 then [] else [PartialComplaint written]),
       false)
  | WriteError err =>
      (WriteInt v r :: (if expectedWriteError P err then [] else [WriteComplaint err]),
       err =? ERROR_BROKEN_PIPE)
  end.

(** The answers of the system during one pass of the [while] loop, at
    whose head [shouldRun()] was true.  [hostCount] is the fault count
    the host [int] holds when the thread reads it (the copy that
    [compare] starts writes it). *)
Record Iteration := mkIteration {
  drvNow : Driver;
  gemm_ok : nat -> bool;
  hostCount : Z;
  cuEventRecord_ok : bool;
  eventArrives : bool;       (* the wait on [cuEventQuery] comes to an end *)
  writeOps : WriteResult;
  writeErrs : WriteResult
}.

Inductive BodyResult :=
| GoOn (t : GPU_Test) (nonWorkIters : Z) (evs : list WorkerEvent)
| Broke (t : GPU_Test) (evs : list WorkerEvent)    (* [break] *)
| Threw (e : exn) (evs : list WorkerEvent)
| Hang (evs : list WorkerEvent).                   (* the event never arrives *)

(** The body of the [while (our->shouldRun())] loop.  Which of the two
    events is recorded and which is waited for has no effect on the host
    state and is left out. *)
Definition workBody (P : Platform) (it : Iteration) (t : GPU_Test)
    (nonWorkIters : Z) : BodyResult :=
  match compute (drvNow it) (gemm_ok it) t with
  | Throw e => Threw e []
  | Ret _ =>
      match compare (drvNow it) (hostCount it) t with
      | (Throw e, _) => Threw e []
      | (Ret _, t1) =>
          match checkError (cuEventRecord_ok it) "Record event" with
          | Throw e => Threw e []
          | Ret _ =>
              if negb (eventArrives it) then Hang []
              else
                let nonWorkIters' := to_int32 (nonWorkIters - 1) in
                if 0 <? nonWorkIters' then GoOn t1 nonWorkIters' []
                else
                  let '(ev1, brk1) :=
                    writeInt P (to_int32 (getIters t1)) (writeOps it) in
                  if brk1 then Broke t1 ev1
                  else
                    let '(errs, t2) := getErrors t1 in
                    let '(ev2, brk2) := writeInt P (to_int32 errs) (writeErrs it) in
                    if brk2 then Broke t2 (ev1 ++ ev2)
                    else GoOn t2 nonWorkIters' (ev1 ++ ev2 ++ [FlushPipe])
          end
      end
  end.

Inductive LoopEnd :=
| LeftLoop (t : GPU_Test) (evs : list WorkerEvent)
| Caught (e : exn) (evs : list WorkerEvent)
| Hung (evs : list WorkerEvent).

(** The [while] loop over the iterations at whose head [shouldRun()] was
    true; after the last of them it was false. *)
Fixpoint workLoop (P : Platform) (iters : list Iteration) (t : GPU_Test)
    (nonWorkIters : Z) (evs : list WorkerEvent) : LoopEnd :=
  match iters with
  | [] => LeftLoop t evs
  | it :: rest =>
      match workBody P it t nonWorkIters with
      | GoOn t' nonWorkIters' ev => workLoop P rest t' nonWorkIters' (evs ++ ev)
      | Broke t' ev => LeftLoop t' (evs ++ ev)
      | Threw e ev => Caught e (evs ++ ev)
      | Hang ev => Hung (evs ++ ev)
      end
  end.

(** [catch (const std::exception &e)]: a [std::runtime_error] and a
    [std::out_of_range] are caught, a thrown [std::string] is not. *)
Definition isStdException (e : exn) : bool :=
  match e with
  | runtime_error _ => true
  | out_of_range => true
  | string_exn _ => false
  end.

Inductive WorkerEnd :=
| EndThread (code : Z)     (* [_endthreadex(code)] *)
| ProcessDies              (* an exception no handler catches: [std::terminate] *)
| Stuck.                   (* the thread waits for its event for ever *)

(** The arguments of the thread, [BurnThreadArgs] without the two host
    matrices. *)
Record BurnThreadArgs := mkBurnThreadArgs {
  index : Z;
  doubles : bool;
  tensors : bool;
  useBytesArg : Z;
  kernelFileArg : string
}.

(** The two unchecked [WriteFile] calls of a [catch] block, then
    [CloseHandle]. *)
Definition signalFailure (w : WriteResult * WriteResult) : list WorkerEvent :=
  [WriteInt (-1) (fst w); WriteInt (-1) (snd w); ClosePipe].

(** [unsigned int __stdcall startBurnThread<T>(void *arg)]: how the thread
    ends, what it did to its pipe, and [g_running] afterwards.
    [failWrites] answers the writes of the [catch] block that runs, and
    [teardown_ok] says whether the calls of the destructor succeed (a
    destructor that throws ends the process). *)
Definition startBurnThread (P : Platform) (T : elemT) (drv : Driver)
    (args : BurnThreadArgs) (host0 : Z) (iters : list Iteration)
    (failWrites : WriteResult * WriteResult) (teardown_ok : bool)
    (g_running : bool) : WorkerEnd * list WorkerEvent * bool :=
  let initFailed (e : exn) (g : bool) :=
    if isStdException e
    then (EndThread EMEDIUMTYPE, InitComplaint :: signalFailure failWrites, g)
    else (ProcessDies, [], g) in
  match GPU_Test_new drv (index args) (doubles args) (tensors args)
                     (kernelFileArg args) host0 g_running with
  | (Throw e, g) => initFailed e g
  | (Ret our0, g) =>
      match initBuffers drv T (useBytesArg args) our0 with
      | (Throw e, _) => initFailed e g
      | (Ret _, our) =>
          match workLoop P iters our 2 [] with
          | LeftLoop _ evs =>
              if teardown_ok then (EndThread 0, evs ++ [ClosePipe], g)
              else (ProcessDies, evs, g)
          | Caught e evs =>
              if isStdException e
              then (EndThread (ECONNREFUSED P),
                    evs ++ ComputeComplaint :: signalFailure failWrites, g)
              else (ProcessDies, evs, g)
          | Hung evs => (Stuck, evs, g)
          end
      end
  end.

(** The [int]s that reached the pipe: the values of the writes that
    succeeded in full. *)
Definition pipeInts (evs : list WorkerEvent) : list Z :=
  flat_map (fun ev => match ev with
                      | WriteInt v (Written written) =>
                          if written =? 4 then [v] else []
                      | _ => []
                      end) evs.

(** ** [initCuda] and [launch] *)

(** [int initCuda()]: a failing [cuInit] is caught and gives 0; a failing
    [cuDeviceGetCount] throws a [std::runtime_error], and a count of zero
    throws a [std::string]. *)
Definition initCuda (cuInit_ok cuDeviceGetCount_ok : bool) (deviceCount : Z)
  : outcome Z :=
  match checkError cuInit_ok EmptyString with
  | Throw _ => Ret 0
  | Ret _ =>
      checkError cuDeviceGetCount_ok EmptyString;;
      if deviceCount =? 0 then Throw (string_exn "No CUDA devices")
      else Ret deviceCount
  end.

(** The answers to [CreatePipe] (the read and the write handle) and to
    [_beginthreadex] (the thread handle) for one device; [None] is a
    failed call. *)
Record DeviceSetup := mkDeviceSetup {
  createPipe : option (Z * Z);
  beginThread : option Z
}.

(** The [for] loop of [launch] over all devices: a device whose pipe or
    thread cannot be created is skipped. *)
Fixpoint spawnAll (setup : nat -> DeviceSetup) (i count : nat)
    (clientPipes clientThreads : list Z) : list Z * list Z :=
  match count with
  | O => (clientPipes, clientThreads)
  | S count' =>
      match createPipe (setup i) with
      | None => spawnAll setup (S i) count' clientPipes clientThreads
      | Some (hReadPipe, hWritePipe) =>
          match beginThread (setup i) with
          | None => spawnAll setup (S i) count' clientPipes clientThreads
          | Some hThread =>
              spawnAll setup (S i) count'
                       (clientPipes ++ [hReadPipe]) (clientThreads ++ [hThread])
          end
      end
  end.

Inductive LaunchPlan :=
| PlanExit (code : Z)                            (* [exit(code)] *)
| PlanThrow (e : exn)                            (* out of [launch] and [main] *)
| PlanListen (clientPipes clientThreads : list Z).

(** [launch] up to its call of [listenClients]: the two vectors it
    passes, or how it ends before.  The two host matrices, which the
    function fills and hands to the threads, play no part in it. *)
Definition launchPlan (P : Platform) (device_id : Z)
    (cuInit_ok cuDeviceGetCount_ok : bool) (deviceCount : Z)
    (setup : nat -> DeviceSetup) : LaunchPlan :=
  if -1 <? device_id then
    match createPipe (setup O) with
    | None => PlanExit 1
    | Some (hReadPipe, hWritePipe) =>
        match beginThread (setup O) with
        | None => PlanExit 1
        | Some hThread => PlanListen [hReadPipe] [hThread]
        end
    end
  else
    match initCuda cuInit_ok cuDeviceGetCount_ok deviceCount with
    | Throw e => PlanThrow e
    | Ret devCount =>
        if devCount =? 0 then PlanExit (ENODEV P)
        else
          let '(clientPipes, clientThreads) :=
            spawnAll setup 0 (Z.to_nat devCount) [] [] in
          match clientPipes with
          | [] => PlanExit 1
          | _ => PlanListen clientPipes clientThreads
          end
    end.

Inductive LaunchResult :=
| LaunchExits (code : Z)
| LaunchThrows (e : exn)
| LaunchRan (r : RunResult).

(** [void launch<T>(runLength, ..., sigterm_timeout_threshold_secs)] with
    the run of [listenClients] it starts. *)
Definition launch (P : Platform) (runLength device_id grace : Z)
    (cuInit_ok cuDeviceGetCount_ok : bool) (deviceCount : Z)
    (setup : nat -> DeviceSetup) (startTime : Z) (hasTemp : bool)
    (spawnClock : nat -> Z) (inputs : list PassInput)
    (exitCodes : nat -> ThreadQuery) : LaunchResult :=
  match launchPlan P device_id cuInit_ok cuDeviceGetCount_ok deviceCount setup with
  | PlanExit code => LaunchExits code
  | PlanThrow e => LaunchThrows e
  | PlanListen clientPipes clientThreads =>
      LaunchRan (listenClients
                   (mkConfig clientPipes clientThreads runLength grace
                             startTime hasTemp)
                   spawnClock inputs exitCodes)
  end.

(** ** The wait in [updateTemps]

    [updateTemps] reads its line with one [ReadFile] per byte, and such a
    read waits while the pipe of the temperature tool is empty.  The peek
    before the call promises one byte, not the newline: when the tool
    stops in the middle of a line, the call does not return, and neither
    do the pass and [listenClients].  The definitions of the monitor
    above describe the passes in which every call returns; the ones of
    this module run over passes that may also wait. *)

(** The answers of the system during one pass of the loop of
    [listenClients]. *)
Inductive PassAnswer :=
| Returns (inp : PassInput)
    (* every call of the pass returns *)
| TempReadWaits (now : Z) (pk : nat -> PeekResult).
    (* [time(0)] and the answers for the client pipes; then the peek of
       the temperature pipe finds a byte and the read loop of
       [updateTemps] never gets its newline *)

(** [time(0)] of the pass. *)
Definition clockOf (a : PassAnswer) : Z :=
  match a with
  | Returns inp => thisTime inp
  | TempReadWaits now _ => now
  end.

Definition isWait (a : PassAnswer) : bool :=
  match a with
  | Returns _ => false
  | TempReadWaits _ _ => true
  end.

Module Waits.

Inductive PassEnd :=
| Passed (r : PassResult)
| InUpdateTemps.            (* the pass waits in [updateTemps] *)

(** One pass of the [while (true)] loop.  Without a temperature pipe
    [updateTemps] is not called, and the pass cannot wait in it. *)
Definition pass (cfg : Config) (a : PassAnswer) (m : Monitor) : PassEnd :=
  match a with
  | Returns inp => Passed (pass cfg inp m)
  | TempReadWaits now pk =>
      if negb (hasTempHandle cfg)
      then Passed (pass cfg (mkPassInput now pk TempNothing) m)
      else if deadlinePassed cfg now then Passed Deadline
      else
        match for_loop (pollClient pk) 0 (length (clientHandles cfg)) m with
        | None => Passed Crash
        | Some _ => InUpdateTemps
        end
  end.

Inductive LoopEnd :=
| Stops (r : LoopResult)
| Waiting (tr : list Event).    (* what was printed and done before the wait *)

(** The [while (true)] loop. *)
Fixpoint pollLoop (cfg : Config) (answers : list PassAnswer) (m : Monitor)
    (tr : list Event) : LoopEnd :=
  match answers with
  | [] => Stops (Polling m tr)
  | a :: rest =>
      match pass cfg a m with
      | InUpdateTemps => Waiting tr
      | Passed (Next m' out) => pollLoop cfg rest m' (tr ++ out)
      | Passed Deadline => Stops (AtDeadline m tr)
      | Passed (Exit code out) => Stops (Exited code (tr ++ out))
      | Passed Crash => Stops (Crashed tr)
      end
  end.

Inductive RunEnd :=
| Finished (r : RunResult)
| WaitsInUpdateTemps (tr : list Event).

(** [listenClients]: the loop, and after it the shutdown. *)
Definition listenClients (cfg : Config) (spawnClock : nat -> Z)
    (answers : list PassAnswer) (exitCodes : nat -> ThreadQuery) : RunEnd :=
  let m0 := monitor_init (length (clientHandles cfg)) spawnClock in
  match pollLoop cfg answers m0 (startTrace cfg) with
  | Waiting tr => WaitsInUpdateTemps tr
  | Stops (AtDeadline m tr) =>
      match shutdown cfg exitCodes m with
      | Some tr' => Finished (Returned (tr ++ tr'))
      | None => Finished (Terminated tr)
      end
  | Stops (Exited code tr) => Finished (ExitedWith code tr)
  | Stops (Crashed tr) => Finished (Terminated tr)
  | Stops (Polling m tr) => Finished (StillPolling tr)
  end.

Inductive LaunchEnd :=
| LaunchExits (code : Z)
| LaunchThrows (e : exn)
| LaunchRan (r : RunEnd).

(** [launch] with the run of [listenClients] it starts. *)
Definition launch (P : Platform) (runLength device_id grace : Z)
    (cuInit_ok cuDeviceGetCount_ok : bool) (deviceCount : Z)
    (setup : nat -> DeviceSetup) (startTime : Z) (hasTemp : bool)
    (spawnClock : nat -> Z) (answers : list PassAnswer)
    (exitCodes : nat -> ThreadQuery) : LaunchEnd :=
  match launchPlan P device_id cuInit_ok cuDeviceGetCount_ok deviceCount setup with
  | PlanExit code => LaunchExits code
  | PlanThrow e => LaunchThrows e
  | PlanListen clientPipes clientThreads =>
      LaunchRan (listenClients
                   (mkConfig clientPipes clientThreads runLength grace
                             startTime hasTemp)
                   spawnClock answers exitCodes)
  end.

End Waits.

(** ** Vocabulary of the properties of the worker *)

(** The two steps of the first [try] block of the thread: the object it
    goes on with, or what was thrown. *)
Definition initOutcome (drv : Driver) (T : elemT) (args : BurnThreadArgs)
    (host0 : Z) (g_running : bool) : outcome GPU_Test :=
  match GPU_Test_new drv (index args) (doubles args) (tensors args)
                     (kernelFileArg args) host0 g_running with
  | (Throw e, _) => Throw e
  | (Ret our0, _) =>
      match initBuffers drv T (useBytesArg args) our0 with
      | (Throw e, _) => Throw e
      | (Ret _, our) => Ret our
      end
  end.

(** Every driver call of an iteration over [batch] result buffers
    succeeds, and the event the thread waits for arrives. *)
Definition succeeds (batch : Z) (it : Iteration) : Prop :=
  cuCtxSetCurrent_ok (drvNow it) = true
  /\ (forall i, (i < Z.to_nat batch)%nat -> gemm_ok it i = true)
  /\ cuMemsetD32Async_ok (drvNow it) = true
  /\ cuLaunchGridAsync_ok (drvNow it) = true
  /\ cuMemcpyDtoHAsync_ok (drvNow it) = true
  /\ cuEventRecord_ok it = true
  /\ eventArrives it = true.

(** One of the checked driver calls of the iteration fails. *)
Definition driverFails (batch : Z) (it : Iteration) : Prop :=
  cuCtxSetCurrent_ok (drvNow it) = false
  \/ (exists i, (i < Z.to_nat batch)%nat /\ gemm_ok it i = false)
  \/ cuMemsetD32Async_ok (drvNow it) = false
  \/ cuLaunchGridAsync_ok (drvNow it) = false
  \/ cuMemcpyDtoHAsync_ok (drvNow it) = false
  \/ cuEventRecord_ok it = false.

(** Both writes of the iteration put their four bytes into the pipe. *)
Definition delivered (it : Iteration) : Prop :=
  writeOps it = Written 4 /\ writeErrs it = Written 4.

(** The pair an iteration reports: the batch size and the fault count of
    the host [int], both as [int]. *)
Definition reportOf (batch : Z) (it : Iteration) : list Z :=
  [to_int32 batch; to_int32 (hostCount it)].

Definition reportEvents (batch : Z) (it : Iteration) : list WorkerEvent :=
  [WriteInt (to_int32 batch) (Written 4);
   WriteInt (to_int32 (hostCount it)) (Written 4);
   FlushPipe].

(** The [int]s a pass of the monitor takes out of the pipe of client
    [i]: none unless the peek finds eight bytes, then one for each
    [ReadFile] that gives its four bytes (the second is tried only after
    the first). *)
Definition readFrom (i : nat) (inp : PassInput) : list Z :=
  match peek inp i with
  | Peeked bytesAvailable _ rd_processed rd_errors =>
      if 8 <=? bytesAvailable then
        match rd_processed with
        | ReadInt processed =>
            match rd_errors with
            | ReadInt errors => [processed; errors]
            | ReadShort => [processed]
            end
        | ReadShort => []
        end
      else []
  | PeekFailed _ => []
  end.

(** The pass takes a whole pair from the pipe of client [i], or nothing. *)
Definition pairsOnly (i : nat) (inp : PassInput) : Prop :=
  consumed inp i = true \/ readFrom i inp = [].

(** The peek of the pass does not find the pipe of client [i] broken. *)
Definition pipeOpen (i : nat) (inp : PassInput) : Prop :=
  peek inp i <> PeekFailed ERROR_BROKEN_PIPE.

(** What the answers of a pass for client [i] make of its cumulative
    count [c] in the polling loop. *)
Definition countAfter (inp : PassInput) (i : nat) (c : Z) : Z :=
  match peek inp i with
  | Peeked bytesAvailable _ (ReadInt processed) (ReadInt _) =>
      if 8 <=? bytesAvailable
      then (if processed =? -1 then -1 else to_int32 (c + processed))
      else c
  | Peeked _ _ _ _ => c
  | PeekFailed error => if error =? ERROR_BROKEN_PIPE then -1 else c
  end.

(** A pass before the deadline in which the monitor reads the pair
    [(processed, errors)] from the pipe of client 0 at clock reading
    [now]. *)
Definition readingPass (now processed errors : Z) : PassInput :=
  mkPassInput now
    (fun i => match i with
              | O => Peeked 8 (now * 10000000) (ReadInt processed) (ReadInt errors)
              | _ => Peeked 0 0 ReadShort ReadShort
              end)
    TempNothing.

(** The values of the Windows SDK headers. *)
Definition win64 : Platform := mkPlatform 232 233 107 19.

Definition burnArgs : BurnThreadArgs :=
  mkBurnThreadArgs 0 false false 0 "compare.ptx".

(** An iteration without failures whose compare finds [faults] faulty
    elements. *)
Definition goodIteration (faults : Z) : Iteration :=
  mkIteration driver8G (fun _ => true) faults true true (Written 4) (Written 4).

(** An iteration whose third GEMM call fails. *)
Definition gemmFails : Iteration :=
  mkIteration driver8G (fun i => negb (Nat.eqb i 2)) 0 true true
              (Written 4) (Written 4).

(** An iteration that finds the reading end of the pipe closed. *)
Definition readerGone : Iteration :=
  mkIteration driver8G (fun _ => true) 0 true true
              (WriteError ERROR_BROKEN_PIPE) (Written 4).

(** A device with 512 MiB free: the default 90% is less than three
    result buffers of 256 MiB. *)
Definition driverSmall : Driver :=
  mkDriver true true true true true true true
           (512 * 2 ^ 20) (16 * 2 ^ 30) (fun _ => true) true
           true true true true true true true
           true true true.

(** A device whose context cannot be created. *)
Definition driverNoContext : Driver :=
  mkDriver true false true true true true true
           (8 * 2 ^ 30) (16 * 2 ^ 30) (fun _ => true) true
           true true true true true true true
           true true true.

(** The reading end of the pipe is gone at the first or at the second
    write of the iteration. *)
Definition readerLost (it : Iteration) : Prop :=
  writeOps it = WriteError ERROR_BROKEN_PIPE
  \/ (writeOps it = Written 4 /\ writeErrs it = WriteError ERROR_BROKEN_PIPE).

(** The writes of the iteration that finds the reader gone. *)
Definition lastWrites (batch : Z) (it : Iteration) : list WorkerEvent :=
  match writeOps it with
  | WriteError _ => [WriteInt (to_int32 batch) (writeOps it)]
  | Written _ => [WriteInt (to_int32 batch) (writeOps it);
                  WriteInt (to_int32 (hostCount it)) (writeErrs it)]
  end.

(** The low-memory test of [initBuffers] on the bytes it settles on. *)
Definition tooSmall (drv : Driver) (T : elemT) (useBytes : Z) : Prop :=
  to_uint64 (usableOf (freeMem drv) useBytes) < 3 * resultSize T.

(** A computation that throws nothing but a [std::runtime_error]. *)
Definition onlyRuntime {A} (m : outcome A) : Prop :=
  forall e, m = Throw e -> exists desc, e = runtime_error desc.

(** ** Inputs used in the examples of [launch] *)

(** Pipes and threads can be created for every device but device 1,
    whose thread cannot be started. *)
Definition setupSkipsOne (i : nat) : DeviceSetup :=
  mkDeviceSetup (Some (Z.of_nat (10 + 2 * i), Z.of_nat (11 + 2 * i)))
                (if Nat.eqb i 1 then None else Some (Z.of_nat (100 + i))).

(** A pass at clock reading [now] in which no pipe holds data. *)
Definition idlePass (now : Z) : PassInput :=
  mkPassInput now (fun _ => Peeked 0 0 ReadShort ReadShort) TempNothing.

(** ** Vocabulary of the further properties of the monitor *)

(** Does the pass read from the pipe of client [i] a report with a
    nonzero error count? *)
Definition reportsErrors (inp : PassInput) (i : nat) : bool :=
  match peek inp i with
  | Peeked bytesAvailable _ (ReadInt _) (ReadInt errors) =>
      (8 <=? bytesAvailable) && negb (errors =? 0)
  | _ => false
  end.

(** Client [i] has an empty error window and no faulty flag. *)
Definition clean (i : nat) (m : Monitor) : Prop :=
  clientErrors m !! i = Some 0 /\ clientFaulty m !! i = Some false.

(** Every pipe answers the peek with [ERROR_BROKEN_PIPE]. *)
Definition allPipesBroken (n : nat) (inp : PassInput) : Prop :=
  forall i, (i < n)%nat -> peek inp i = PeekFailed ERROR_BROKEN_PIPE.

Definition isVerdict (ev : Event) : bool :=
  match ev with Verdict _ _ => true | _ => false end.

(** A pass in which client 0 reports 100 iterations without errors and
    the pipe of client 1 is found broken. *)
Definition passSilentDeath : PassInput :=
  mkPassInput 101
    (fun i => match i with
              | O => Peeked 8 10000000 (ReadInt 100) (ReadInt 0)
              | _ => PeekFailed ERROR_BROKEN_PIPE
              end)
    TempNothing.

(** A pass in which every pipe is found broken. *)
Definition passAllBroken : PassInput :=
  mkPassInput 101 (fun _ => PeekFailed ERROR_BROKEN_PIPE) TempNothing.

(** Successive calls of [updateTemps], one line each. *)
Fixpoint feedTemps (lines : list TempLine) (m : Monitor) : option Monitor :=
  match lines with
  | [] => Some m
  | line :: rest => m' ← updateTemps line m; feedTemps rest m'
  end.

(** The lines that move [gpuIter] on: a temperature or the N/A line. *)
Definition rotates (line : TempLine) : bool :=
  match line with
  | LineTemp _ | LineNA => true
  | LineAborted | LineOther => false
  end.

Definition rotations (lines : list TempLine) : Z :=
  Z.of_nat (length (List.filter rotates lines)).

(** * The command line, [main] *)

(** The two conversions of the C library that [main] applies to its
    arguments, [atoi(s)] and [strtol(s, NULL, 0)]. *)
Record CLib := mkCLib {
  atoi : string -> Z;
  strtol0 : string -> Z
}.

Definition COMPARE_KERNEL : string := "compare.ptx".

(** The locals of [main] that the option loop writes. *)
Record Options := mkOptions {
  runLength : Z;
  useDoubles : bool;
  useTensorCores : bool;
  thisParam : Z;
  useBytes : Z;
  device_id : Z;
  kernelFile : string;
  sigtermSecs : Z          (* [sigterm_timeout_threshold_secs] *)
}.

Definition options0 : Options :=
  mkOptions 10 false false 0 0 (-1) COMPARE_KERNEL SIGTERM_TIMEOUT_THRESHOLD_SECS.

(** [thisParam++] *)
Definition bump (o : Options) : Options :=
  mkOptions (runLength o) (useDoubles o) (useTensorCores o) (thisParam o + 1)
            (useBytes o) (device_id o) (kernelFile o) (sigtermSecs o).

Definition set_runLength (v : Z) (o : Options) : Options :=
  mkOptions v (useDoubles o) (useTensorCores o) (thisParam o)
            (useBytes o) (device_id o) (kernelFile o) (sigtermSecs o).

Definition set_useDoubles (o : Options) : Options :=
  mkOptions (runLength o) true (useTensorCores o) (thisParam o)
            (useBytes o) (device_id o) (kernelFile o) (sigtermSecs o).

Definition set_useTensorCores (o : Options) : Options :=
  mkOptions (runLength o) (useDoubles o) true (thisParam o)
            (useBytes o) (device_id o) (kernelFile o) (sigtermSecs o).

Definition set_useBytes (v : Z) (o : Options) : Options :=
  mkOptions (runLength o) (useDoubles o) (useTensorCores o) (thisParam o)
            v (device_id o) (kernelFile o) (sigtermSecs o).

Definition set_device_id (v : Z) (o : Options) : Options :=
  mkOptions (runLength o) (useDoubles o) (useTensorCores o) (thisParam o)
            (useBytes o) v (kernelFile o) (sigtermSecs o).

Definition set_kernelFile (v : string) (o : Options) : Options :=
  mkOptions (runLength o) (useDoubles o) (useTensorCores o) (thisParam o)
            (useBytes o) (device_id o) v (sigtermSecs o).

Definition set_sigtermSecs (v : Z) (o : Options) : Options :=
  mkOptions (runLength o) (useDoubles o) (useTensorCores o) (thisParam o)
            (useBytes o) (device_id o) (kernelFile o) v.

(** [std::string(s).find(sub) != std::string::npos] *)
Fixpoint finds (sub s : string) : bool :=
  String.prefix sub s
  || match s with
     | String _ s' => finds sub s'
     | EmptyString => false
     end.

(** [strncmp(s, opt, 2) == 0] for a two-character [opt]. *)
Definition starts (opt s : string) : bool := String.prefix opt s.

(** [argv[i] + 2], for an argument of at least two characters. *)
Definition after2 (s : string) : string :=
  match s with
  | String _ (String _ r) => r
  | _ => EmptyString
  end.

(** How [main] ends. *)
Inductive MainEnd :=
| ShowsHelp                  (* [showHelp(); return 0;] *)
| ListsDevices               (* the branch of [-l] *)
| SyntaxError                (* [exit(EINVAL)] *)
| Launches (o : Options).    (* the call of [launch<T>] *)

(** The [-m] block.  It may step on to the next argument ([i++]), so it
    hands on the argument and the arguments after it; [None] is
    [exit(EINVAL)]. *)
Definition optM (o : Options) (arg : string) (rest : list string)
  : option (Options * string * list string) :=
  if starts "-m" arg then
    let o := bump o in
    r ← match after2 arg with
        | String _ _ as v => Some (set_useBytes (decodeUSEMEM v) o, arg, rest)
        | EmptyString =>
            match rest with
            | v :: rest' => Some (set_useBytes (decodeUSEMEM v) (bump o), v, rest')
            | [] => None
            end
        end;
    if useBytes (r.1.1) =? 0 then None else Some r
  else Some (o, arg, rest).

(** The [-i] block. *)
Definition optI (L : CLib) (o : Options) (arg : string) (rest : list string)
  : option (Options * string * list string) :=
  if starts "-i" arg then
    let o := bump o in
    match after2 arg with
    | String _ _ as v => Some (set_device_id (strtol0 L v) o, arg, rest)
    | EmptyString =>
        match rest with
        | v :: rest' => Some (set_device_id (strtol0 L v) (bump o), v, rest')
        | [] => None
        end
    end
  else Some (o, arg, rest).

(** The [-c] block: it reads the next argument and does not step over it. *)
Definition optC (o : Options) (arg : string) (rest : list string) : Options :=
  if starts "-c" arg then
    let o := bump o in
    match rest with
    | v :: _ => bump (set_kernelFile v o)
    | [] => o
    end
  else o.

(** The [-stts] block; the comparison is over two characters. *)
Definition optS (L : CLib) (o : Options) (arg : string) (rest : list string)
  : Options :=
  if starts "-s" arg then
    let o := bump o in
    match rest with
    | v :: _ => bump (set_sigtermSecs (atoi L v) o)
    | [] => o
    end
  else o.

(** The body of the [for] loop of [main] for [argv[i] = arg], with the
    arguments after it: the end of [main], or the locals and the
    arguments left for the next rounds. *)
Definition optionStep (L : CLib) (arg : string) (rest : list string) (o : Options)
  : MainEnd + Options * list string :=
  if finds "-h" arg then inl ShowsHelp
  else if finds "-l" arg then inl ListsDevices
  else
    let o := if finds "-d" arg then bump (set_useDoubles o) else o in
    let o := if finds "-tc" arg then bump (set_useTensorCores o) else o in
    match optM o arg rest with
    | None => inl SyntaxError
    | Some (o, arg, rest) =>
        match optI L o arg rest with
        | None => inl SyntaxError
        | Some (o, arg, rest) =>
            inr (optS L (optC o arg rest) arg rest, rest)
        end
    end.

(** The [for] loop.  A round leaves fewer arguments than it found, so
    [fuel] rounds suffice for [fuel] arguments. *)
Fixpoint optionLoop (L : CLib) (fuel : nat) (args : list string) (o : Options)
  : MainEnd + Options :=
  match fuel, args with
  | Datatypes.S fuel', arg :: rest =>
      match optionStep L arg rest o with
      | inl e => inl e
      | inr (o', rest') => optionLoop L fuel' rest' o'
      end
  | _, _ => inr o
  end.

(** [int main(int argc, char **argv)] up to its call of [launch]. *)
Definition main (L : CLib) (argv : list string) : MainEnd :=
  match optionLoop L (length (tail argv)) (tail argv) options0 with
  | inl e => e
  | inr o =>
      let argc := Z.of_nat (length argv) in
      if argc - thisParam o <? 2 then Launches o
      else
        match argv !! Z.to_nat (1 + thisParam o) with
        | Some a => Launches (set_runLength (atoi L a) o)
        | None => Launches o
        end
  end.

(** ** Vocabulary of the properties of [main] *)

(** An argument that none of the tests of the option loop matches. *)
Definition plain (s : string) : Prop :=
  finds "-h" s = false /\ finds "-l" s = false /\ finds "-d" s = false
  /\ finds "-tc" s = false /\ starts "-m" s = false /\ starts "-i" s = false
  /\ starts "-c" s = false /\ starts "-s" s = false.

(** One of the two options without a value. *)
Definition isFlag (s : string) : Prop := s = "-d"%string \/ s = "-tc"%string.

Definition hasFlag (f : string) (flags : list string) : bool :=
  existsb (String.eqb f) flags.

(** The C library of the examples: [atoi] and [strtol] as the Microsoft
    library has them, where [int] and [long] are 32 bits and both
    functions saturate. *)
Definition clamp_int32 (z : Z) : Z := Z.max (- 2 ^ 31) (Z.min (2 ^ 31 - 1) z).

(** The value of a character as a digit of [base], for a base up to 16. *)
Definition digit_in (base : Z) (c : ascii) : option Z :=
  let n := char_code c in
  let v := if (48 <=? n) && (n <=? 57) then n - 48
           else if (97 <=? n) && (n <=? 102) then n - 87
           else if (65 <=? n) && (n <=? 70) then n - 55
           else 16 in
  if v <? base then Some v else None.

Fixpoint read_in (base acc : Z) (s : string) : Z :=
  match s with
  | String c s' =>
      match digit_in base c with
      | Some d => read_in base (acc * base + d) s'
      | None => acc
      end
  | EmptyString => acc
  end.

(** [atoi(s)]: white space, an optional sign, decimal digits; 0 when
    there is no numeral. *)
Definition atoi_ms (s : string) : Z :=
  match strtoll s with
  | Some (v, _) => clamp_int32 v
  | None => 0
  end.

(** [strtol(s, NULL, 0)]: white space, an optional sign, then a
    hexadecimal numeral after [0x] or [0X], an octal numeral after [0],
    and a decimal numeral otherwise; 0 when there is no numeral.  ([0x]
    without a hexadecimal digit after it is the numeral [0].) *)
Definition strtol_ms (s : string) : Z :=
  let s1 := skip_spaces s in
  let '(neg, s2) :=
    match s1 with
    | String "-"%char t => (true, t)
    | String "+"%char t => (false, t)
    | _ => (false, s1)
    end in
  let v :=
    match s2 with
    | String "0"%char (String x rest) =>
        if (Ascii.eqb x "x" || Ascii.eqb x "X")%char
        then read_in 16 0 rest
        else read_in 8 0 s2
    | _ => read_in 10 0 s2
    end in
  clamp_int32 (if neg then - v else v).

Definition clib : CLib := mkCLib atoi_ms strtol_ms.

(** The value of a memory option: a numeral, with a percent sign or
    without. *)
Definition memValue (ds : list Z) (percent : bool) : string :=
  digitString ds ++ (if percent then "%" else EmptyString).

(** The options after a run of flags. *)
Definition afterFlags (flags : list string) (o : Options) : Options :=
  mkOptions (runLength o)
            (useDoubles o || hasFlag "-d" flags)
            (useTensorCores o || hasFlag "-tc" flags)
            (thisParam o + Z.of_nat (length flags))
            (useBytes o) (device_id o) (kernelFile o) (sigtermSecs o).

(** ** Vocabulary of the summary windows *)

Definition isSummary (ev : Event) : bool :=
  match ev with SummaryAt => true | _ => false end.

(** The number of summary stamps in a trace. *)
Definition summaries (tr : list Event) : Z :=
  Z.of_nat (length (List.filter isSummary tr)).

(** [nextReport] is a finite percentage of at least [q]. *)
Definition nextReportFrom (q : Z) (m : Monitor) : Prop :=
  exists a, nextReport m = Fin a /\ (inject_Z q <= a)%Q.

Definition traceOf (r : LoopResult) : list Event :=
  match r with
  | AtDeadline _ tr | Exited _ tr | Crashed tr | Polling _ tr => tr
  end.

(** The default run of ten seconds, started at second 100, with one
    client whose report of 26 iterations and one error is read in every
    second from 100 to 110. *)
Definition tenSeconds : list PassInput :=
  (fun s => readingPass (100 + Z.of_nat s) 26 1) <$> seq 0 11.

(** ** Write errors that do not end the loop of the worker *)

(** A write result other than the failure with [ERROR_BROKEN_PIPE]. *)
Definition notBroken (r : WriteResult) : Prop := r <> WriteError ERROR_BROKEN_PIPE.

(** The events of a reporting pass whose writes may fail. *)
Definition passEvents (P : Platform) (batch : Z) (it : Iteration) : list WorkerEvent :=
  fst (writeInt P (to_int32 batch) (writeOps it))
  ++ fst (writeInt P (to_int32 (hostCount it)) (writeErrs it))
  ++ [FlushPipe].

(** An iteration both of whose writes fail with [ERROR_NO_DATA]. *)
Definition pipeClosing : Iteration :=
  mkIteration driver8G (fun _ => true) 0 true true
              (WriteError 232) (WriteError 232).

(** * Properties *)

(** ** Facts about the machine integers *)

Section MachineIntFacts.

Lemma to_int32_id z : is_int32 z -> to_int32 z = z.
Proof.
  unfold is_int32, to_int32, two32. intros H.
  rewrite Z.mod_small; lia.
Qed.

Lemma to_int32_range z : is_int32 (to_int32 z).
Proof.
  unfold is_int32, to_int32, two32.
  pose proof (Z.mod_pos_bound (z + 2 ^ 31) (2 ^ 32) ltac:(lia)). lia.
Qed.

(** Adding into an [int] that already wrapped is the same as wrapping the
    exact sum once. *)
Lemma to_int32_add_l a b : to_int32 (to_int32 a + b) = to_int32 (a + b).
Proof.
  unfold to_int32, two32.
  replace ((a + 2 ^ 31) mod 2 ^ 32 - 2 ^ 31 + b + 2 ^ 31)
    with ((a + 2 ^ 31) mod 2 ^ 32 + b) by lia.
  rewrite Zplus_mod_idemp_l.
  replace (a + 2 ^ 31 + b) with (a + b + 2 ^ 31) by lia. reflexivity.
Qed.

(** A wrapped sum with a nonzero [int] is zero only if the other summand
    was not. *)
Lemma to_int32_add_zero a b :
  is_int32 b -> b <> 0 -> to_int32 (a + b) = 0 -> a <> 0.
Proof.
  intros Hb Hnz Hsum ->. rewrite Z.add_0_l, to_int32_id in Hsum; auto.
Qed.

Lemma to_int64_id z : is_int64 z -> to_int64 z = z.
Proof.
  unfold is_int64, to_int64, two64. intros H.
  rewrite Z.mod_small; lia.
Qed.

Lemma to_int64_range z : is_int64 (to_int64 z).
Proof.
  unfold is_int64, to_int64, two64.
  pose proof (Z.mod_pos_bound (z + 2 ^ 63) (2 ^ 64) ltac:(lia)). lia.
Qed.

Lemma to_uint64_id z : is_uint64 z -> to_uint64 z = z.
Proof.
  unfold is_uint64, to_uint64, two64. intros H.
  rewrite Z.mod_small; lia.
Qed.

Lemma to_uint64_range z : is_uint64 (to_uint64 z).
Proof.
  unfold is_uint64, to_uint64, two64.
  pose proof (Z.mod_pos_bound z (2 ^ 64) ltac:(lia)). lia.
Qed.

(** A negative 64-bit value read as unsigned gains [2^64]. *)
Lemma to_uint64_neg z : - 2 ^ 64 <= z < 0 -> to_uint64 z = z + 2 ^ 64.
Proof.
  unfold to_uint64, two64. intros H.
  symmetry. apply (Z.mod_unique_pos z (2 ^ 64) (-1)); lia.
Qed.

(** An [int] widened to 64 bits and read as unsigned is zero only when
    the [int] is zero. *)
Lemma to_uint64_int32_zero z : is_int32 z -> (to_uint64 z = 0 <-> z = 0).
Proof.
  unfold is_int32. intros H. split; [|intros ->; reflexivity].
  intros Hm. destruct (Z_lt_le_dec z 0) as [Hneg|Hpos].
  - rewrite to_uint64_neg in Hm; lia.
  - rewrite to_uint64_id in Hm; unfold is_uint64; lia.
Qed.

End MachineIntFacts.

(** ** Facts about the rounding *)

Lemma scaled_pos n d s : 0 < n -> 0 < d -> 0 < fst (scaled n d s) /\ 0 < snd (scaled n d s).
Proof.
  intros Hn Hd. unfold scaled. cbn [fst snd].
  assert (0 < 2 ^ Z.max 0 s) by (apply Z.pow_pos_nonneg; lia).
  assert (0 < 2 ^ Z.max 0 (- s)) by (apply Z.pow_pos_nonneg; lia).
  split; nia.
Qed.

(** The scaled value has at least [prec] bits. *)
Lemma binade_lower prec n d :
  0 < prec -> 0 < n -> 0 < d ->
  let s := binade prec n d in
  2 ^ (prec - 1) * snd (scaled n d s) <= fst (scaled n d s).
Proof.
  intros Hp Hn Hd. unfold binade.
  set (l1 := Z.log2 n). set (l2 := Z.log2 d).
  set (s := prec - l1 + l2).
  pose proof (Z.log2_spec n Hn) as [Hn1 _]. fold l1 in Hn1.
  pose proof (Z.log2_spec d Hd) as [_ Hd2]. fold l2 in Hd2.
  pose proof (Z.log2_nonneg n) as Hl1. fold l1 in Hl1.
  pose proof (Z.log2_nonneg d) as Hl2. fold l2 in Hl2.
  destruct (scaled n d s) as [N D] eqn:Es.
  unfold scaled in Es. injection Es as <- <-.
  destruct (Z.ltb_spec (n * 2 ^ Z.max 0 s) (2 ^ prec * (d * 2 ^ Z.max 0 (- s)))) as [_|Hge];
    cbv zeta; unfold scaled; cbn [fst snd].
  - (* the bound of the logarithms *)
    assert (E : 2 ^ (prec - 1) * (2 ^ Z.succ l2 * 2 ^ Z.max 0 (- s)) = 2 ^ l1 * 2 ^ Z.max 0 s).
    { rewrite <- !Z.pow_add_r by lia. f_equal. lia. }
    assert (0 < 2 ^ Z.max 0 (- s)) by (apply Z.pow_pos_nonneg; lia).
    assert (0 < 2 ^ Z.max 0 s) by (apply Z.pow_pos_nonneg; lia).
    assert (0 < 2 ^ (prec - 1)) by (apply Z.pow_pos_nonneg; lia).
    apply Z.le_trans with (2 ^ l1 * 2 ^ Z.max 0 s).
    + rewrite <- E. apply Z.mul_le_mono_nonneg_l; [lia|].
      apply Z.mul_le_mono_nonneg_r; lia.
    + apply Z.mul_le_mono_nonneg_r; lia.
  - assert (E : 2 ^ prec = 2 * 2 ^ (prec - 1)).
    { rewrite <- Z.pow_succ_r by lia. f_equal. lia. }
    destruct (Z_le_gt_dec 1 s) as [Hs|Hs].
    + replace (Z.max 0 (- (s - 1))) with 0 by lia.
      replace (Z.max 0 (- s)) with 0 in Hge by lia.
      replace (Z.max 0 s) with (Z.succ (Z.max 0 (s - 1))) in Hge by lia.
      rewrite Z.pow_succ_r in Hge by lia. rewrite E in Hge. nia.
    + replace (Z.max 0 (s - 1)) with 0 by lia.
      replace (Z.max 0 s) with 0 in Hge by lia.
      replace (Z.max 0 (- (s - 1))) with (Z.succ (Z.max 0 (- s))) by lia.
      rewrite Z.pow_succ_r by lia. rewrite E in Hge. nia.
Qed.

Lemma rhe_bounds N D :
  0 < D -> N / D <= round_half_even N D <= N / D + 1
           /\ (N mod D = 0 -> round_half_even N D = N / D).
Proof.
  intros HD. unfold round_half_even.
  destruct (Z.compare_spec (2 * (N mod D)) D) as [E|E|E].
  - split; [destruct (Z.even (N / D)); lia|]. intros H0. lia.
  - split; [lia | reflexivity].
  - split; [lia|]. intros H0. lia.
Qed.

Lemma rhe_ge z N D : 0 < D -> z * D <= N -> z <= round_half_even N D.
Proof.
  intros HD H. destruct (rhe_bounds N D HD) as [[Hf _] _].
  assert (z <= N / D) by (apply Z.div_le_lower_bound; lia). lia.
Qed.

Lemma rhe_le z N D : 0 < D -> N <= z * D -> round_half_even N D <= z.
Proof.
  intros HD H. destruct (rhe_bounds N D HD) as [[_ Hf] H0].
  pose proof (Z.div_mod N D ltac:(lia)) as Hdm.
  pose proof (Z.mod_pos_bound N D HD) as Hm.
  destruct (Z.eq_dec (N mod D) 0) as [E|E].
  - rewrite (H0 E). apply Z.div_le_upper_bound; lia.
  - assert (N / D < z) by nia. lia.
Qed.

Lemma rhe_err N D : 0 < D -> N - D <= D * round_half_even N D <= N + D.
Proof.
  intros HD. destruct (rhe_bounds N D HD) as [[Hf1 Hf2] _].
  pose proof (Z.div_mod N D ltac:(lia)) as Hdm.
  pose proof (Z.mod_pos_bound N D HD) as Hm. nia.
Qed.

Lemma binade_upper prec n d :
  0 < prec -> 0 < n -> 0 < d ->
  let s := binade prec n d in
  fst (scaled n d s) < 2 ^ prec * snd (scaled n d s).
Proof.
  intros Hp Hn Hd. unfold binade.
  set (l1 := Z.log2 n). set (l2 := Z.log2 d).
  set (s := prec - l1 + l2).
  pose proof (Z.log2_spec n Hn) as [_ Hn2]. fold l1 in Hn2.
  pose proof (Z.log2_spec d Hd) as [Hd1 _]. fold l2 in Hd1.
  pose proof (Z.log2_nonneg n) as Hl1. fold l1 in Hl1.
  pose proof (Z.log2_nonneg d) as Hl2. fold l2 in Hl2.
  destruct (scaled n d s) as [N D] eqn:Es.
  unfold scaled in Es. injection Es as <- <-.
  destruct (Z.ltb_spec (n * 2 ^ Z.max 0 s) (2 ^ prec * (d * 2 ^ Z.max 0 (- s)))) as [Hlt|_];
    cbv zeta; unfold scaled; cbn [fst snd]; [exact Hlt|].
  assert (E : 2 ^ Z.succ l1 * 2 ^ Z.max 0 (s - 1)
              = 2 ^ prec * (2 ^ l2 * 2 ^ Z.max 0 (- (s - 1)))).
  { rewrite <- !Z.pow_add_r by lia. f_equal. lia. }
  assert (0 < 2 ^ Z.max 0 (- (s - 1))) by (apply Z.pow_pos_nonneg; lia).
  assert (0 < 2 ^ Z.max 0 (s - 1)) by (apply Z.pow_pos_nonneg; lia).
  assert (0 < 2 ^ prec) by (apply Z.pow_pos_nonneg; lia).
  apply Z.lt_le_trans with (2 ^ Z.succ l1 * 2 ^ Z.max 0 (s - 1)).
  - apply Z.mul_lt_mono_pos_r; lia.
  - rewrite E. apply Z.mul_le_mono_nonneg_l; [lia|].
    apply Z.mul_le_mono_nonneg_r; lia.
Qed.

Lemma rnd_pos_ge prec n d z j :
  0 < prec -> 0 < n -> 0 < d -> 0 <= j -> 0 <= z < 2 ^ prec ->
  z * d <= n * 2 ^ j ->
  (dyadic z j <= rnd_pos prec n d)%Q.
Proof.
  intros Hp Hn Hd Hj Hz Hle.
  pose proof (binade_lower prec n d Hp Hn Hd) as HL. cbv zeta in HL.
  unfold rnd_pos, dyadic. set (s := binade prec n d) in *.
  unfold scaled in *. cbn [fst snd] in HL.
  set (a := Z.max 0 s) in *. set (b := Z.max 0 (- s)) in *.
  set (m := round_half_even (n * 2 ^ a) (d * 2 ^ b)).
  assert (Ha : 0 < 2 ^ a) by (apply Z.pow_pos_nonneg; lia).
  assert (Hb : 0 < 2 ^ b) by (apply Z.pow_pos_nonneg; lia).
  assert (H2j : 0 < 2 ^ j) by (apply Z.pow_pos_nonneg; lia).
  unfold Qle. cbn [Qnum Qden]. rewrite !Z2Pos.id by assumption.
  destruct (Z_le_gt_dec j s) as [Hs|Hs].
  - assert (Eb : 2 ^ b = 1) by (replace b with 0 by lia; reflexivity).
    assert (Ea : 2 ^ a = 2 ^ (a - j) * 2 ^ j).
    { rewrite <- Z.pow_add_r by lia. f_equal. lia. }
    assert (Haj : 0 < 2 ^ (a - j)) by (apply Z.pow_pos_nonneg; lia).
    assert (Hm : z * 2 ^ (a - j) <= m).
    { apply rhe_ge; [nia|]. rewrite Eb, Ea. nia. }
    rewrite Eb, Ea. nia.
  - assert (Hm : 2 ^ (prec - 1) <= m) by (apply rhe_ge; [nia | exact HL]).
    assert (E1 : 2 ^ prec * 2 ^ a <= 2 ^ (prec - 1) * 2 ^ b * 2 ^ j).
    { rewrite <- !Z.pow_add_r by lia. apply Z.pow_le_mono_r; lia. }
    assert (0 < 2 ^ (prec - 1)) by (apply Z.pow_pos_nonneg; lia).
    apply Z.le_trans with (2 ^ prec * 2 ^ a); [nia|].
    apply Z.le_trans with (2 ^ (prec - 1) * 2 ^ b * 2 ^ j); [exact E1|].
    apply Z.mul_le_mono_nonneg_r; [lia|]. apply Z.mul_le_mono_nonneg_r; lia.
Qed.

Lemma rnd_pos_le prec n d z j :
  0 < prec -> 0 < n -> 0 < d -> 0 <= j -> 0 <= z < 2 ^ prec ->
  n * 2 ^ j <= z * d ->
  (rnd_pos prec n d <= dyadic z j)%Q.
Proof.
  intros Hp Hn Hd Hj Hz Hle.
  pose proof (binade_lower prec n d Hp Hn Hd) as HL. cbv zeta in HL.
  unfold rnd_pos, dyadic. set (s := binade prec n d) in *.
  unfold scaled in *. cbn [fst snd] in HL.
  set (a := Z.max 0 s) in *. set (b := Z.max 0 (- s)) in *.
  set (m := round_half_even (n * 2 ^ a) (d * 2 ^ b)).
  assert (Ha : 0 < 2 ^ a) by (apply Z.pow_pos_nonneg; lia).
  assert (Hb : 0 < 2 ^ b) by (apply Z.pow_pos_nonneg; lia).
  assert (H2j : 0 < 2 ^ j) by (apply Z.pow_pos_nonneg; lia).
  unfold Qle. cbn [Qnum Qden]. rewrite !Z2Pos.id by assumption.
  destruct (Z_le_gt_dec j s) as [Hs|Hs].
  - assert (Eb : 2 ^ b = 1) by (replace b with 0 by lia; reflexivity).
    assert (Ea : 2 ^ a = 2 ^ (a - j) * 2 ^ j).
    { rewrite <- Z.pow_add_r by lia. f_equal. lia. }
    assert (Haj : 0 < 2 ^ (a - j)) by (apply Z.pow_pos_nonneg; lia).
    assert (Hm : m <= z * 2 ^ (a - j)).
    { apply rhe_le; [nia|]. rewrite Eb, Ea. nia. }
    rewrite Eb, Ea. nia.
  - exfalso.
    assert (E1 : 2 ^ prec * 2 ^ a <= 2 ^ (prec - 1) * 2 ^ b * 2 ^ j).
    { rewrite <- !Z.pow_add_r by lia. apply Z.pow_le_mono_r; lia. }
    assert (0 < 2 ^ (prec - 1)) by (apply Z.pow_pos_nonneg; lia).
    assert (H1 : 2 ^ (prec - 1) * 2 ^ b * 2 ^ j * d <= n * 2 ^ a * 2 ^ j) by nia.
    assert (H2 : n * 2 ^ j * 2 ^ a <= z * d * 2 ^ a) by nia.
    assert (H3 : z * d * 2 ^ a < 2 ^ prec * 2 ^ a * d) by nia.
    nia.
Qed.

(** The error of one rounding is at most one unit in the last place. *)
Lemma rnd_pos_err prec n d :
  0 < prec -> 0 < n -> 0 < d ->
  let r := rnd_pos prec n d in
  (2 ^ (prec - 1) - 1) * n * Zpos (Qden r) <= 2 ^ (prec - 1) * d * Qnum r
  /\ 2 ^ (prec - 1) * d * Qnum r <= (2 ^ (prec - 1) + 1) * n * Zpos (Qden r).
Proof.
  intros Hp Hn Hd.
  pose proof (binade_lower prec n d Hp Hn Hd) as HL. cbv zeta in HL.
  unfold rnd_pos. set (s := binade prec n d) in *.
  unfold scaled in *. cbn [fst snd] in HL.
  set (a := Z.max 0 s) in *. set (b := Z.max 0 (- s)) in *.
  assert (Ha : 0 < 2 ^ a) by (apply Z.pow_pos_nonneg; lia).
  assert (Hb : 0 < 2 ^ b) by (apply Z.pow_pos_nonneg; lia).
  pose proof (rhe_err (n * 2 ^ a) (d * 2 ^ b) ltac:(nia)) as He.
  set (m := round_half_even (n * 2 ^ a) (d * 2 ^ b)) in *.
  assert (0 < 2 ^ (prec - 1)) by (apply Z.pow_pos_nonneg; lia).
  cbv zeta. cbn [Qnum Qden]. rewrite !Z2Pos.id by assumption.
  set (P := 2 ^ (prec - 1)) in *. set (A := 2 ^ a) in *. set (B := 2 ^ b) in *.
  split; nia.
Qed.

Lemma rnd_ge prec q z j :
  0 < prec -> 0 <= j -> 0 < z < 2 ^ prec ->
  (dyadic z j <= q)%Q -> (dyadic z j <= rnd prec q)%Q.
Proof.
  intros Hp Hj Hz Hle. destruct q as [nq dq]. unfold rnd. cbn [Qnum Qden].
  assert (H2j : 0 < 2 ^ j) by (apply Z.pow_pos_nonneg; lia).
  unfold Qle, dyadic in Hle. cbn [Qnum Qden] in Hle. rewrite Z2Pos.id in Hle by assumption.
  destruct nq as [|n|n]; try (exfalso; nia).
  apply rnd_pos_ge; try lia.
Qed.

Lemma rnd_le prec q z j :
  0 < prec -> 0 <= j -> 0 <= z < 2 ^ prec ->
  (0 < q)%Q -> (q <= dyadic z j)%Q -> (rnd prec q <= dyadic z j)%Q.
Proof.
  intros Hp Hj Hz Hq Hle. destruct q as [nq dq]. unfold rnd. cbn [Qnum Qden].
  assert (H2j : 0 < 2 ^ j) by (apply Z.pow_pos_nonneg; lia).
  unfold Qle, dyadic in Hle. cbn [Qnum Qden] in Hle. rewrite Z2Pos.id in Hle by assumption.
  unfold Qlt in Hq. cbn in Hq.
  destruct nq as [|n|n]; try lia.
  apply rnd_pos_le; try lia.
Qed.

Lemma rnd_ge_int prec q z :
  0 < prec -> 0 < z < 2 ^ prec -> (inject_Z z <= q)%Q -> (inject_Z z <= rnd prec q)%Q.
Proof. intros Hp Hz H. exact (rnd_ge prec q z 0 Hp ltac:(lia) Hz H). Qed.

Lemma rnd_le_int prec q z :
  0 < prec -> 0 <= z < 2 ^ prec -> (0 < q)%Q -> (q <= inject_Z z)%Q ->
  (rnd prec q <= inject_Z z)%Q.
Proof. intros Hp Hz Hq H. exact (rnd_le prec q z 0 Hp ltac:(lia) Hz Hq H). Qed.

(** An integer of at most [prec] bits is not changed. *)
Lemma rnd_int prec z :
  0 < prec -> 0 <= z < 2 ^ prec -> (rnd prec (inject_Z z) == inject_Z z)%Q.
Proof.
  intros Hp Hz. destruct (Z.eq_dec z 0) as [->|Hnz]; [reflexivity|].
  apply Qle_antisym.
  - apply rnd_le_int; [lia | lia | | apply Qle_refl].
    unfold Qlt. cbn. lia.
  - apply rnd_ge_int; [lia | lia | apply Qle_refl].
Qed.

Lemma rnd_err prec q :
  0 < prec -> (0 < q)%Q ->
  (q * (1 - dyadic 1 (prec - 1)) <= rnd prec q
   /\ rnd prec q <= q * (1 + dyadic 1 (prec - 1)))%Q.
Proof.
  intros Hp Hq. destruct q as [nq dq]. unfold Qlt in Hq. cbn in Hq.
  destruct nq as [|n|n]; try lia.
  pose proof (rnd_pos_err prec (Zpos n) (Zpos dq) Hp ltac:(lia) ltac:(lia)) as He.
  cbv zeta in He. unfold rnd. cbn [Qnum].
  cbn [Qden]. set (r := rnd_pos prec (Z.pos n) (Z.pos dq)) in *.
  assert (HP : 0 < 2 ^ (prec - 1)) by (apply Z.pow_pos_nonneg; lia).
  unfold Qle, Qmult, Qminus, Qplus, Qopp, dyadic. cbn [Qnum Qden].
  rewrite !Pos2Z.inj_mul, !Z2Pos.id by assumption.
  set (P := 2 ^ (prec - 1)) in *.
  destruct He as [He1 He2]. split; nia.
Qed.

(** The rounding on values known from the formats: 0.9 and 0.1 as
    [double], 0.3 as [float], and the ties at [2^24 + 1] and [2^24 + 3]. *)
Lemma rnd_known_values :
  (to_double (9 # 10) == 8106479329266893 # 9007199254740992)%Q
  /\ (to_double (1 # 10) == 3602879701896397 # 36028797018963968)%Q
  /\ (to_float (3 # 10) == 10066330 # 33554432)%Q
  /\ (to_float (inject_Z 16777217) == inject_Z 16777216)%Q
  /\ (to_float (inject_Z 16777219) == inject_Z 16777220)%Q.
Proof. repeat split; vm_compute; reflexivity. Qed.

(** ** The worker's error accumulator *)

Lemma getErrors_clears_d_error t : d_error (snd (getErrors t)) = 0.
Proof. reflexivity. Qed.

Lemma getErrors_keeps_host_count t :
  d_faultyElemsHost (snd (getErrors t)) = d_faultyElemsHost t.
Proof. reflexivity. Qed.

(** After a call, the accumulator of the next call is the pending host
    count alone. *)
Lemma accumulated_after_getErrors t :
  is_int32 (d_faultyElemsHost t) ->
  accumulated (snd (getErrors t)) = d_faultyElemsHost t.
Proof.
  intros Hf. unfold accumulated. simpl.
  destruct (Z.eqb_spec (d_faultyElemsHost t) 0) as [E|E]; [lia|].
  apply to_int64_id. unfold is_int32, is_int64 in *. lia.
Qed.

(** C10, as stated, fails: with a pending host count of 3, the second of
    two calls to [getErrors] with no [compare] in between returns 3
    again, not 0. *)
Lemma getErrors_second_call_nonzero :
  fst (getErrors (snd (getErrors worker3))) <> 0.
Proof. vm_compute. discriminate. Qed.

(** The conditional addition at the head of [getErrors] is the plain sum
    in [long long] arithmetic. *)
Lemma accumulated_sum t :
  is_int64 (d_error t) ->
  accumulated t = to_int64 (d_error t + d_faultyElemsHost t).
Proof.
  intros He. unfold accumulated.
  destruct (Z.eqb_spec (d_faultyElemsHost t) 0) as [E|E]; [|reflexivity].
  rewrite E, Z.add_0_r. symmetry. now apply to_int64_id.
Qed.

(** C10 (amended): a call to [getErrors] returns the accumulated total,
    the pending host count included, and sets [d_error] to zero but leaves
    the host count in place; a second call with no [compare] in between
    returns that pending count again, so it returns 0 exactly when the
    pending count is 0. *)
Theorem getErrors_twice (t : GPU_Test) :
  is_int64 (d_error t) ->
  is_int32 (d_faultyElemsHost t) ->
  fst (getErrors t) = to_uint64 (to_int64 (d_error t + d_faultyElemsHost t))
  /\ d_error (snd (getErrors t)) = 0
  /\ d_faultyElemsHost (snd (getErrors t)) = d_faultyElemsHost t
  /\ fst (getErrors (snd (getErrors t))) = to_uint64 (d_faultyElemsHost t)
  /\ (fst (getErrors (snd (getErrors t))) = 0 <-> d_faultyElemsHost t = 0).
Proof.
  intros He Hf.
  assert (E2 : fst (getErrors (snd (getErrors t))) = to_uint64 (d_faultyElemsHost t)).
  { unfold getErrors at 1. cbn [fst]. now rewrite accumulated_after_getErrors. }
  split; [|split; [|split; [|split]]].
  - unfold getErrors. cbn [fst]. now rewrite accumulated_sum.
  - reflexivity.
  - reflexivity.
  - exact E2.
  - rewrite E2. now apply to_uint64_int32_zero.
Qed.

Lemma getErrors_twice_witness :
  is_int64 (d_error worker3) /\ is_int32 (d_faultyElemsHost worker3)
  /\ fst (getErrors (snd (getErrors worker3))) = to_uint64 (d_faultyElemsHost worker3).
Proof.
  assert (He : is_int64 (d_error worker3)) by (unfold is_int64; simpl; lia).
  assert (Hf : is_int32 (d_faultyElemsHost worker3)) by (unfold is_int32; simpl; lia).
  split; [exact He|]. split; [exact Hf|].
  exact (proj1 (proj2 (proj2 (proj2 (getErrors_twice worker3 He Hf))))).
Defined.

(** ** Buffer initialisation and the low-memory test *)

Lemma bind_ok drv : queries_ok drv -> bind drv = Ret tt.
Proof. intros [Hb _]. unfold bind. now rewrite Hb. Qed.

Lemma availMemory_ok drv : queries_ok drv -> availMemory drv = Ret (freeMem drv).
Proof.
  intros H. unfold availMemory. rewrite (bind_ok drv H).
  destruct H as [_ Hq]. now rewrite Hq.
Qed.

Lemma totalMemory_ok drv : queries_ok drv -> totalMemory drv = Ret (totalMem drv).
Proof.
  intros H. unfold totalMemory. rewrite (bind_ok drv H).
  destruct H as [_ Hq]. now rewrite Hq.
Qed.

Lemma usableBytes_ok drv useBytes :
  queries_ok drv -> usableBytes drv useBytes = Ret (usableOf (freeMem drv) useBytes).
Proof.
  intros H. unfold usableBytes, usableOf. rewrite (availMemory_ok drv H).
  destruct (useBytes =? 0); cbn.
  - destruct (useBytes_default (freeMem drv) <? 0); reflexivity.
  - destruct (useBytes <? 0); reflexivity.
Qed.

Lemma resultSize_value T : resultSize T = sizeofT T * 2 ^ 26.
Proof. destruct T; reflexivity. Qed.

Lemma resultSize_pos T : 0 < resultSize T < 2 ^ 30.
Proof. destruct T; vm_compute; split; reflexivity. Qed.

(** With the footprint at least three buffers, the unsigned computation of
    [d_iters] is the exact quotient. *)
Lemma itersFor_exact T usable :
  3 * resultSize T <= to_uint64 usable ->
  itersFor T usable = (to_uint64 usable - 2 * resultSize T) / resultSize T.
Proof.
  intros H. unfold itersFor.
  pose proof (resultSize_pos T) as HR.
  pose proof (to_uint64_range usable) as HU. unfold is_uint64 in HU.
  rewrite (to_uint64_id (2 * resultSize T)) by (unfold is_uint64; lia).
  rewrite (to_uint64_id (to_uint64 usable - _)) by (unfold is_uint64; lia).
  reflexivity.
Qed.

(** A [checkError] never throws a [std::string]. *)
Lemma checkError_seq_not_string ok desc (k : outcome unit) msg :
  (checkError ok desc;; k) = Throw (string_exn msg) -> k = Throw (string_exn msg).
Proof. destruct ok; cbn; [auto | discriminate]. Qed.

(** The shape of [initBuffers] once the driver's queries succeed. *)
Lemma initBuffers_unfold drv T useBytes t :
  queries_ok drv ->
  let usable := usableOf (freeMem drv) useBytes in
  let t1 := set_d_iters (itersFor T usable) t in
  initBuffers drv T useBytes t =
    if to_uint64 usable <? to_uint64 (3 * resultSize T)
    then (Throw (string_exn lowMemMessage), t1)
    else
      (checkError (cuMemAlloc_ok drv (to_uint64 (d_iters t1 * resultSize T))) "C alloc";;
       checkError (cuMemAlloc_ok drv (resultSize T)) "A alloc";;
       checkError (cuMemAlloc_ok drv (resultSize T)) "B alloc";;
       checkError (cuMemAlloc_ok drv 4) "faulty data";;
       checkError (cuMemcpyHtoD_ok drv) "A -> device";;
       checkError (cuMemcpyHtoD_ok drv) "B -> device";;
       initCompareKernel drv (d_kernelFile t1),
       t1).
Proof.
  intros H. unfold initBuffers.
  rewrite (bind_ok drv H), (usableBytes_ok drv useBytes H),
          (totalMemory_ok drv H), (availMemory_ok drv H).
  reflexivity.
Qed.

(** C8: with the driver answering its queries, [initBuffers] throws the
    low-memory error exactly when the usable byte count (as the [size_t]
    the code compares) is below three result buffers; from three buffers
    on it sets [d_iters] to the number of output buffers that fit beside
    the two inputs, which is at least one, and goes on to the allocations,
    returning normally when those succeed. *)
Theorem initBuffers_low_memory_iff (drv : Driver) (T : elemT) (useBytes : Z)
    (t : GPU_Test) (u : Z) :
  queries_ok drv ->
  usableBytes drv useBytes = Ret u ->
  let usable := to_uint64 u in
  let r := initBuffers drv T useBytes t in
  (fst r = Throw (string_exn lowMemMessage) <-> usable < 3 * resultSize T)
  /\ (3 * resultSize T <= usable ->
      d_iters (snd r) = (usable - 2 * resultSize T) / resultSize T
      /\ 1 <= d_iters (snd r)
      /\ (uploads_ok drv -> fst r = Ret tt)).
Proof.
  intros H Hu usable r. subst usable r.
  rewrite (usableBytes_ok drv useBytes H) in Hu. injection Hu as <-.
  rewrite (initBuffers_unfold drv T useBytes t H). cbv zeta.
  set (u := usableOf (freeMem drv) useBytes).
  pose proof (resultSize_pos T) as HR.
  rewrite (to_uint64_id (3 * resultSize T)) by (unfold is_uint64; lia).
  destruct (Z.ltb_spec (to_uint64 u) (3 * resultSize T)) as [Hlow|Hok].
  - split; [split; auto | lia].
  - split.
    + split; [|lia]. cbn [fst]. intros E.
      repeat (apply checkError_seq_not_string in E).
      unfold initCompareKernel in E.
      repeat (apply checkError_seq_not_string in E).
      unfold checkError in E. destruct (cuFuncSetBlockShape_ok drv); discriminate.
    + intros _. cbn [fst snd]. unfold set_d_iters; cbn [d_iters].
      rewrite (itersFor_exact T u Hok).
      split; [reflexivity|]. split.
      * apply Z.div_le_lower_bound; lia.
      * intros (Halloc & Hcpy & Hker).
        rewrite !Halloc, Hcpy, Hker. reflexivity.
Qed.

Lemma initBuffers_low_memory_iff_witness :
  queries_ok driver8G
  /\ usableBytes driver8G 0 = Ret 7730941132
  /\ fst (initBuffers driver8G FloatT 0 worker3) = Ret tt
  /\ d_iters (snd (initBuffers driver8G FloatT 0 worker3)) = 26.
Proof.
  assert (H : queries_ok driver8G) by (split; reflexivity).
  assert (Hu : usableBytes driver8G 0 = Ret 7730941132) by reflexivity.
  split; [exact H|]. split; [exact Hu|].
  destruct (initBuffers_low_memory_iff driver8G FloatT 0 worker3 _ H Hu) as [_ Hbig].
  destruct Hbig as (Hit & _ & Hret).
  - vm_compute. discriminate.
  - split.
    + apply Hret. split; [|split]; intros; reflexivity.
    + rewrite Hit. reflexivity.
Defined.

(** ** The memory option *)

Lemma is_digit_cases d :
  is_digit d ->
  d = 0 \/ d = 1 \/ d = 2 \/ d = 3 \/ d = 4 \/ d = 5 \/ d = 6 \/ d = 7 \/ d = 8 \/ d = 9.
Proof. unfold is_digit. lia. Qed.

Ltac each_digit H :=
  apply is_digit_cases in H;
  repeat (destruct H as [H|H]); subst.

Lemma digit_value_digitChar d : is_digit d -> digit_value (digitChar d) = Some d.
Proof. intros H. each_digit H; reflexivity. Qed.

Lemma read_digits_digitString ds : forall acc rest,
  Forall is_digit ds ->
  read_digits acc (digitString ds ++ rest)
  = read_digits (fold_left (fun a d => a * 10 + d) ds acc) rest.
Proof.
  induction ds as [|d ds IH]; intros acc rest Hds; [reflexivity|].
  inversion Hds as [|? ? Hd Hds']; subst.
  cbn [digitString String.append read_digits fold_left].
  rewrite (digit_value_digitChar d Hd). apply IH, Hds'.
Qed.

Lemma read_digits_stops acc rest : stops rest -> read_digits acc rest = (acc, rest).
Proof. destruct rest as [|c rest]; cbn; [reflexivity|]. now intros ->. Qed.

(** [strtoll] on an unsigned decimal numeral reads all its digits. *)
Lemma strtoll_digitString ds rest :
  ds <> [] -> Forall is_digit ds -> stops rest ->
  strtoll (digitString ds ++ rest) = Some (clamp_int64 (digitsValue ds), rest).
Proof.
  intros Hne Hds Hrest. destruct ds as [|d ds]; [congruence|].
  pose proof (read_digits_digitString (d :: ds) 0 rest Hds) as Hrd.
  rewrite (read_digits_stops _ rest Hrest) in Hrd.
  inversion Hds as [|? ? Hd Hds']; subst.
  unfold digitsValue.
  cbn [digitString String.append] in *.
  each_digit Hd.
  all: unfold strtoll.
  all: match goal with
       | |- context [digitChar ?d] =>
           let c := eval vm_compute in (digitChar d) in
           change (digitChar d) with c in *
       end.
  all: cbn [skip_spaces].
  all: match goal with
       | |- context [isspace ?c] =>
           let b := eval vm_compute in (isspace c) in
           change (isspace c) with b
       end.
  all: cbv beta iota.
  all: match goal with
       | |- context [digit_value ?c] =>
           let v := eval vm_compute in (digit_value c) in
           change (digit_value c) with v
       end.
  all: cbv beta iota; rewrite Hrd; reflexivity.
Qed.

Lemma clamp_int64_id z : is_int64 z -> clamp_int64 z = z.
Proof. unfold is_int64, clamp_int64, INT64_MIN, INT64_MAX. lia. Qed.

Lemma string_app_empty (s : string) : (s ++ EmptyString)%string = s.
Proof. induction s as [|c s IH]; cbn; [reflexivity | now rewrite IH]. Qed.

Lemma fold_digits_nonneg ds : forall acc,
  Forall is_digit ds -> 0 <= acc -> 0 <= fold_left (fun a d => a * 10 + d) ds acc.
Proof.
  induction ds as [|d ds IH]; intros acc Hds Hacc; cbn; [exact Hacc|].
  inversion Hds as [|? ? Hd Hds']; subst.
  apply IH; [exact Hds'|]. unfold is_digit in Hd. lia.
Qed.

Lemma digitsValue_nonneg ds : Forall is_digit ds -> 0 <= digitsValue ds.
Proof. intros H. apply fold_digits_nonneg; [exact H | lia]. Qed.

(** ["N%"] decodes to [-N]. *)
Lemma decodeUSEMEM_percent ds :
  ds <> [] -> Forall is_digit ds -> digitsValue ds < 2 ^ 63 ->
  decodeUSEMEM (digitString ds ++ "%") = - digitsValue ds.
Proof.
  intros Hne Hds Hmax. unfold decodeUSEMEM.
  rewrite (strtoll_digitString ds "%" Hne Hds) by reflexivity.
  pose proof (digitsValue_nonneg ds Hds) as Hpos.
  rewrite clamp_int64_id by (unfold is_int64; lia).
  apply to_int64_id. unfold is_int64. lia.
Qed.

(** A plain numeral [N] decodes to [N * 1024 * 1024]. *)
Lemma decodeUSEMEM_plain ds :
  ds <> [] -> Forall is_digit ds -> digitsValue ds * 1048576 < 2 ^ 63 ->
  decodeUSEMEM (digitString ds) = digitsValue ds * 1048576.
Proof.
  intros Hne Hds Hmax. unfold decodeUSEMEM.
  rewrite <- (string_app_empty (digitString ds)).
  rewrite (strtoll_digitString ds EmptyString Hne Hds) by exact I.
  pose proof (digitsValue_nonneg ds Hds) as Hpos.
  rewrite clamp_int64_id by (unfold is_int64; lia).
  rewrite (to_int64_id (digitsValue ds * 1024)) by (unfold is_int64; lia).
  rewrite to_int64_id by (unfold is_int64; lia). lia.
Qed.

Lemma double_to_ssize_in_range q :
  is_int64 (Qtrunc q) -> double_to_ssize q = Qtrunc q.
Proof.
  unfold is_int64, double_to_ssize, INT64_MIN, INT64_MAX. intros H.
  destruct (Z.leb_spec (- 2 ^ 63) (Qtrunc q)); [|lia].
  destruct (Z.leb_spec (Qtrunc q) (2 ^ 63 - 1)); [reflexivity|lia].
Qed.

Lemma Qtrunc_ge r A : (0 <= r)%Q -> (inject_Z A <= r)%Q -> A <= Qtrunc r.
Proof.
  destruct r as [n d]. unfold Qle, Qtrunc. cbn. intros Hn HA.
  rewrite Z.quot_div_nonneg by lia. apply Z.div_le_lower_bound; lia.
Qed.

Lemma Qtrunc_lt r B : (0 <= r)%Q -> (r < inject_Z B)%Q -> Qtrunc r < B.
Proof.
  destruct r as [n d]. unfold Qle, Qlt, Qtrunc. cbn. intros Hn HB.
  rewrite Z.quot_div_nonneg by lia. apply Z.div_lt_upper_bound; lia.
Qed.

(** Comparisons of rationals built from integers, as integer
    comparisons. *)
Ltac q2z := unfold Qle, Qlt, Qeq, Qmult, Qplus, inject_Z; cbn [Qnum Qden]; lia.

(** The default: nine tenths of the free memory, rounded down.  Up to
    [2^48] bytes the two roundings of the [double] product do not reach
    the next integer. *)
Lemma useBytes_default_value avail :
  0 <= avail < 2 ^ 48 -> useBytes_default avail = avail * 9 / 10.
Proof.
  intros Ha. unfold useBytes_default, to_double.
  destruct (Z.eq_dec avail 0) as [->|H0]; [vm_compute; reflexivity|].
  destruct (Z.eq_dec avail 1) as [->|H1]; [vm_compute; reflexivity|].
  set (K := avail * 9 / 10).
  assert (HK : 10 * K <= 9 * avail < 10 * K + 10).
  { unfold K. pose proof (Z.div_mod (avail * 9) 10 ltac:(lia)).
    pose proof (Z.mod_pos_bound (avail * 9) 10 ltac:(lia)). lia. }
  assert (HK1 : 1 <= K) by lia.
  pose proof (rnd_int 53 avail ltac:(lia) ltac:(lia)) as Hx.
  set (xd := rnd 53 (inject_Z avail)) in *.
  let c := eval vm_compute in (rnd 53 USEMEM) in change (rnd 53 USEMEM) with c.
  set (c := 8106479329266893 # 9007199254740992).
  assert (HKq : (inject_Z K * 10 <= inject_Z avail * 9)%Q).
  { q2z. }
  assert (HKq2 : (inject_Z avail * 9 <= inject_Z K * 10 + 9)%Q) by q2z.
  assert (Hxq : (inject_Z avail <= 281474976710656)%Q) by q2z.
  assert (Hx0 : (2 <= inject_Z avail)%Q) by q2z.
  assert (Hlo : (inject_Z K <= xd * c)%Q) by (unfold c; lra).
  assert (Hy : (dyadic (32 * K + 29) 5 == inject_Z K + (29 # 32))%Q).
  { unfold dyadic, Qeq, Qplus, inject_Z. cbn. lia. }
  assert (Hhi : (xd * c <= dyadic (32 * K + 29) 5)%Q) by (rewrite Hy; unfold c; lra).
  assert (Hpos : (0 < xd * c)%Q) by (unfold c; lra).
  pose proof (rnd_ge_int 53 (xd * c) K ltac:(lia) ltac:(lia) Hlo) as Hr1.
  pose proof (rnd_le 53 (xd * c) (32 * K + 29) 5 ltac:(lia) ltac:(lia) ltac:(lia) Hpos Hhi) as Hr2.
  rewrite Hy in Hr2.
  set (r := rnd 53 (xd * c)) in *.
  assert (Hk0 : (1 <= inject_Z K)%Q) by q2z.
  assert (Hr0 : (0 <= r)%Q) by lra.
  assert (E : Qtrunc r = K).
  { pose proof (Qtrunc_ge r K Hr0 Hr1).
    assert (Qtrunc r < K + 1); [|lia].
    apply Qtrunc_lt; [exact Hr0|]. rewrite inject_Z_plus. change (inject_Z 1) with 1%Q. lra. }
  rewrite double_to_ssize_in_range; rewrite E; [reflexivity|].
  unfold is_int64. lia.
Qed.

Lemma rnd_zero_l prec q : rnd prec (rnd prec (inject_Z 0) * q) = 0%Q.
Proof. reflexivity. Qed.

(** A percentage: the quotient [N / 100.0] and the product are rounded,
    each by at most one unit in the last place, which leaves the result
    within one byte of [avail * N / 100]. *)
Lemma useBytes_percent_bounds avail N :
  0 <= avail < 2 ^ 53 -> 0 < N < 2 ^ 53 -> avail * N < 100 * 2 ^ 50 ->
  avail * N / 100 - 1 <= useBytes_percent avail (- N) <= avail * N / 100 + 1.
Proof.
  intros Ha HN Hfit. unfold useBytes_percent, to_double.
  rewrite Z.opp_involutive, (to_int64_id N) by (unfold is_int64; lia).
  destruct (Z.eq_dec avail 0) as [->|H0].
  { rewrite rnd_zero_l. vm_compute. split; discriminate. }
  set (F := avail * N / 100).
  assert (HF : 100 * F <= avail * N < 100 * F + 100).
  { unfold F. pose proof (Z.div_mod (avail * N) 100 ltac:(lia)).
    pose proof (Z.mod_pos_bound (avail * N) 100 ltac:(lia)). lia. }
  assert (HF0 : 0 <= F) by nia.
  pose proof (rnd_int 53 avail ltac:(lia) ltac:(lia)) as Hx.
  pose proof (rnd_int 53 N ltac:(lia) ltac:(lia)) as Hn.
  set (xd := rnd 53 (inject_Z avail)) in *.
  set (nd := rnd 53 (inject_Z N)) in *.
  set (xq := inject_Z avail) in *. set (nq := inject_Z N) in *.
  assert (Hxq : (1 <= xq)%Q) by (unfold xq; q2z).
  assert (Hnq : (1 <= nq)%Q) by (unfold nq; q2z).
  set (u := dyadic 1 (53 - 1)).
  assert (Hu : (u == 1 # 4503599627370496)%Q) by reflexivity.
  assert (Hq1 : (nd / inject_Z 100 == nq * (1 # 100))%Q).
  { rewrite Hn. unfold Qdiv. reflexivity. }
  assert (Hq1pos : (0 < nd / inject_Z 100)%Q) by (rewrite Hq1; lra).
  destruct (rnd_err 53 (nd / inject_Z 100) ltac:(lia) Hq1pos) as [Hc1 Hc2].
  fold u in Hc1, Hc2.
  set (c := rnd 53 (nd / inject_Z 100)) in *.
  rewrite Hq1 in Hc1, Hc2.
  assert (Hcpos : (0 < c)%Q) by (rewrite Hu in Hc1; lra).
  assert (Hppos : (0 < xd * c)%Q).
  { rewrite Hx. apply Qmult_lt_0_compat; lra. }
  destruct (rnd_err 53 (xd * c) ltac:(lia) Hppos) as [Hr1 Hr2].
  fold u in Hr1, Hr2.
  set (r := rnd 53 (xd * c)) in *.
  rewrite Hx in Hr1, Hr2.
  set (T := (xq * nq * (1 # 100))%Q).
  assert (HT : (T < 1125899906842624)%Q).
  { unfold T, xq, nq. q2z. }
  assert (HTF : (inject_Z F <= T /\ T < inject_Z F + 1)%Q).
  { unfold T, xq, nq. split; q2z. }
  destruct HTF as [HTF1 HTF2].
  assert (Hp1 : (T * (1 - u) <= xq * c)%Q).
  { unfold T. setoid_replace (xq * nq * (1 # 100) * (1 - u))%Q
      with (xq * (nq * (1 # 100) * (1 - u)))%Q using relation Qeq by ring.
    apply Qmult_le_l; lra. }
  assert (Hp2 : (xq * c <= T * (1 + u))%Q).
  { unfold T. setoid_replace (xq * nq * (1 # 100) * (1 + u))%Q
      with (xq * (nq * (1 # 100) * (1 + u)))%Q using relation Qeq by ring.
    apply Qmult_le_l; lra. }
  assert (Hlo : (T * (1 - u) * (1 - u) <= r)%Q).
  { eapply Qle_trans; [|exact Hr1]. apply Qmult_le_compat_r; [exact Hp1 | rewrite Hu; lra]. }
  assert (Hhi : (r <= T * (1 + u) * (1 + u))%Q).
  { eapply Qle_trans; [exact Hr2|]. apply Qmult_le_compat_r; [exact Hp2 | rewrite Hu; lra]. }
  assert (HT0 : (0 < T)%Q) by (unfold T; apply Qmult_lt_0_compat; [apply Qmult_lt_0_compat|]; lra).
  assert (Hrlo : (T - 1 < r)%Q).
  { eapply Qlt_le_trans; [|exact Hlo]. rewrite Hu.
    setoid_replace (T * (1 - (1 # 4503599627370496)) * (1 - (1 # 4503599627370496)))%Q
      with (T - T * ((2 # 4503599627370496) - (1 # 4503599627370496) * (1 # 4503599627370496)))%Q
      using relation Qeq by ring. lra. }
  assert (Hrhi : (r < T + 1)%Q).
  { eapply Qle_lt_trans; [exact Hhi|]. rewrite Hu.
    setoid_replace (T * (1 + (1 # 4503599627370496)) * (1 + (1 # 4503599627370496)))%Q
      with (T + T * ((2 # 4503599627370496) + (1 # 4503599627370496) * (1 # 4503599627370496)))%Q
      using relation Qeq by ring. lra. }
  assert (Hr0 : (0 <= r)%Q).
  { eapply Qle_trans; [|exact Hlo]. rewrite Hu.
    apply Qmult_le_0_compat; [apply Qmult_le_0_compat|]; lra. }
  assert (B1 : F - 1 <= Qtrunc r).
  { destruct (Z.eq_dec F 0) as [E|E].
    - rewrite E. pose proof (Qtrunc_ge r 0 Hr0 Hr0). lia.
    - apply Qtrunc_ge; [exact Hr0|].
      assert (Hc : (inject_Z (F - 1) == inject_Z F - 1)%Q)
        by (unfold Qeq, Qminus, Qplus, Qopp, inject_Z; cbn; lia).
      rewrite Hc. lra. }
  assert (B2 : Qtrunc r < F + 2).
  { apply Qtrunc_lt; [exact Hr0|]. rewrite inject_Z_plus. change (inject_Z 2) with 2%Q. lra. }
  rewrite double_to_ssize_in_range; [lia|].
  unfold is_int64. assert (F < 2 ^ 50) by (unfold F; apply Z.div_lt_upper_bound; lia). lia.
Qed.

(** 29% of 25 GiB free: the quotient [29 / 100.0] lies below 0.29, and
    the product, which would be the integer 7784628224, comes out one
    byte short. *)
Lemma percent_of_25GiB :
  useBytes_percent (25 * 2 ^ 30) (- 29) = 7784628223
  /\ 25 * 2 ^ 30 * 29 / 100 = 7784628224.
Proof. split; vm_compute; reflexivity. Qed.

(** C9, as stated, fails: the argument ["100"] of [-m] does not select
    100 bytes; it selects 100 * 1024 * 1024 bytes. *)
Lemma plain_number_is_not_a_byte_count :
  main_useBytes (Some "100"%string) = Some 104857600
  /\ usableBytes driver8G 104857600 = Ret 104857600
  /\ 104857600 <> 100.
Proof. repeat split; vm_compute; congruence. Qed.

(** C9 (amended): with no [-m] option the worker uses nine tenths of the
    free device memory, rounded down; an argument ["N%"] with [N >= 1]
    selects [N] hundredths of the free device memory to within one byte
    (the quotient and the product are formed in [double] arithmetic); a
    plain numeral [N >= 1] selects [N] mebibytes, that is
    [N * 1024 * 1024] bytes.  The free memory is below [2^48] bytes and
    the selected amount within the range of [ssize_t]. *)
Theorem memory_selection (drv : Driver) (ds : list Z) :
  queries_ok drv ->
  0 <= freeMem drv < 2 ^ 48 ->
  ds <> [] -> Forall is_digit ds ->
  0 < digitsValue ds ->
  let N := digitsValue ds in
  let avail := freeMem drv in
  (main_useBytes None = Some 0
   /\ usableBytes drv 0 = Ret (avail * 9 / 10))
  /\ (N < 2 ^ 53 -> avail * N < 100 * 2 ^ 50 ->
      main_useBytes (Some (digitString ds ++ "%")%string) = Some (- N)
      /\ exists bytes,
           usableBytes drv (- N) = Ret bytes
           /\ avail * N / 100 - 1 <= bytes <= avail * N / 100 + 1)
  /\ (N * 1048576 < 2 ^ 63 ->
      main_useBytes (Some (digitString ds)) = Some (N * 1048576)
      /\ usableBytes drv (N * 1048576) = Ret (N * 1048576)).
Proof.
  intros Hq Ha Hne Hds Hpos N avail. subst N avail.
  rewrite !(usableBytes_ok drv _ Hq). split; [split | split].
  - reflexivity.
  - f_equal. unfold usableOf. cbn [Z.eqb].
    rewrite (useBytes_default_value _ Ha).
    destruct (Z.ltb_spec (freeMem drv * 9 / 10) 0) as [Hneg|_]; [|reflexivity].
    assert (0 <= freeMem drv * 9 / 10) by (apply Z.div_pos; lia). lia.
  - intros HN Hfit. split.
    + unfold main_useBytes. rewrite (decodeUSEMEM_percent ds Hne Hds) by lia.
      destruct (Z.eqb_spec (- digitsValue ds) 0); [lia | reflexivity].
    + eexists. split; [reflexivity|]. unfold usableOf.
      destruct (Z.eqb_spec (- digitsValue ds) 0); [lia|].
      destruct (Z.ltb_spec (- digitsValue ds) 0); [|lia].
      apply useBytes_percent_bounds; lia.
  - intros H. split.
    + unfold main_useBytes. rewrite (decodeUSEMEM_plain ds Hne Hds H).
      destruct (Z.eqb_spec (digitsValue ds * 1048576) 0); [lia | reflexivity].
    + f_equal. unfold usableOf.
      destruct (Z.eqb_spec (digitsValue ds * 1048576) 0); [lia|].
      destruct (Z.ltb_spec (digitsValue ds * 1048576) 0); [lia | reflexivity].
Qed.

Lemma memory_selection_witness :
  queries_ok driver25G
  /\ usableBytes driver25G 0 = Ret (freeMem driver25G * 9 / 10)
  /\ main_useBytes (Some "29%"%string) = Some (- 29)
  /\ (exists bytes,
        usableBytes driver25G (- 29) = Ret bytes
        /\ freeMem driver25G * 29 / 100 - 1 <= bytes <= freeMem driver25G * 29 / 100 + 1)
  /\ usableBytes driver25G (- 29) = Ret (freeMem driver25G * 29 / 100 - 1)
  /\ main_useBytes (Some "29"%string) = Some (29 * 1048576).
Proof.
  assert (Hq : queries_ok driver25G) by (split; reflexivity).
  assert (Ha : 0 <= freeMem driver25G < 2 ^ 48) by (vm_compute; split; congruence).
  assert (Hds : Forall is_digit [2; 9]).
  { repeat constructor; unfold is_digit; lia. }
  destruct (memory_selection driver25G [2; 9] Hq Ha ltac:(discriminate) Hds
              ltac:(reflexivity)) as ((_ & Hdef) & Hpct & Hplain).
  split; [exact Hq|]. split; [exact Hdef|].
  destruct Hpct as [H1 H2]; [reflexivity | reflexivity |].
  destruct Hplain as [H3 _]; [reflexivity|].
  split; [exact H1|]. split; [exact H2|]. split; [|exact H3].
  vm_compute. reflexivity.
Defined.

(** ** The cancellation flag *)

Lemma constructor_sets_running drv dev doubles tensors kernelFile host0 g t :
  fst (GPU_Test_new drv dev doubles tensors kernelFile host0 g) = Ret t ->
  snd (GPU_Test_new drv dev doubles tensors kernelFile host0 g) = true.
Proof.
  unfold GPU_Test_new.
  destruct (checkError (cuDeviceGet_ok drv) EmptyString;; _) as [u|e]; cbn;
    [reflexivity | discriminate].
Qed.

Lemma monitor_cancel_clears g : step g MonitorCancels = false.
Proof. reflexivity. Qed.

(** The only step that can turn the flag on is a constructor that runs to
    its end. *)
Lemma only_constructor_sets_running g s :
  g = false -> step g s = true ->
  exists drv dev doubles tensors kernelFile host0 t,
    s = WorkerConstructs drv dev doubles tensors kernelFile host0
    /\ fst (GPU_Test_new drv dev doubles tensors kernelFile host0 g) = Ret t.
Proof.
  intros -> Hs. destruct s as [drv dev doubles tensors kernelFile host0| |signum];
    cbn in Hs; try discriminate.
  exists drv, dev, doubles, tensors, kernelFile, host0.
  revert Hs. unfold GPU_Test_new.
  destruct (checkError (cuDeviceGet_ok drv) EmptyString;; _) as [u|e]; cbn.
  - intros _. eexists. split; reflexivity.
  - discriminate.
Qed.

(** C3: the flag is not monotonic.  After the monitor has set
    [g_running = false], the constructor of a worker that completes later
    executes [g_running = true], and [shouldRun] answers [true] again: the
    claim says that no later step returns the flag to the running
    state. *)
Theorem cancellation_undone_by_late_constructor :
  interleaving (take 2 lateConstructor) g_running_init = false
  /\ shouldRun (interleaving lateConstructor g_running_init) = true.
Proof. split; reflexivity. Qed.

(** ** The monitor: vectors and loops *)

Lemma vec_at_lt {A} (v : list A) i :
  (i < length v)%nat -> exists x, vec_at v i = Some x.
Proof. intros H. apply lookup_lt_is_Some_2 in H. destruct H as [x Hx]. eauto. Qed.

Lemma vec_set_lt {A} (v : list A) i x :
  (i < length v)%nat -> vec_set v i x = Some (<[i := x]> v).
Proof.
  intros H. unfold vec_set. apply lookup_lt_is_Some_2 in H.
  destruct H as [y Hy]. now rewrite Hy.
Qed.

Lemma vec_set_Some {A} (v v' : list A) i x :
  vec_set v i x = Some v' -> v' = <[i := x]> v /\ (i < length v)%nat.
Proof.
  unfold vec_set. destruct (v !! i) as [y|] eqn:E; cbn; [|discriminate].
  intros [= <-]. split; [reflexivity|]. eapply lookup_lt_Some; eauto.
Qed.

(** An invariant of the body is an invariant of the loop. *)
Lemma for_loop_inv {S} (P : S -> Prop) (body : nat -> S -> option S) :
  (forall j s s', P s -> body j s = Some s' -> P s') ->
  forall count i s s', P s -> for_loop body i count s = Some s' -> P s'.
Proof.
  intros Hbody. induction count as [|count IH]; intros i s s' Hs; cbn.
  - now intros [= <-].
  - destruct (body i s) as [s1|] eqn:E; cbn; [|discriminate].
    intros Hloop. eapply IH; [|exact Hloop]. eapply Hbody; eauto.
Qed.

(** A body that cannot fail under an invariant makes the loop total. *)
Lemma for_loop_total {S} (P : S -> Prop) (body : nat -> S -> option S) (bound : nat) :
  (forall j s, (j < bound)%nat -> P s -> exists s', body j s = Some s' /\ P s') ->
  forall count i s, (i + count <= bound)%nat -> P s ->
    exists s', for_loop body i count s = Some s' /\ P s'.
Proof.
  intros Hbody. induction count as [|count IH]; intros i s Hle Hs; cbn.
  - eauto.
  - destruct (Hbody i s) as (s1 & E & Hs1); [lia | exact Hs |].
    rewrite E. cbn. apply IH; [lia | exact Hs1].
Qed.

(** ** The monitor: one report *)

Lemma wf_init n spawnClock : wf n (monitor_init n spawnClock).
Proof.
  constructor; cbn; rewrite ?length_replicate, ?length_fmap, ?length_seq; reflexivity.
Qed.

Lemma applyReport_spec n i t p e m :
  wf n m -> (i < n)%nat ->
  exists e0 c0 t0 f0,
    clientErrors m !! i = Some e0 /\ clientCalcs m !! i = Some c0
    /\ clientUpdateTime m !! i = Some t0 /\ clientFirstUpdate m !! i = Some f0
    /\ applyReport i t p e m = Some (applied i t p e e0 c0 t0 f0 m).
Proof.
  intros [Htemp Herr Hcalc Htime Hgf Hfa Hfi] Hi.
  destruct (vec_at_lt (clientErrors m) i) as [e0 He0]; [lia|].
  destruct (vec_at_lt (clientCalcs m) i) as [c0 Hc0]; [lia|].
  destruct (vec_at_lt (clientUpdateTime m) i) as [t0 Ht0]; [lia|].
  destruct (vec_at_lt (clientFirstUpdate m) i) as [f0 Hf0]; [lia|].
  exists e0, c0, t0, f0. repeat split; try assumption.
  unfold applyReport, applied. rewrite He0. cbn.
  rewrite (vec_set_lt (clientErrors m)) by lia. cbn.
  destruct (p =? -1).
  - rewrite (vec_set_lt (clientCalcs m)) by lia. reflexivity.
  - rewrite Ht0. cbn. rewrite (vec_set_lt (clientUpdateTime m)) by lia. cbn.
    destruct (0 <? tickDelta t t0); cbn.
    + rewrite Hf0. cbn. destruct f0; cbn.
      * rewrite (vec_set_lt (clientGflops m)) by lia. cbn.
        rewrite (vec_set_lt (clientFirstUpdate m)) by lia. cbn.
        rewrite Hc0. cbn. rewrite (vec_set_lt (clientCalcs m)) by lia. reflexivity.
      * rewrite (vec_set_lt (clientGflops m)) by lia. cbn.
        rewrite Hc0. cbn. rewrite (vec_set_lt (clientCalcs m)) by lia. reflexivity.
    + rewrite (vec_set_lt (clientGflops m)) by lia. cbn.
      rewrite (vec_set_lt (clientFirstUpdate m)) by lia. cbn.
      rewrite Hc0. cbn. rewrite (vec_set_lt (clientCalcs m)) by lia. reflexivity.
Qed.

Lemma applied_wf n i t p e e0 c0 t0 f0 m :
  wf n m -> wf n (applied i t p e e0 c0 t0 f0 m).
Proof.
  intros [Htemp Herr Hcalc Htime Hgf Hfa Hfi]. unfold applied.
  destruct (p =? -1); [|destruct ((0 <? tickDelta t t0) && negb f0)];
    constructor; cbn; rewrite ?length_insert; assumption.
Qed.

Lemma applied_errors i t p e e0 c0 t0 f0 m :
  clientErrors (applied i t p e e0 c0 t0 f0 m)
  = <[i := to_int32 (e0 + e)]> (clientErrors m).
Proof.
  unfold applied.
  destruct (p =? -1); [|destruct ((0 <? tickDelta t t0) && negb f0)]; reflexivity.
Qed.

Lemma applied_calcs i t p e e0 c0 t0 f0 m :
  clientCalcs (applied i t p e e0 c0 t0 f0 m)
  = <[i := if p =? -1 then -1 else to_int32 (c0 + p)]> (clientCalcs m).
Proof.
  unfold applied.
  destruct (p =? -1); [|destruct ((0 <? tickDelta t t0) && negb f0)]; reflexivity.
Qed.

Lemma applied_faulty i t p e e0 c0 t0 f0 m :
  clientFaulty (applied i t p e e0 c0 t0 f0 m) = clientFaulty m.
Proof.
  unfold applied.
  destruct (p =? -1); [|destruct ((0 <? tickDelta t t0) && negb f0)]; reflexivity.
Qed.

Lemma applied_childReport i t p e e0 c0 t0 f0 m :
  childReport (applied i t p e e0 c0 t0 f0 m) = true.
Proof. reflexivity. Qed.

Lemma applied_updateTime i t p e e0 c0 t0 f0 m :
  clientUpdateTime (applied i t p e e0 c0 t0 f0 m)
  = if p =? -1 then clientUpdateTime m else <[i := t]> (clientUpdateTime m).
Proof.
  unfold applied.
  destruct (p =? -1); [|destruct ((0 <? tickDelta t t0) && negb f0)]; reflexivity.
Qed.

Lemma applied_gflops i t p e e0 c0 t0 f0 m :
  clientGflops (applied i t p e e0 c0 t0 f0 m)
  = if p =? -1 then clientGflops m
    else <[i := if (0 <? tickDelta t t0) && negb f0
                then gflopsOf p (tickDelta t t0) else 0%Q]> (clientGflops m).
Proof.
  unfold applied.
  destruct (p =? -1); [|destruct ((0 <? tickDelta t t0) && negb f0)]; reflexivity.
Qed.

(** The iteration counts of non-sentinel reports add up, in [int]
    arithmetic, on top of what the client's counter holds. *)
Lemma applyReports_sums n i rs : forall m c,
  wf n m -> (i < n)%nat ->
  Forall (fun r => isSentinel r = false) rs ->
  clientCalcs m !! i = Some c -> is_int32 c ->
  exists m', applyReports i rs m = Some m' /\ wf n m'
    /\ clientCalcs m' !! i = Some (to_int32 (c + sumProcessed rs)).
Proof.
  induction rs as [|r rs IH]; intros m c Hwf Hi Hrs Hc Hcr.
  - exists m. cbn. rewrite !Z.add_0_r, !to_int32_id by assumption. auto.
  - inversion Hrs as [|? ? Hr Hrs']; subst.
    destruct (applyReport_spec n i (observedAt r) (processed r) (errors r) m Hwf Hi)
      as (e0 & c0 & t0 & f0 & _ & Hc0 & _ & _ & Happ).
    rewrite Hc in Hc0. injection Hc0 as <-.
    cbn [applyReports]. rewrite Happ. cbn.
    set (m1 := applied i (observedAt r) (processed r) (errors r) e0 c t0 f0 m).
    assert (Hwf1 : wf n m1) by (apply applied_wf; exact Hwf).
    unfold isSentinel in Hr.
    destruct (IH m1 (to_int32 (c + processed r)) Hwf1 Hi Hrs')
      as (m' & Hm' & Hwf' & Hcalc).
    + unfold m1. rewrite applied_calcs, Hr.
      apply list_lookup_insert_eq. destruct Hwf. lia.
    + apply to_int32_range.
    + exists m'. split; [exact Hm'|]. split; [exact Hwf'|].
      rewrite Hcalc, to_int32_add_l. f_equal. f_equal.
      symmetry. apply Z.add_assoc.
Qed.

(** C1, as stated, fails: after a report of 100 iterations the sentinel
    pair overwrites the cumulative iteration count with the dead marker
    (it is [-1], not the sum 100 of the non-sentinel reports) and its
    [-1] is added to the error counter (which becomes [-1], not [0]). *)
Lemma sentinel_alters_counters :
  exists m, applyReports 0 reportThenSentinel oneClient = Some m
    /\ clientCalcs m !! 0%nat = Some (-1)
    /\ clientErrors m !! 0%nat = Some (-1)
    /\ sumProcessed (filter (fun r => isSentinel r = false) reportThenSentinel) = 100
    /\ -1 <> 100 /\ -1 <> 0.
Proof. eexists. repeat split; try (vm_compute; congruence). Qed.

(** C1 (amended): applied to a fresh WorkerState, a sequence of
    non-sentinel reports leaves the cumulative iteration count equal to the
    sum of their iteration counts (in 32-bit [int] arithmetic); a sentinel
    marks the worker not alive at once by overwriting its cumulative
    iteration count with the dead marker [-1], its error value is added to
    the error counter of the worker like that of any report, and it leaves
    the update time, the throughput and the counters of all other workers
    untouched. *)
Theorem reports_accumulate (n i : nat) (spawnClock : nat -> Z) (rs : list Report) :
  (i < n)%nat ->
  Forall (fun r => isSentinel r = false) rs ->
  (exists m, applyReports i rs (monitor_init n spawnClock) = Some m
     /\ clientCalcs m !! i = Some (to_int32 (sumProcessed rs)))
  /\ (forall m t e, wf n m ->
       exists m', applyReport i t (-1) e m = Some m'
         /\ clientCalcs m' !! i = Some (-1)
         /\ ~ alive m' i
         /\ (forall e0, clientErrors m !! i = Some e0 ->
              clientErrors m' !! i = Some (to_int32 (e0 + e)))
         /\ clientUpdateTime m' = clientUpdateTime m
         /\ clientGflops m' = clientGflops m
         /\ (forall j, j <> i ->
              clientCalcs m' !! j = clientCalcs m !! j
              /\ clientErrors m' !! j = clientErrors m !! j)).
Proof.
  intros Hi Hrs. split.
  - destruct (applyReports_sums n i rs (monitor_init n spawnClock) 0
                (wf_init n spawnClock) Hi Hrs)
      as (m & Hm & _ & Hc).
    + cbn. now apply lookup_replicate_2.
    + unfold is_int32. lia.
    + exists m. rewrite Z.add_0_l in Hc. auto.
  - intros m t e Hwf.
    destruct (applyReport_spec n i t (-1) e m Hwf Hi)
      as (e0 & c0 & t0 & f0 & He0 & _ & _ & _ & Happ).
    eexists. split; [exact Happ|].
    assert (Hdead : clientCalcs (applied i t (-1) e e0 c0 t0 f0 m) !! i = Some (-1)).
    { rewrite applied_calcs. cbn. apply list_lookup_insert_eq. destruct Hwf. lia. }
    split; [exact Hdead|]. split.
    { intros (c & Hc & Hne). rewrite Hdead in Hc. injection Hc as <-. lia. }
    split.
    { intros e1 He1. rewrite He0 in He1. injection He1 as <-.
      rewrite applied_errors. apply list_lookup_insert_eq. destruct Hwf. lia. }
    rewrite applied_updateTime, applied_gflops, applied_calcs, applied_errors. cbn.
    repeat split; try reflexivity.
    + apply list_lookup_insert_ne. congruence.
    + apply list_lookup_insert_ne. congruence.
Qed.

Lemma reports_accumulate_witness :
  (0 < 1)%nat
  /\ exists m, applyReports 0 (take 1 reportThenSentinel) oneClient = Some m
       /\ clientCalcs m !! 0%nat = Some (to_int32 (sumProcessed (take 1 reportThenSentinel))).
Proof.
  assert (Hi : (0 < 1)%nat) by lia.
  assert (Hrs : Forall (fun r => isSentinel r = false) (take 1 reportThenSentinel)).
  { repeat constructor. }
  split; [exact Hi|].
  destruct (reports_accumulate 1 0 (fun _ => 1000) (take 1 reportThenSentinel) Hi Hrs)
    as [(m & Hm & Hc) _].
  exists m. split; [exact Hm | exact Hc].
Defined.

(** ** Throughput *)

(** What one non-sentinel report does to the throughput, the update time
    and the first-update flag of its client. *)
Lemma applyReport_throughput n i t p e m t0 f0 :
  wf n m -> (i < n)%nat -> p <> -1 ->
  clientUpdateTime m !! i = Some t0 -> clientFirstUpdate m !! i = Some f0 ->
  exists m', applyReport i t p e m = Some m'
    /\ clientUpdateTime m' !! i = Some t
    /\ clientGflops m' !! i
       = Some (if (0 <? tickDelta t t0) && negb f0
               then gflopsOf p (tickDelta t t0) else 0%Q).
Proof.
  intros Hwf Hi Hp Ht0 Hf0.
  destruct (applyReport_spec n i t p e m Hwf Hi)
    as (e0 & c0 & t0' & f0' & _ & _ & Ht0' & Hf0' & Happ).
  rewrite Ht0 in Ht0'. rewrite Hf0 in Hf0'. injection Ht0' as <-. injection Hf0' as <-.
  eexists. split; [exact Happ|].
  rewrite applied_updateTime, applied_gflops.
  destruct (Z.eqb_spec p (-1)) as [?|_]; [contradiction|].
  destruct Hwf. split; apply list_lookup_insert_eq; lia.
Qed.

(** The first report of a client always leaves its throughput at 0. *)
Lemma first_report_throughput_zero n i t p e spawnClock :
  (i < n)%nat -> p <> -1 ->
  exists m', applyReport i t p e (monitor_init n spawnClock) = Some m'
    /\ clientGflops m' !! i = Some 0%Q.
Proof.
  intros Hi Hp.
  destruct (applyReport_throughput n i t p e (monitor_init n spawnClock)
              (spawnClock i) true (wf_init n spawnClock) Hi Hp)
    as (m' & Hm' & _ & Hg).
  - cbn. rewrite list_lookup_fmap, lookup_seq_lt by lia. reflexivity.
  - cbn. now apply lookup_replicate_2.
  - exists m'. split; [exact Hm'|]. rewrite Hg, andb_false_r. reflexivity.
Qed.

(** C5: the guard [clientTimeDelta > 0.0] cannot see a clock that went
    backwards, because the tick difference is taken in unsigned 64-bit
    arithmetic.  For a second report read one second *before* the first
    ([t - t0 < 0]) the code stores a positive throughput, where the claim
    says it is left at 0. *)
Theorem throughput_after_clock_step_back :
  exists m g,
    applyReports 0 clockStepsBack oneClient = Some m
    /\ clientUpdateTime m !! 0%nat = Some 20000000
    /\ 20000000 - 30000000 < 0
    /\ tickDelta 20000000 30000000 = 2 ^ 64 - 10000000
    /\ clientGflops m !! 0%nat = Some g
    /\ (0 < g)%Q.
Proof.
  eexists. eexists.
  split; [vm_compute; reflexivity|].
  split; [reflexivity|].
  split; [reflexivity|].
  split; [reflexivity|].
  split; [vm_compute; reflexivity|].
  reflexivity.
Qed.

(** ** Rendering *)

(** C4: [childReport] is set by the first report and never cleared, so
    the progress line is printed in every later pass.  Here the second
    pass finds the pipe empty and still renders, where the claim says
    that a pass without a new report emits no progress line. *)
Theorem progress_rendered_without_new_report :
  exists m1 out1 m2 out2,
    pass cfgOne passWithReport oneClient = Next m1 out1
    /\ rendered out1 = true
    /\ (forall i, consumed passWithoutData i = false)
    /\ pass cfgOne passWithoutData m1 = Next m2 out2
    /\ rendered out2 = true.
Proof.
  do 4 eexists.
  split; [vm_compute; reflexivity|].
  split; [reflexivity|].
  split; [intros i; reflexivity|].
  split; [vm_compute; reflexivity|].
  reflexivity.
Qed.

(** ** The liveness check *)

(** An invariant that depends on the loop index. *)
Lemma for_loop_ind {S} (P : nat -> S -> Prop) (body : nat -> S -> option S) :
  forall count i s s',
    (forall j s s', (i <= j < i + count)%nat -> P j s -> body j s = Some s' ->
                    P (Datatypes.S j) s') ->
    P i s -> for_loop body i count s = Some s' -> P (i + count)%nat s'.
Proof.
  induction count as [|count IH]; intros i s s' Hbody Hs; cbn.
  - intros [= <-]. now rewrite Nat.add_0_r.
  - destruct (body i s) as [s1|] eqn:E; cbn; [|discriminate].
    intros Hloop. replace (i + Datatypes.S count)%nat with (Datatypes.S i + count)%nat by lia.
    apply (IH (Datatypes.S i) s1 s'); [| |exact Hloop].
    + intros j t t' Hj. apply Hbody. lia.
    + apply (Hbody i s s1); [lia | exact Hs | exact E].
Qed.

Lemma oneAlive_loop (calcs : list Z) : forall count i acc,
  (i + count = length calcs)%nat ->
  for_loop (fun i alive => c ← vec_at calcs i;
                           Some (if c =? -1 then alive else true))
           i count acc
  = Some (acc || existsb isAlive (drop i calcs)).
Proof.
  induction count as [|count IH]; intros i acc Hlen; cbn.
  - rewrite drop_ge by lia. cbn. now rewrite orb_false_r.
  - destruct (vec_at_lt calcs i) as [c Hc]; [lia|].
    rewrite Hc. cbn. rewrite IH by lia.
    unfold vec_at in Hc. rewrite (drop_S calcs c i Hc). cbn. unfold isAlive at 2.
    destruct (c =? -1); cbn; [reflexivity|]. now rewrite orb_true_r.
Qed.

Lemma oneAlive_spec m : oneAlive m = Some (existsb isAlive (clientCalcs m)).
Proof. unfold oneAlive. now rewrite oneAlive_loop. Qed.

Lemma allDead_no_alive m : allDead m <-> existsb isAlive (clientCalcs m) = false.
Proof.
  unfold allDead. induction (clientCalcs m) as [|c l IH]; cbn.
  - split; [reflexivity | constructor].
  - rewrite orb_false_iff, <- IH. unfold isAlive. split.
    + intros H. inversion H as [|? ? Hc Hl]; subst. split; [reflexivity | exact Hl].
    + intros [Hc Hl]. constructor; [|exact Hl].
      destruct (Z.eqb_spec c (-1)); [assumption | discriminate].
Qed.



(** ** The monitor: one pass *)

(** A pipe with a complete report: the body of the polling loop is
    [applyReport]. *)
Lemma pollClient_consumed n pk j s bytes t p e :
  wf n s -> (j < n)%nat ->
  pk j = Peeked bytes t (ReadInt p) (ReadInt e) -> 8 <= bytes ->
  exists e0 c0 t0 f0,
    clientErrors s !! j = Some e0
    /\ pollClient pk j s = Some (applied j t p e e0 c0 t0 f0 s).
Proof.
  intros Hwf Hj Hpk Hbytes.
  destruct (applyReport_spec n j t p e s Hwf Hj)
    as (e0 & c0 & t0 & f0 & He0 & _ & _ & _ & Happ).
  exists e0, c0, t0, f0. split; [exact He0|].
  unfold pollClient. rewrite Hpk.
  destruct (Z.leb_spec 8 bytes); [exact Happ | lia].
Qed.

(** Any other answer leaves the state alone or stores the dead marker. *)
Lemma pollClient_quiet pk j s s' :
  consumedBy pk j = false -> pollClient pk j s = Some s' ->
  s' = s \/ s' = set_clientCalcs (<[j := -1]> (clientCalcs s)) s.
Proof.
  unfold consumedBy, pollClient.
  destruct (pk j) as [bytes t r1 r2|err].
  - destruct r1 as [p|], r2 as [e|]; intros Hc;
      try (destruct (8 <=? bytes); intros [= <-]; now left).
    rewrite Hc. intros [= <-]. now left.
  - intros _. destruct (err =? ERROR_BROKEN_PIPE); [|intros [= <-]; now left].
    destruct (vec_at (clientCalcs s) j) as [c|]; cbn; [|discriminate].
    destruct (c =? -1); [intros [= <-]; now left|].
    destruct (vec_set (clientCalcs s) j (-1)) as [cc|] eqn:E; cbn; [|discriminate].
    apply vec_set_Some in E. destruct E as [-> _].
    intros [= <-]. now right.
Qed.

Lemma set_dead_wf n j s :
  wf n s -> wf n (set_clientCalcs (<[j := -1]> (clientCalcs s)) s).
Proof.
  intros [? ? ? ? ? ? ?]. constructor; cbn; rewrite ?length_insert; assumption.
Qed.

Lemma consumedBy_true pk j :
  consumedBy pk j = true ->
  exists bytes t p e, pk j = Peeked bytes t (ReadInt p) (ReadInt e) /\ 8 <= bytes.
Proof.
  unfold consumedBy. destruct (pk j) as [bytes t [p|] [e|]|err]; try discriminate.
  intros H. apply Z.leb_le in H. eauto 6.
Qed.

Lemma poll_loop_facts n pk m s :
  wf n m -> for_loop (pollClient pk) 0 n m = Some s ->
  wf n s /\ polled pk m s n.
Proof.
  intros Hwf Hloop.
  apply (for_loop_ind (fun j s => wf n s /\ polled pk m s j)
                      (pollClient pk) n 0 m s); [| |exact Hloop].
  - clear s Hloop. intros j s s' Hj [Hwfs Hp] Hbody.
    destruct (consumedBy pk j) eqn:Hc.
    + destruct (consumedBy_true pk j Hc) as (bytes & t & p & e & Hpk & Hbytes).
      destruct (pollClient_consumed n pk j s bytes t p e Hwfs ltac:(lia) Hpk Hbytes)
        as (e0 & c0 & t0 & f0 & He0 & Happ).
      rewrite Happ in Hbody. injection Hbody as <-.
      split; [now apply applied_wf|]. destruct Hp. constructor.
      * now rewrite applied_faulty.
      * reflexivity.
      * rewrite applied_childReport. discriminate.
      * intros k Hk. rewrite applied_errors, list_lookup_insert_ne by lia.
        apply polled_later0. lia.
      * intros i bytes' t' p' e' e0' Hi Hpki Hb' He0'.
        split; [|reflexivity]. rewrite applied_errors.
        destruct (decide (i = j)) as [->|Hne].
        -- rewrite Hpk in Hpki. injection Hpki as <- <- <- <-.
           rewrite polled_later0 in He0 by lia. rewrite He0' in He0. injection He0 as <-.
           apply list_lookup_insert_eq. destruct Hwfs. lia.
        -- rewrite list_lookup_insert_ne by congruence.
           apply (polled_earlier0 i bytes' t' p' e' e0'); [lia|assumption..].
    + destruct (pollClient_quiet pk j s s' Hc Hbody) as [->| ->].
      * split; [exact Hwfs|]. destruct Hp. constructor; auto.
        -- intros k Hk. apply polled_later0. lia.
        -- intros i bytes t p e e0 Hi Hpki Hb He0.
           destruct (decide (i = j)) as [->|Hne].
           ++ unfold consumedBy in Hc. rewrite Hpki in Hc.
              apply Z.leb_gt in Hc. lia.
           ++ apply (polled_earlier0 i bytes t p e e0); [lia|assumption..].
      * split; [now apply set_dead_wf|]. destruct Hp. constructor; cbn; auto.
        -- intros k Hk. apply polled_later0. lia.
        -- intros i bytes t p e e0 Hi Hpki Hb He0.
           destruct (decide (i = j)) as [->|Hne].
           ++ unfold consumedBy in Hc. rewrite Hpki in Hc.
              apply Z.leb_gt in Hc. lia.
           ++ apply (polled_earlier0 i bytes t p e e0); [lia|assumption..].
  - split; [exact Hwf|]. constructor; auto. intros; lia.
Qed.

Lemma updateTemps_facts n line s s' :
  wf n s -> updateTemps line s = Some s' ->
  wf n s' /\ clientErrors s' = clientErrors s /\ clientFaulty s' = clientFaulty s
  /\ clientCalcs s' = clientCalcs s /\ childReport s' = childReport s
  /\ nextReport s' = nextReport s.
Proof.
  intros Hwf. unfold updateTemps, rotateGpuIter.
  destruct line as [|v| |].
  - intros [= <-]. auto 6.
  - destruct (gpuIter s <? 0); [discriminate|].
    destruct (vec_set (clientTemp s) (Z.to_nat (gpuIter s)) v) as [tv|] eqn:E;
      cbn; [|discriminate].
    apply vec_set_Some in E. destruct E as [-> _]. rewrite length_insert.
    destruct (Z.of_nat (length (clientTemp s)) =? 0); [discriminate|].
    intros [= <-]. cbn. split; [|auto 6].
    destruct Hwf. constructor; cbn; rewrite ?length_insert; assumption.
  - destruct (Z.of_nat (length (clientTemp s)) =? 0); [discriminate|].
    intros [= <-]. cbn. split; [|auto 6].
    destruct Hwf. constructor; cbn; assumption.
  - intros [= <-]. auto 6.
Qed.

(** The marking loop sets the flag of every client whose error counter is
    not zero, clears none, and touches nothing else. *)
Lemma markFaulty_loop n s s' :
  wf n s -> for_loop markFaulty 0 n s = Some s' ->
  wf n s' /\ onlyFaultyChanged s s' /\ flagsKept s s'
  /\ (forall k e, clientErrors s !! k = Some e -> e <> 0 -> faultyAt k s').
Proof.
  intros Hwf Hloop.
  assert (H : wf n s' /\ onlyFaultyChanged s s' /\ flagsKept s s'
              /\ (forall k e, (k < 0 + n)%nat -> clientErrors s !! k = Some e ->
                              e <> 0 -> faultyAt k s')).
  { apply (for_loop_ind
             (fun j s' => wf n s' /\ onlyFaultyChanged s s' /\ flagsKept s s'
                /\ (forall k e, (k < j)%nat -> clientErrors s !! k = Some e ->
                                e <> 0 -> faultyAt k s'))
             markFaulty n 0 s s'); [| |exact Hloop].
    - clear s' Hloop. intros j s1 s2 Hj (Hwf1 & Honly & Hkept & Hdone) Hbody.
      unfold markFaulty in Hbody.
      assert (Herr1 : clientErrors s1 = clientErrors s).
      { rewrite Honly. reflexivity. }
      rewrite Herr1 in Hbody.
      destruct (vec_at (clientErrors s) j) as [e|] eqn:He; cbn in Hbody; [|discriminate].
      destruct (Z.eqb_spec e 0) as [->|Hne].
      + injection Hbody as <-.
        split; [exact Hwf1|]. split; [exact Honly|]. split; [exact Hkept|].
        intros k e Hk Hek Hnz. destruct (decide (k = j)) as [->|Hkj].
        * unfold vec_at in He. rewrite He in Hek. injection Hek as <-. lia.
        * apply (Hdone k e); [lia|assumption..].
      + destruct (vec_set (clientFaulty s1) j true) as [fv|] eqn:E;
          cbn in Hbody; [|discriminate].
        apply vec_set_Some in E. destruct E as [-> Hlt].
        injection Hbody as <-. split; [|split; [|split]].
        * destruct Hwf1. constructor; cbn; rewrite ?length_insert; assumption.
        * unfold onlyFaultyChanged in *. cbn. rewrite Honly at 2. reflexivity.
        * intros k Hk. unfold faultyAt. cbn.
          destruct (decide (k = j)) as [->|Hkj].
          -- now apply list_lookup_insert_eq.
          -- rewrite list_lookup_insert_ne by congruence. now apply Hkept.
        * intros k e' Hk Hek Hnz. unfold faultyAt. cbn.
          destruct (decide (k = j)) as [->|Hkj].
          -- now apply list_lookup_insert_eq.
          -- rewrite list_lookup_insert_ne by congruence.
             apply (Hdone k e'); [lia|assumption..].
    - split; [exact Hwf|]. split; [|split].
      + unfold onlyFaultyChanged. now destruct s.
      + intros k Hk. exact Hk.
      + intros; lia. }
  destruct H as (H1 & H2 & H3 & H4).
  split; [exact H1|]. split; [exact H2|]. split; [exact H3|].
  intros k e Hk Hnz. apply (H4 k e); [|assumption..].
  apply lookup_lt_Some in Hk. destruct Hwf. lia.
Qed.

(** The reset loop changes only the error counters, and keeps [flagged]. *)
Lemma resetErrors_loop n count s s' : forall i,
  wf n s -> flagged s -> for_loop resetErrors i count s = Some s' ->
  wf n s' /\ onlyErrorsChanged s s' /\ flagged s'.
Proof.
  intros i Hwf Hfl Hloop.
  apply (for_loop_inv (fun s' => wf n s' /\ onlyErrorsChanged s s' /\ flagged s')
                      resetErrors) with (count := count) (i := i) (s := s);
    [| |exact Hloop].
  - clear s' Hloop. intros j s1 s2 (Hwf1 & Honly & Hfl1) Hbody.
    unfold resetErrors in Hbody.
    destruct (vec_set (clientErrors s1) j 0) as [ev|] eqn:E; cbn in Hbody; [|discriminate].
    apply vec_set_Some in E. destruct E as [-> Hlt]. injection Hbody as <-.
    split; [|split].
    + destruct Hwf1. constructor; cbn; rewrite ?length_insert; assumption.
    + unfold onlyErrorsChanged in *. cbn. rewrite Honly at 2. reflexivity.
    + intros k e. unfold faultyAt. cbn. intros Hk Hnz.
      destruct (decide (k = j)) as [->|Hkj].
      * rewrite list_lookup_insert_eq in Hk by exact Hlt. injection Hk as <-. lia.
      * rewrite list_lookup_insert_ne in Hk by congruence. now apply (Hfl1 k e).
  - split; [exact Hwf|]. split; [|exact Hfl].
    unfold onlyErrorsChanged. now destruct s.
Qed.

Lemma progressLine_is_progress el s line :
  progressLine el s = Some line -> isProgress line = true.
Proof.
  unfold progressLine.
  destruct (mapM _ (seq 0 (length (clientCalcs s)))); cbn; [|discriminate].
  destruct (mapM _ (seq 0 (length (clientErrors s)))); cbn; [|discriminate].
  destruct (mapM _ (seq 0 (length (clientTemp s)))); cbn; [|discriminate].
  now intros [= <-].
Qed.

(** The block under [if (shouldPrint)]. *)
Lemma report_facts n el s s' out :
  wf n s -> report el s = Some (s', out) ->
  wf n s' /\ flagged s' /\ flagsKept s s'
  /\ (forall k e, clientErrors s !! k = Some e -> e <> 0 -> faultyAt k s')
  /\ clientCalcs s' = clientCalcs s /\ childReport s' = childReport s
  /\ rendered out = true.
Proof.
  intros Hwf. unfold report.
  destruct (progressLine el s) as [line|] eqn:Hline; cbn; [|discriminate].
  apply progressLine_is_progress in Hline.
  replace (length (clientErrors s)) with n by (now destruct Hwf).
  destruct (for_loop markFaulty 0 n s) as [s3|] eqn:Hmark; cbn; [|discriminate].
  destruct (markFaulty_loop n s s3 Hwf Hmark) as (Hwf3 & Honly & Hkept & Hset).
  assert (Herr3 : clientErrors s3 = clientErrors s) by (rewrite Honly; reflexivity).
  assert (Hcalc3 : clientCalcs s3 = clientCalcs s) by (rewrite Honly; reflexivity).
  assert (Hchild3 : childReport s3 = childReport s) by (rewrite Honly; reflexivity).
  assert (Hfl3 : flagged s3).
  { intros k e Hk Hnz. rewrite Herr3 in Hk. now apply (Hset k e). }
  destruct (fl_lt (nextReport s3) el).
  - set (s4 := set_nextReport (fl_add el (inject_Z 10)) s3).
    destruct (for_loop resetErrors 0 (length (clientErrors s3)) s4) as [s5|] eqn:Hreset;
      cbn; [|discriminate].
    intros [= <- <-].
    assert (Hwf4 : wf n s4) by (destruct Hwf3; constructor; assumption).
    assert (Hfl4 : flagged s4) by exact Hfl3.
    destruct (resetErrors_loop n _ s4 s5 0%nat Hwf4 Hfl4 Hreset) as (Hwf5 & Honly5 & Hfl5).
    assert (Hfa5 : clientFaulty s5 = clientFaulty s3) by (rewrite Honly5; reflexivity).
    split; [exact Hwf5|]. split; [exact Hfl5|]. split; [|split; [|split; [|split]]].
    + intros k Hk. unfold faultyAt. rewrite Hfa5. now apply Hkept.
    + intros k e Hk Hnz. unfold faultyAt. rewrite Hfa5. now apply (Hset k e).
    + rewrite Honly5. exact Hcalc3.
    + rewrite Honly5. exact Hchild3.
    + cbn. now rewrite Hline.
  - intros [= <- <-].
    split; [exact Hwf3|]. split; [exact Hfl3|]. split; [exact Hkept|].
    split; [exact Hset|]. split; [exact Hcalc3|]. split; [exact Hchild3|].
    cbn. now rewrite Hline.
Qed.

(** A pass up to the liveness check, from a well-formed state that
    satisfies [flagged]. *)
Lemma pollAndReport_facts cfg inp m m' out :
  wf (length (clientHandles cfg)) m -> flagged m ->
  pollAndReport cfg inp m = Some (m', out) ->
  wf (length (clientHandles cfg)) m' /\ flagged m' /\ flagsKept m m'
  /\ (forall i bytes t p e, (i < length (clientHandles cfg))%nat ->
        peek inp i = Peeked bytes t (ReadInt p) (ReadInt e) -> 8 <= bytes ->
        is_int32 e -> e <> 0 -> faultyAt i m')
  /\ rendered out = childReport m'
  /\ (childReport m = true -> childReport m' = true).
Proof.
  intros Hwf Hfl. unfold pollAndReport.
  set (n := length (clientHandles cfg)) in *.
  destruct (for_loop (pollClient (peek inp)) 0 n m) as [s1|] eqn:Hpoll; cbn; [|discriminate].
  destruct (poll_loop_facts n (peek inp) m s1 Hwf Hpoll) as (Hwf1 & Hp).
  destruct Hp as [Hfa1 Hch1 Hsil1 _ Hearly].
  match goal with
  | |- context [mbind _ ?x] => destruct x as [s2|] eqn:Htemp; cbn; [|discriminate]
  end.
  assert (H2 : wf n s2 /\ clientErrors s2 = clientErrors s1
               /\ clientFaulty s2 = clientFaulty s1
               /\ childReport s2 = childReport s1).
  { destruct (hasTempHandle cfg); [|injection Htemp as <-; auto].
    destruct (tempPeek inp) as [|line]; [injection Htemp as <-; auto|].
    destruct (updateTemps_facts n line s1 s2 Hwf1 Htemp) as (? & ? & ? & _ & ? & _).
    auto. }
  destruct H2 as (Hwf2 & Herr2 & Hfa2 & Hch2).
  destruct (childReport s2) eqn:Hchild.
  - intros Hrep.
    destruct (report_facts n _ s2 m' out Hwf2 Hrep)
      as (Hwf' & Hfl' & Hkept & Hset & _ & Hch' & Hren).
    split; [exact Hwf'|]. split; [exact Hfl'|]. split; [|split; [|split]].
    + intros k Hk. apply Hkept. unfold faultyAt in *. now rewrite Hfa2, Hfa1.
    + intros i bytes t p e Hi Hpk Hb He Hnz.
      destruct (vec_at_lt (clientErrors m) i) as [e0 He0]; [destruct Hwf; lia|].
      destruct (Hearly i bytes t p e e0 Hi Hpk Hb He0) as [Hnew _].
      destruct (Z.eq_dec (to_int32 (e0 + e)) 0) as [Hz|Hnz'].
      * apply Hkept. unfold faultyAt. rewrite Hfa2, Hfa1. apply (Hfl i e0 He0).
        now apply (to_int32_add_zero e0 e).
      * apply (Hset i (to_int32 (e0 + e))); [|exact Hnz']. now rewrite Herr2.
    + now rewrite Hren, Hch', Hchild.
    + intros _. now rewrite Hch', Hchild.
  - intros [= <- <-].
    split; [exact Hwf2|]. split; [|split; [|split; [|split]]].
    + intros k e Hk Hnz. unfold faultyAt. rewrite Hfa2, Hfa1.
      rewrite Herr2, Hsil1 in Hk by congruence. now apply (Hfl k e).
    + intros k Hk. unfold faultyAt in *. now rewrite Hfa2, Hfa1.
    + intros i bytes t p e Hi Hpk Hb He Hnz.
      destruct (vec_at_lt (clientErrors m) i) as [e0 He0]; [destruct Hwf; lia|].
      destruct (Hearly i bytes t p e e0 Hi Hpk Hb He0) as [_ Htrue]. congruence.
    + rewrite Hchild. reflexivity.
    + intros Hm. rewrite Hch1 in Hch2 by exact Hm. congruence.
Qed.

(** ** The monitor: the loop *)

Lemma good_init cfg spawnClock :
  good cfg (monitor_init (length (clientHandles cfg)) spawnClock).
Proof.
  split; [apply wf_init|].
  intros j e. cbn. intros Hj Hnz.
  apply lookup_replicate in Hj. destruct Hj as [-> _]. congruence.
Qed.

Lemma pass_next_facts cfg inp m m' out :
  good cfg m -> pass cfg inp m = Next m' out ->
  good cfg m' /\ flagsKept m m'
  /\ (forall i bytes t p e, (i < length (clientHandles cfg))%nat ->
        peek inp i = Peeked bytes t (ReadInt p) (ReadInt e) -> 8 <= bytes ->
        is_int32 e -> e <> 0 -> faultyAt i m')
  /\ (childReport m = true -> rendered out = true).
Proof.
  intros [Hwf Hfl]. unfold pass.
  destruct (deadlinePassed cfg (thisTime inp)); [discriminate|].
  destruct (pollAndReport cfg inp m) as [[m2 out2]|] eqn:Hpr; [|discriminate].
  destruct (pollAndReport_facts cfg inp m m2 out2 Hwf Hfl Hpr)
    as (Hwf2 & Hfl2 & Hkept & Hcons & Hren & Hmono).
  destruct (oneAlive m2) as [[|]|]; try discriminate.
  intros [= <- <-]. split; [split; assumption|]. split; [exact Hkept|].
  split; [exact Hcons|].
  intros Hm. unfold rendered in *. rewrite existsb_app, Hren, (Hmono Hm). reflexivity.
Qed.

(** Once a report has been read, every later pass that reaches its end
    prints the progress line, whether or not it read a report itself. *)
Lemma once_reported_every_pass_renders cfg inp m m' out :
  good cfg m -> childReport m = true -> pass cfg inp m = Next m' out ->
  rendered out = true.
Proof.
  intros Hgood Hchild Hpass.
  destruct (pass_next_facts cfg inp m m' out Hgood Hpass) as (_ & _ & _ & Hren).
  exact (Hren Hchild).
Qed.

Lemma pollLoop_app cfg inputs1 : forall inputs2 m tr,
  pollLoop cfg (inputs1 ++ inputs2) m tr
  = match pollLoop cfg inputs1 m tr with
    | Polling m' tr' => pollLoop cfg inputs2 m' tr'
    | r => r
    end.
Proof.
  induction inputs1 as [|inp inputs1 IH]; intros inputs2 m tr; cbn; [reflexivity|].
  destruct (pass cfg inp m); try reflexivity. apply IH.
Qed.

Lemma pollLoop_facts cfg inputs : forall m tr m',
  good cfg m -> stateOf (pollLoop cfg inputs m tr) = Some m' ->
  good cfg m' /\ flagsKept m m'.
Proof.
  induction inputs as [|inp inputs IH]; intros m tr m' Hgood; cbn.
  - intros [= <-]. split; [exact Hgood | intros k Hk; exact Hk].
  - destruct (pass cfg inp m) as [m1 out| |code out|] eqn:Hpass; cbn;
      try discriminate.
    + destruct (pass_next_facts cfg inp m m1 out Hgood Hpass) as (Hg1 & Hk1 & _).
      intros Hst. destruct (IH m1 (tr ++ out) m' Hg1 Hst) as [Hg' Hk'].
      split; [exact Hg'|]. intros k Hk. apply Hk', Hk1, Hk.
    + intros [= <-]. split; [exact Hgood | intros k Hk; exact Hk].
Qed.

(** While the deadline has not passed, the loop cannot stop at it. *)
Lemma pollLoop_before_deadline cfg inputs : forall m tr m' tr',
  Forall (fun x => deadlinePassed cfg (thisTime x) = false) inputs ->
  pollLoop cfg inputs m tr <> AtDeadline m' tr'.
Proof.
  induction inputs as [|inp inputs IH]; intros m tr m' tr' Hdl; cbn; [discriminate|].
  inversion Hdl as [|? ? Hinp Hrest]; subst.
  unfold pass. rewrite Hinp.
  destruct (pollAndReport cfg inp m) as [[m2 out2]|]; [|discriminate].
  destruct (oneAlive m2) as [[|]|]; try discriminate.
  apply IH, Hrest.
Qed.

(** ** The faulty flag *)

Lemma listenClients_returned cfg spawnClock inputs exitCodes tr :
  listenClients cfg spawnClock inputs exitCodes = Returned tr ->
  exists m tr1 tr2,
    pollLoop cfg inputs (monitor_init (length (clientHandles cfg)) spawnClock)
             (startTrace cfg) = AtDeadline m tr1
    /\ shutdown cfg exitCodes m = Some tr2 /\ tr = tr1 ++ tr2.
Proof.
  unfold listenClients.
  destruct (pollLoop cfg inputs _ _) as [m tr1|code tr1|tr1|m tr1]; try discriminate.
  destruct (shutdown cfg exitCodes m) as [tr2|] eqn:Hsh; [|discriminate].
  intros [= <-]. exists m, tr1, tr2. auto.
Qed.

(** The final report prints the verdict of every flag it can read. *)
Lemma shutdown_verdict cfg exitCodes m tr i f :
  shutdown cfg exitCodes m = Some tr ->
  (i < length (clientThreads cfg))%nat ->
  clientFaulty m !! i = Some f ->
  In (Verdict i (verdict f)) tr.
Proof.
  unfold shutdown. intros Hsh Hi Hf.
  destruct (mapM _ (seq 0 (length (clientHandles cfg)))) as [closes|];
    cbn in Hsh; [|discriminate].
  destruct (mapM _ (seq 0 (length (clientThreads cfg)))) as [verdicts|] eqn:Hv;
    cbn in Hsh; [|discriminate].
  injection Hsh as <-.
  apply mapM_Some in Hv.
  destruct (Forall2_lookup_l _ _ _ i i Hv) as (y & Hy & Hfy).
  { now apply lookup_seq_lt. }
  unfold vec_at in Hfy. rewrite Hf in Hfy. cbn in Hfy. injection Hfy as <-.
  do 3 apply in_cons. do 3 (apply in_or_app; right). do 2 apply in_cons.
  apply list_elem_of_In, list_elem_of_lookup. eauto.
Qed.

(** C6: once the monitor has read a report with a nonzero error count
    from client [i], the faulty flag of [i] is set in every state the loop
    is in afterwards, whatever the later passes bring (reports without
    errors, resets of the window counter, the death of the client), and
    when [listenClients] returns, its final report says [FAULTY] for
    [i]. *)
Theorem faulty_flag_sticky (cfg : Config) (spawnClock : nat -> Z)
    (inputs1 : list PassInput) (inp : PassInput) (inputs2 : list PassInput)
    (exitCodes : nat -> ThreadQuery) (i : nat) (bytes t p e : Z) :
  length (clientThreads cfg) = length (clientHandles cfg) ->
  (i < length (clientHandles cfg))%nat ->
  Forall (fun x => deadlinePassed cfg (thisTime x) = false) (inputs1 ++ [inp]) ->
  peek inp i = Peeked bytes t (ReadInt p) (ReadInt e) -> 8 <= bytes ->
  is_int32 e -> e <> 0 ->
  let run := pollLoop cfg (inputs1 ++ inp :: inputs2)
               (monitor_init (length (clientHandles cfg)) spawnClock)
               (startTrace cfg) in
  (forall m, stateOf run = Some m -> faultyAt i m)
  /\ (forall tr,
        listenClients cfg spawnClock (inputs1 ++ inp :: inputs2) exitCodes
        = Returned tr ->
        In (Verdict i "FAULTY") tr).
Proof.
  intros Hlen Hi Hdl Hpk Hbytes He Hnz run.
  apply Forall_app in Hdl. destruct Hdl as [Hdl1 Hdl2].
  inversion Hdl2 as [|? ? Hinp _]; subst.
  assert (Hstate : forall m, stateOf run = Some m -> faultyAt i m).
  { intros m. subst run. rewrite pollLoop_app.
    destruct (pollLoop cfg inputs1 _ _) as [m1 tr1|code tr1|tr1|m1 tr1] eqn:H1;
      try discriminate.
    - exfalso. exact (pollLoop_before_deadline cfg inputs1 _ _ m1 tr1 Hdl1 H1).
    - destruct (pollLoop_facts cfg inputs1 _ (startTrace cfg) m1
                  (good_init cfg spawnClock)) as [Hg1 _].
      { rewrite H1. reflexivity. }
      cbn [pollLoop].
      destruct (pass cfg inp m1) as [m2 out| |code out|] eqn:Hpass; try discriminate.
      + destruct (pass_next_facts cfg inp m1 m2 out Hg1 Hpass) as (Hg2 & _ & Hcons & _).
        intros Hst.
        destruct (pollLoop_facts cfg inputs2 m2 (tr1 ++ out) m Hg2 Hst) as [_ Hk].
        apply Hk. apply (Hcons i bytes t p e); assumption.
      + unfold pass in Hpass. rewrite Hinp in Hpass.
        destruct (pollAndReport cfg inp m1) as [[m2 out2]|]; [|discriminate].
        destruct (oneAlive m2) as [[|]|]; discriminate. }
  split; [exact Hstate|].
  intros tr Hret.
  destruct (listenClients_returned _ _ _ _ _ Hret) as (m & tr1 & tr2 & Hloop & Hsh & ->).
  apply in_or_app. right.
  apply (shutdown_verdict cfg exitCodes m tr2 i true Hsh); [lia|].
  apply Hstate. subst run. rewrite Hloop. reflexivity.
Qed.

Lemma faulty_flag_sticky_witness :
  length (clientThreads cfgTwo) = length (clientHandles cfgTwo)
  /\ exists tr,
       listenClients cfgTwo (fun _ => 1000)
         ([] ++ passErrors :: [passClean; passDies; passLate]) exitCodesTwo
       = Returned tr
       /\ In (Verdict 0 "FAULTY") tr.
Proof.
  split; [reflexivity|].
  eexists. split; [vm_compute; reflexivity|].
  refine (proj2 (faulty_flag_sticky cfgTwo (fun _ => 1000) [] passErrors
                   [passClean; passDies; passLate] exitCodesTwo 0
                   8 20000000 100 5 _ _ _ _ _ _ _) _ _).
  - reflexivity.
  - cbn. lia.
  - repeat constructor.
  - reflexivity.
  - lia.
  - unfold is_int32. lia.
  - lia.
  - vm_compute. reflexivity.
Defined.

(** ** Shutdown *)

Lemma mapM_Forall {A B} (f : A -> option B) (Q : B -> Prop) l k :
  mapM f l = Some k -> (forall x y, f x = Some y -> Q y) -> Forall Q k.
Proof.
  intros Hm HQ. apply mapM_Some in Hm.
  induction Hm as [|x y l k Hxy _ IH]; constructor; eauto.
Qed.


Lemma killed_app tr1 tr2 : killed (tr1 ++ tr2) = killed tr1 ++ killed tr2.
Proof. unfold killed. apply flat_map_app. Qed.

Lemma killed_none tr : Forall notKill tr -> killed tr = [].
Proof.
  induction 1 as [|ev tr Hev _ IH]; [reflexivity|].
  unfold killed in *. cbn. rewrite IH. destruct ev; cbn in *; tauto.
Qed.

(** The reaping loop terminates exactly the threads reported active. *)
Lemma reap_events exitCodes l :
  Forall (fun ev => isReclaim ev = true) (flat_map (reapThread exitCodes) l)
  /\ killed (flat_map (reapThread exitCodes) l) = List.filter (stillActive exitCodes) l.
Proof.
  induction l as [|i l [IH1 IH2]]; [split; [constructor | reflexivity]|].
  cbn [flat_map List.filter]. rewrite killed_app, IH2.
  assert (Hi : reapThread exitCodes i
               = if stillActive exitCodes i then [TerminateThread i 1] else []).
  { unfold reapThread, stillActive. now destruct (exitCodes i). }
  rewrite Hi. destruct (stillActive exitCodes i); cbn.
  - split; [constructor; [reflexivity | exact IH1] | reflexivity].
  - split; [exact IH1 | reflexivity].
Qed.

(** From a well-formed state the statements after the loop run to the
    end of [listenClients], and this is what they do. *)
Lemma shutdown_total cfg exitCodes m :
  length (clientThreads cfg) = length (clientHandles cfg) ->
  wf (length (clientHandles cfg)) m ->
  exists rest,
    shutdown cfg exitCodes m = Some (theCancel cfg ++ rest)
    /\ Forall (fun ev => isReclaim ev = true) rest
    /\ killed rest
       = List.filter (stillActive exitCodes) (seq 0 (length (clientThreads cfg)))
    /\ (hasTempHandle cfg = true -> In (TerminateProcess 1) rest)
    /\ In DoneLine rest.
Proof.
  intros Hlen Hwf. unfold shutdown.
  destruct (mapM (fun i => h ← clientHandles cfg !! i;
                           t ← clientThreads cfg !! i;
                           Some [CloseHandle h; CloseHandle t])
                 (seq 0 (length (clientHandles cfg)))) as [closes|] eqn:Hc.
  2:{ exfalso. apply eq_None_not_Some in Hc. apply Hc. apply mapM_is_Some.
      apply Forall_seq. intros j Hj. cbn.
      destruct (lookup_lt_is_Some_2 (clientHandles cfg) j) as [h Hh]; [lia|].
      destruct (lookup_lt_is_Some_2 (clientThreads cfg) j) as [t Ht]; [lia|].
      rewrite Hh. cbn. rewrite Ht. cbn. eauto. }
  destruct (mapM (fun i => f ← vec_at (clientFaulty m) i;
                           Some (Verdict i (verdict f)))
                 (seq 0 (length (clientThreads cfg)))) as [verdicts|] eqn:Hv.
  2:{ exfalso. apply eq_None_not_Some in Hv. apply Hv. apply mapM_is_Some.
      apply Forall_seq. intros j Hj. cbn.
      destruct (vec_at_lt (clientFaulty m) j) as [f Hf]; [destruct Hwf; lia|].
      rewrite Hf. cbn. eauto. }
  cbn.
  assert (Hcl : Forall (fun y => Forall (fun ev => isReclaim ev = true) y
                                 /\ Forall notKill y) closes).
  { apply (mapM_Forall _ _ _ _ Hc). intros x y.
    destruct (clientHandles cfg !! x); cbn; [|discriminate].
    destruct (clientThreads cfg !! x); cbn; [|discriminate].
    intros [= <-]. split; repeat constructor. }
  assert (Hvd : Forall (fun ev => isReclaim ev = true /\ notKill ev) verdicts).
  { apply (mapM_Forall _ _ _ _ Hv). intros x y.
    destruct (vec_at (clientFaulty m) x); cbn; [|discriminate].
    intros [= <-]. split; [reflexivity | exact I]. }
  assert (Hcc : Forall (fun ev => isReclaim ev = true) (concat closes)
                /\ Forall notKill (concat closes)).
  { clear Hc. induction Hcl as [|y closes [Hy1 Hy2] _ [IH1 IH2]]; cbn.
    - split; constructor.
    - split; apply Forall_app; auto. }
  destruct Hcc as [Hcc1 Hcc2].
  destruct (reap_events exitCodes (seq 0 (length (clientThreads cfg)))) as [Hr1 Hr2].
  eexists. split; [reflexivity|]. split; [|split; [|split]].
  - apply Forall_app. split; [exact Hr1|].
    apply Forall_app. split; [destruct (hasTempHandle cfg); repeat constructor|].
    apply Forall_app. split; [exact Hcc1|].
    repeat (constructor; [reflexivity|]).
    eapply Forall_impl; [exact Hvd|]. now intros ev [? _].
  - rewrite !killed_app, Hr2.
    rewrite (killed_none (if hasTempHandle cfg then _ else _))
      by (destruct (hasTempHandle cfg); repeat constructor).
    rewrite (killed_none (concat closes)) by exact Hcc2.
    rewrite (killed_none (_ :: _ :: verdicts)).
    + now rewrite !app_nil_r.
    + repeat (constructor; [exact I|]).
      eapply Forall_impl; [exact Hvd|]. now intros ev [_ ?].
  - intros ->. apply in_or_app. right. left. reflexivity.
  - do 3 (apply in_or_app; right). left. reflexivity.
Qed.

Lemma report_events el s s' out :
  report el s = Some (s', out) -> Forall (fun ev => isLoopEvent ev = true) out.
Proof.
  unfold report.
  destruct (progressLine el s) as [line|] eqn:Hline; cbn; [|discriminate].
  assert (Hl : isLoopEvent line = true).
  { apply progressLine_is_progress in Hline. now destruct line. }
  destruct (for_loop markFaulty 0 _ s) as [s3|]; cbn; [|discriminate].
  destruct (fl_lt (nextReport s3) el).
  - destruct (for_loop resetErrors 0 _ _) as [s5|]; cbn; [|discriminate].
    intros [= _ <-]. repeat constructor. exact Hl.
  - intros [= _ <-]. repeat constructor. exact Hl.
Qed.

Lemma pass_events cfg inp m :
  match pass cfg inp m with
  | Next _ out | Exit _ out => Forall (fun ev => isLoopEvent ev = true) out
  | _ => True
  end.
Proof.
  unfold pass. destruct (deadlinePassed cfg (thisTime inp)); [exact I|].
  destruct (pollAndReport cfg inp m) as [[m2 out]|] eqn:Hpr; [|exact I].
  assert (Hout : Forall (fun ev => isLoopEvent ev = true) out).
  { unfold pollAndReport in Hpr.
    destruct (for_loop _ 0 _ m) as [s1|]; cbn in Hpr; [|discriminate].
    match type of Hpr with
    | context [mbind _ ?x] => destruct x as [s2|]; cbn in Hpr; [|discriminate]
    end.
    destruct (childReport s2).
    - eapply report_events; eauto.
    - injection Hpr as _ <-. constructor. }
  destruct (oneAlive m2) as [[|]|]; try exact I;
    apply Forall_app; split; auto; repeat constructor.
Qed.

Lemma pollLoop_events cfg inputs : forall m tr,
  Forall (fun ev => isLoopEvent ev = true) tr ->
  match pollLoop cfg inputs m tr with
  | AtDeadline _ tr' | Exited _ tr' | Crashed tr' | Polling _ tr' =>
      Forall (fun ev => isLoopEvent ev = true) tr'
  end.
Proof.
  induction inputs as [|inp inputs IH]; intros m tr Htr; cbn; [exact Htr|].
  pose proof (pass_events cfg inp m) as Hp.
  destruct (pass cfg inp m) as [m1 out| |code out|]; try exact Htr.
  - apply IH. apply Forall_app. auto.
  - apply Forall_app. auto.
Qed.

Lemma loop_events_quiet tr :
  Forall (fun ev => isLoopEvent ev = true) tr ->
  graceWaited tr = 0 /\ killed tr = [] /\ forall g, runningAfter g tr = g.
Proof.
  induction 1 as [|ev tr Hev _ (IH1 & IH2 & IH3)]; [repeat split|].
  unfold runningAfter, killed in *. cbn.
  destruct ev; cbn in Hev; try discriminate; auto.
Qed.





(** ** The monitor never fails on its own vectors *)

Lemma pollClient_total n pk j s :
  steady n s -> (j < n)%nat ->
  exists s', pollClient pk j s = Some s' /\ steady n s'.
Proof.
  intros [Hwf Hg] Hj.
  destruct (consumedBy pk j) eqn:Hc.
  - destruct (consumedBy_true pk j Hc) as (bytes & t & p & e & Hpk & Hbytes).
    destruct (pollClient_consumed n pk j s bytes t p e Hwf Hj Hpk Hbytes)
      as (e0 & c0 & t0 & f0 & _ & Happ).
    eexists. split; [exact Happ|]. split; [now apply applied_wf|].
    unfold applied.
    destruct (p =? -1); [|destruct ((0 <? tickDelta t t0) && negb f0)]; exact Hg.
  - unfold pollClient. unfold consumedBy in Hc.
    destruct (pk j) as [bytes t r1 r2|err].
    + destruct (8 <=? bytes); [|exists s; split; [reflexivity | split; assumption]].
      destruct r1 as [p|]; [|exists s; split; [reflexivity | split; assumption]].
      destruct r2 as [e|]; [discriminate|].
      exists s; split; [reflexivity | split; assumption].
    + destruct (err =? ERROR_BROKEN_PIPE);
        [|exists s; split; [reflexivity | split; assumption]].
      destruct (vec_at_lt (clientCalcs s) j) as [c Hcj]; [destruct Hwf; lia|].
      rewrite Hcj. cbn.
      destruct (c =? -1); [exists s; split; [reflexivity | split; assumption]|].
      rewrite vec_set_lt by (destruct Hwf; lia). cbn.
      eexists. split; [reflexivity|]. split; [now apply set_dead_wf | exact Hg].
Qed.

Lemma updateTemps_total n line s :
  steady n s -> Z.of_nat n < 2 ^ 31 ->
  exists s', updateTemps line s = Some s' /\ steady n s'.
Proof.
  intros [Hwf Hg] Hn.
  assert (Hrot : forall s1, wf n s1 -> 0 <= gpuIter s1 < Z.of_nat n ->
                   exists s', rotateGpuIter s1 = Some s' /\ steady n s').
  { intros s1 Hwf1 Hg1. unfold rotateGpuIter.
    replace (length (clientTemp s1)) with n by (now destruct Hwf1).
    destruct (Z.eqb_spec (Z.of_nat n) 0) as [E|E]; [lia|].
    eexists. split; [reflexivity|]. split.
    - destruct Hwf1. constructor; assumption.
    - cbn. pose proof (Z.mod_pos_bound (gpuIter s1 + 1) (Z.of_nat n) ltac:(lia)).
      rewrite to_int32_id; [lia|]. unfold is_int32. lia. }
  destruct line as [|v| |]; cbn.
  - exists s. split; [reflexivity | split; assumption].
  - destruct (Z.ltb_spec (gpuIter s) 0); [lia|].
    rewrite vec_set_lt by (destruct Hwf; lia). cbn.
    apply Hrot; [|exact Hg].
    destruct Hwf. constructor; cbn; rewrite ?length_insert; assumption.
  - apply Hrot; assumption.
  - exists s. split; [reflexivity | split; assumption].
Qed.

Lemma progressLine_total n el s : wf n s -> is_Some (progressLine el s).
Proof.
  intros Hwf. unfold progressLine.
  destruct (mapM (fun i => c ← vec_at (clientCalcs s) i;
                           g ← vec_at (clientGflops s) i; Some (c, g))
                 (seq 0 (length (clientCalcs s)))) as [procd|] eqn:H1.
  2:{ exfalso. apply eq_None_not_Some in H1. apply H1, mapM_is_Some, Forall_seq.
      intros j Hj. cbn.
      destruct (vec_at_lt (clientCalcs s) j) as [c Hc]; [lia|].
      destruct (vec_at_lt (clientGflops s) j) as [g Hgf]; [destruct Hwf; lia|].
      rewrite Hc. cbn. rewrite Hgf. cbn. eauto. }
  cbn.
  destruct (mapM (fun i => c ← vec_at (clientCalcs s) i;
                           e ← vec_at (clientErrors s) i; Some (e, noteOf c e))
                 (seq 0 (length (clientErrors s)))) as [errs|] eqn:H2.
  2:{ exfalso. apply eq_None_not_Some in H2. apply H2, mapM_is_Some, Forall_seq.
      intros j Hj. cbn.
      destruct (vec_at_lt (clientCalcs s) j) as [c Hc]; [destruct Hwf; lia|].
      destruct (vec_at_lt (clientErrors s) j) as [e He]; [lia|].
      rewrite Hc. cbn. rewrite He. cbn. eauto. }
  cbn.
  destruct (mapM (fun i => vec_at (clientTemp s) i)
                 (seq 0 (length (clientTemp s)))) as [temps|] eqn:H3.
  2:{ exfalso. apply eq_None_not_Some in H3. apply H3, mapM_is_Some, Forall_seq.
      intros j Hj. cbn. apply lookup_lt_is_Some_2. lia. }
  cbn. eauto.
Qed.

Lemma markFaulty_total n j s :
  steady n s -> (j < n)%nat -> exists s', markFaulty j s = Some s' /\ steady n s'.
Proof.
  intros [Hwf Hg] Hj. unfold markFaulty.
  destruct (vec_at_lt (clientErrors s) j) as [e He]; [destruct Hwf; lia|].
  rewrite He. cbn. destruct (e =? 0); [exists s; split; [reflexivity | split; assumption]|].
  rewrite vec_set_lt by (destruct Hwf; lia). cbn.
  eexists. split; [reflexivity|]. split; [|exact Hg].
  destruct Hwf. constructor; cbn; rewrite ?length_insert; assumption.
Qed.

Lemma resetErrors_total n j s :
  steady n s -> (j < n)%nat -> exists s', resetErrors j s = Some s' /\ steady n s'.
Proof.
  intros [Hwf Hg] Hj. unfold resetErrors.
  rewrite vec_set_lt by (destruct Hwf; lia). cbn.
  eexists. split; [reflexivity|]. split; [|exact Hg].
  destruct Hwf. constructor; cbn; rewrite ?length_insert; assumption.
Qed.

Lemma report_total n el s :
  steady n s -> exists s' out, report el s = Some (s', out) /\ steady n s'.
Proof.
  intros Hs. pose proof Hs as [Hwf Hg]. unfold report.
  destruct (progressLine_total n el s Hwf) as [line Hline]. rewrite Hline. cbn.
  replace (length (clientErrors s)) with n by (now destruct Hwf).
  destruct (for_loop_total (steady n) markFaulty n
              (fun j t Hj Ht => markFaulty_total n j t Ht Hj) n 0%nat s
              ltac:(lia) Hs) as (s3 & Hmark & Hs3).
  rewrite Hmark. cbn. destruct (fl_lt (nextReport s3) el).
  - replace (length (clientErrors s3)) with n by (now destruct Hs3 as [[] _]).
    set (s4 := set_nextReport (fl_add el (inject_Z 10)) s3).
    assert (Hs4 : steady n s4).
    { destruct Hs3 as [[] ?]. split; [constructor|]; assumption. }
    destruct (for_loop_total (steady n) resetErrors n
                (fun j t Hj Ht => resetErrors_total n j t Ht Hj) n 0%nat s4
                ltac:(lia) Hs4) as (s5 & Hreset & Hs5).
    rewrite Hreset. cbn. eauto.
  - eauto.
Qed.

Lemma pass_never_crashes cfg inp m :
  steady (length (clientHandles cfg)) m ->
  Z.of_nat (length (clientHandles cfg)) < 2 ^ 31 ->
  pass cfg inp m <> Crash
  /\ forall m' out, pass cfg inp m = Next m' out ->
                    steady (length (clientHandles cfg)) m'.
Proof.
  intros Hs Hn. set (n := length (clientHandles cfg)) in *.
  assert (Hpr : exists m2 out, pollAndReport cfg inp m = Some (m2, out) /\ steady n m2).
  { unfold pollAndReport. fold n.
    destruct (for_loop_total (steady n) (pollClient (peek inp)) n
                (fun j t Hj Ht => pollClient_total n (peek inp) j t Ht Hj) n 0%nat m
                ltac:(lia) Hs) as (s1 & Hpoll & Hs1).
    rewrite Hpoll. cbn.
    assert (Ht : exists s2,
               (if hasTempHandle cfg
                then match tempPeek inp with
                     | TempNothing => Some s1
                     | TempData line => updateTemps line s1
                     end
                else Some s1) = Some s2 /\ steady n s2).
    { destruct (hasTempHandle cfg); [|eauto].
      destruct (tempPeek inp) as [|line]; [eauto|].
      now apply updateTemps_total. }
    destruct Ht as (s2 & Ht & Hs2). rewrite Ht. cbn.
    destruct (childReport s2); [|eauto].
    now apply report_total. }
  destruct Hpr as (m2 & out & Hpr & Hs2).
  unfold pass. destruct (deadlinePassed cfg (thisTime inp)); [split; discriminate|].
  rewrite Hpr, oneAlive_spec.
  destruct (existsb isAlive (clientCalcs m2)); split; try discriminate.
  now intros m' out' [= <- _].
Qed.

Lemma pollLoop_never_crashes cfg inputs : forall m tr tr',
  steady (length (clientHandles cfg)) m ->
  Z.of_nat (length (clientHandles cfg)) < 2 ^ 31 ->
  pollLoop cfg inputs m tr <> Crashed tr'.
Proof.
  induction inputs as [|inp inputs IH]; intros m tr tr' Hs Hn; cbn; [discriminate|].
  destruct (pass_never_crashes cfg inp m Hs Hn) as [Hnc Hnext].
  destruct (pass cfg inp m) as [m1 out| |code out|]; try discriminate; [|contradiction].
  apply IH; [|exact Hn]. now apply (Hnext m1 out).
Qed.

(** Once the clock reading of some pass is past the deadline, the loop
    does not go on polling. *)
Lemma pollLoop_stops_at_deadline cfg inputs : forall m tr m' tr',
  Exists (fun x => deadlinePassed cfg (thisTime x) = true) inputs ->
  pollLoop cfg inputs m tr <> Polling m' tr'.
Proof.
  induction inputs as [|inp inputs IH]; intros m tr m' tr' Hex; cbn.
  - inversion Hex.
  - unfold pass. destruct (deadlinePassed cfg (thisTime inp)) eqn:Hd; [discriminate|].
    inversion Hex as [? ? Hnow|? ? Hlater]; subst; [congruence|].
    destruct (pollAndReport cfg inp m) as [[m2 out2]|]; [|discriminate].
    destruct (oneAlive m2) as [[|]|]; try discriminate.
    now apply IH.
Qed.

Lemma pollLoop_exit_code cfg inputs : forall m tr code tr',
  pollLoop cfg inputs m tr = Exited code tr' -> code = ENOMEDIUM.
Proof.
  induction inputs as [|inp inputs IH]; intros m tr code tr'; cbn; [discriminate|].
  destruct (pass cfg inp m) as [m1 out| |code1 out|] eqn:Hpass; try discriminate.
  - apply IH.
  - intros [= <- _]. unfold pass in Hpass.
    destruct (deadlinePassed cfg (thisTime inp)); [discriminate|].
    destruct (pollAndReport cfg inp m) as [[m2 out2]|]; [|discriminate].
    destruct (oneAlive m2) as [[|]|]; try discriminate.
    now injection Hpass as <- _.
Qed.


(** * Properties of the worker thread *)

Lemma gemms_spec gemm_ok name count : forall i,
  gemms gemm_ok name i count = Ret tt
  <-> forall j, (i <= j < i + count)%nat -> gemm_ok j = true.
Proof.
  induction count as [|count IH]; intros i; cbn [gemms].
  - split; [intros _ j Hj; lia | reflexivity].
  - unfold checkError. destruct (gemm_ok i) eqn:Ei; cbn.
    + rewrite IH. split; intros H j Hj.
      * destruct (Nat.eq_dec j i) as [->|Hne]; [exact Ei | apply H; lia].
      * apply H; lia.
    + split; [discriminate|]. intros H. rewrite H in Ei by lia. discriminate.
Qed.

Lemma gemms_throws gemm_ok name count : forall i e,
  gemms gemm_ok name i count = Throw e -> e = runtime_error name.
Proof.
  induction count as [|count IH]; intros i e; cbn [gemms]; [discriminate|].
  unfold checkError. destruct (gemm_ok i); cbn; [apply IH | congruence].
Qed.

(** X6: [compute] returns normally exactly when the context can be bound
    and every one of the [d_iters] GEMM calls succeeds; otherwise it
    throws a [std::runtime_error], never anything else. *)
Theorem compute_all_or_error (drv : Driver) (gemm_ok : nat -> bool) (t : GPU_Test) :
  (compute drv gemm_ok t = Ret tt
   <-> cuCtxSetCurrent_ok drv = true
       /\ forall i, (i < Z.to_nat (d_iters t))%nat -> gemm_ok i = true)
  /\ (forall e, compute drv gemm_ok t = Throw e -> exists desc, e = runtime_error desc).
Proof.
  unfold compute, bind, checkError. split.
  - destruct (cuCtxSetCurrent_ok drv); cbn.
    + rewrite gemms_spec. split.
      * intros H. split; [reflexivity|]. intros i Hi. apply H; lia.
      * intros [_ H] j Hj. apply H; lia.
    + split; [discriminate | intros [? _]; discriminate].
  - intros e. destruct (cuCtxSetCurrent_ok drv); cbn.
    + intros H. apply gemms_throws in H. eauto.
    + intros [= <-]. eauto.
Qed.

(** The [int] cast of an [unsigned long long] keeps the low 32 bits. *)
Lemma to_int32_of_uint64 z : to_int32 (to_uint64 z) = to_int32 z.
Proof.
  unfold to_int32, to_uint64, two32, two64.
  rewrite (Z.mod_eq z (2 ^ 64)) by lia.
  replace (z - 2 ^ 64 * (z / 2 ^ 64) + 2 ^ 31)
    with (z + 2 ^ 31 + (- 2 ^ 32 * (z / 2 ^ 64)) * 2 ^ 32) by lia.
  now rewrite Z_mod_plus_full.
Qed.

(** With nothing carried over, [getErrors] hands out the host count. *)
Lemma getErrors_fresh t h :
  d_error t = 0 -> d_faultyElemsHost t = to_int32 h ->
  to_int32 (fst (getErrors t)) = to_int32 h.
Proof.
  intros He Hh. unfold getErrors, accumulated. cbn [fst].
  rewrite to_int32_of_uint64, He, Hh.
  pose proof (to_int32_range h) as Hr. unfold is_int32 in Hr.
  destruct (Z.eqb_spec (to_int32 h) 0) as [E|E].
  - rewrite E. reflexivity.
  - rewrite Z.add_0_l, to_int64_id by (unfold is_int64; lia).
    apply to_int32_id. exact Hr.
Qed.

Lemma compute_fine batch it t :
  d_iters t = batch -> succeeds batch it ->
  compute (drvNow it) (gemm_ok it) t = Ret tt.
Proof.
  intros <- (Hb & Hg & _). unfold compute, bind, checkError. rewrite Hb. cbn. apply gemms_spec. intros j Hj. apply Hg. lia.
Qed.

Lemma compare_fine batch it t :
  succeeds batch it ->
  compare (drvNow it) (hostCount it) t
  = (Ret tt, set_d_faultyElemsHost (to_int32 (hostCount it)) t).
Proof.
  intros (_ & _ & H1 & H2 & H3 & _). unfold compare. now rewrite H1, H2, H3.
Qed.

(** The first pass of the loop reports nothing. *)
Lemma workBody_first P batch it t :
  d_iters t = batch -> succeeds batch it ->
  workBody P it t 2
  = GoOn (set_d_faultyElemsHost (to_int32 (hostCount it)) t) 1 [].
Proof.
  intros Ht Hs. unfold workBody.
  rewrite (compute_fine batch it t Ht Hs), (compare_fine batch it t Hs).
  destruct Hs as (_ & _ & _ & _ & _ & -> & ->). reflexivity.
Qed.

(** Every later pass writes its pair and flushes. *)
Lemma workBody_report P batch it t n :
  d_iters t = batch -> d_error t = 0 -> succeeds batch it -> delivered it ->
  - 2 ^ 31 < n <= 1 ->
  workBody P it t n
  = GoOn (set_d_error 0 (set_d_faultyElemsHost (to_int32 (hostCount it)) t))
         (n - 1) (reportEvents batch it).
Proof.
  intros Ht He Hs [Hw1 Hw2] Hn. unfold workBody.
  rewrite (compute_fine batch it t Ht Hs), (compare_fine batch it t Hs).
  destruct Hs as (_ & _ & _ & _ & _ & -> & ->). cbn [checkError negb].
  rewrite (to_int32_id (n - 1)) by (unfold is_int32; lia).
  destruct (Z.ltb_spec 0 (n - 1)) as [?|_]; [lia|].
  rewrite Hw1, Hw2. cbn [writeInt Z.eqb Pos.eqb].
  set (t1 := set_d_faultyElemsHost (to_int32 (hostCount it)) t).
  pose proof (getErrors_fresh t1 (hostCount it) He eq_refl) as Herr.
  destruct (getErrors t1) as [errs t2] eqn:Eg.
  cbn [fst] in Herr. rewrite Herr.
  assert (t2 = set_d_error 0 t1) as -> by (unfold getErrors in Eg; congruence).
  unfold reportEvents, getIters. subst t1. cbn [d_iters set_d_faultyElemsHost].
  rewrite Ht. reflexivity.
Qed.

(** A run of reporting passes in front of the rest of the loop. *)
Lemma workLoop_reports P batch its rest : forall t n evs,
  d_iters t = batch -> d_error t = 0 ->
  Forall (succeeds batch) its -> Forall delivered its ->
  n <= 1 -> - 2 ^ 31 < n - Z.of_nat (length its) ->
  exists t', d_iters t' = batch /\ d_error t' = 0
    /\ workLoop P (its ++ rest) t n evs
       = workLoop P rest t' (n - Z.of_nat (length its))
                  (evs ++ flat_map (reportEvents batch) its).
Proof.
  induction its as [|it its IH]; intros t n evs Ht He Hs Hd Hn Hlen.
  - exists t. cbn. rewrite Z.sub_0_r, app_nil_r. auto.
  - inversion Hs as [|? ? Hs1 Hs']; inversion Hd as [|? ? Hd1 Hd']; subst.
    cbn [length] in Hlen.
    cbn [app workLoop].
    rewrite (workBody_report P _ it t n eq_refl He Hs1 Hd1) by lia.
    set (t1 := set_d_error 0 _).
    destruct (IH t1 (n - 1) (evs ++ reportEvents (d_iters t) it))
      as (t' & Ht' & He' & Hloop); auto; try lia.
    exists t'. split; [exact Ht'|]. split; [exact He'|].
    rewrite Hloop. cbn [flat_map length]. rewrite <- app_assoc.
    f_equal. lia.
Qed.

(** The loop from its start: the first pass is silent, the others report. *)
Lemma workLoop_start P batch it its rest t :
  d_iters t = batch -> d_error t = 0 ->
  Forall (succeeds batch) (it :: its) -> Forall delivered its ->
  Z.of_nat (length its) < 2 ^ 31 ->
  exists t', d_iters t' = batch /\ d_error t' = 0
    /\ workLoop P (it :: its ++ rest) t 2 []
       = workLoop P rest t' (1 - Z.of_nat (length its))
                  (flat_map (reportEvents batch) its).
Proof.
  intros Ht He Hs Hd Hlen.
  inversion Hs as [|? ? Hs1 Hs']; subst.
  cbn [workLoop]. rewrite (workBody_first P _ it t eq_refl Hs1).
  set (t1 := set_d_faultyElemsHost _ t).
  destruct (workLoop_reports P (d_iters t) its rest t1 1 ([] ++ []))
    as (t' & Ht' & He' & Hloop); auto; try lia.
  exists t'. split; [exact Ht'|]. split; [exact He'|]. exact Hloop.
Qed.

Lemma initBuffers_keeps_error drv T useBytes t :
  d_error (snd (initBuffers drv T useBytes t)) = d_error t.
Proof.
  unfold initBuffers.
  destruct (bind drv;; _) as [usable|e]; [|reflexivity].
  destruct (_ <? _); reflexivity.
Qed.

Lemma GPU_Test_new_ret drv dev doubles tensors kernelFile host0 g our g' :
  GPU_Test_new drv dev doubles tensors kernelFile host0 g = (Ret our, g') ->
  g' = true /\ d_error our = 0.
Proof.
  unfold GPU_Test_new. destruct (checkError _ _;; _); [|discriminate].
  intros [= <- <-]. auto.
Qed.

(** The constructor throws nothing but a [std::runtime_error], and leaves
    [g_running] alone when it throws. *)
Lemma GPU_Test_new_throw drv dev doubles tensors kernelFile host0 g e g' :
  GPU_Test_new drv dev doubles tensors kernelFile host0 g = (Throw e, g') ->
  g' = g /\ exists desc, e = runtime_error desc.
Proof.
  unfold GPU_Test_new, bind, checkError.
  destruct (cuDeviceGet_ok drv), (cuCtxCreate_ok drv), (cuCtxSetCurrent_ok drv),
    (cublasCreate_ok drv), tensors, (cublasSetMathMode_ok drv),
    (cuMemAllocHost_ok drv); cbn; intros [= <- <-]; eauto.
Qed.

(** Once the object is set up the thread is its loop and what follows. *)
Lemma startBurnThread_working P T drv args host0 iters fw td g our :
  initOutcome drv T args host0 g = Ret our ->
  d_error our = 0
  /\ startBurnThread P T drv args host0 iters fw td g
     = match workLoop P iters our 2 [] with
       | LeftLoop _ evs =>
           if td then (EndThread 0, evs ++ [ClosePipe], true)
           else (ProcessDies, evs, true)
       | Caught e evs =>
           if isStdException e
           then (EndThread (ECONNREFUSED P),
                 evs ++ ComputeComplaint :: signalFailure fw, true)
           else (ProcessDies, evs, true)
       | Hung evs => (Stuck, evs, true)
       end.
Proof.
  unfold initOutcome, startBurnThread.
  destruct (GPU_Test_new _ _ _ _ _ _ _) as [[our0|e] g'] eqn:En; [|discriminate].
  apply GPU_Test_new_ret in En. destruct En as [-> He0].
  pose proof (initBuffers_keeps_error drv T (useBytesArg args) our0) as Hk.
  destruct (initBuffers _ _ _ _) as [[[]|e] our1]; [|discriminate].
  intros [= <-]. cbn [snd] in Hk. split; [congruence | reflexivity].
Qed.

Lemma pipeInts_app evs1 evs2 : pipeInts (evs1 ++ evs2) = pipeInts evs1 ++ pipeInts evs2.
Proof. unfold pipeInts. apply flat_map_app. Qed.

Lemma pipeInts_reports batch its :
  pipeInts (flat_map (reportEvents batch) its) = flat_map (reportOf batch) its.
Proof.
  induction its as [|it its IH]; [reflexivity|].
  cbn [flat_map]. rewrite pipeInts_app, IH. reflexivity.
Qed.

(** The thread of a run without failures. *)
Lemma startBurnThread_steady P T drv args host0 iters fw g our :
  initOutcome drv T args host0 g = Ret our ->
  Forall (succeeds (d_iters our)) iters ->
  Forall delivered (tail iters) ->
  Z.of_nat (length iters) < 2 ^ 31 ->
  startBurnThread P T drv args host0 iters fw true g
  = (EndThread 0,
     flat_map (reportEvents (d_iters our)) (tail iters) ++ [ClosePipe],
     true).
Proof.
  intros Hinit Hs Hd Hlen.
  destruct (startBurnThread_working P T drv args host0 iters fw true g our Hinit)
    as [He ->].
  destruct iters as [|it0 its]; [reflexivity|].
  cbn [length] in Hlen. cbn [tail] in *.
  destruct (workLoop_start P (d_iters our) it0 its [] our eq_refl He Hs Hd)
    as (t' & _ & _ & Hloop); [lia|].
  rewrite app_nil_r in Hloop. rewrite Hloop. reflexivity.
Qed.

(** X3: a worker whose set-up succeeded and whose driver calls and pipe
    writes all succeed reports every pass of its loop but the first: it
    writes the pair (batch size, faults found) and flushes, closes the
    pipe when the loop is ended, and ends its thread with code 0. *)
Theorem worker_reports_all_but_first_pass (P : Platform) (T : elemT) (drv : Driver)
    (args : BurnThreadArgs) (host0 : Z) (iters : list Iteration)
    (fw : WriteResult * WriteResult) (g : bool) (our : GPU_Test) :
  initOutcome drv T args host0 g = Ret our ->
  Forall (succeeds (d_iters our)) iters ->
  Forall delivered (tail iters) ->
  Z.of_nat (length iters) < 2 ^ 31 ->
  startBurnThread P T drv args host0 iters fw true g
  = (EndThread 0,
     flat_map (reportEvents (d_iters our)) (tail iters) ++ [ClosePipe],
     true)
  /\ pipeInts (flat_map (reportEvents (d_iters our)) (tail iters) ++ [ClosePipe])
     = flat_map (reportOf (d_iters our)) (tail iters).
Proof.
  intros Hinit Hs Hd Hlen. split.
  - now apply startBurnThread_steady.
  - rewrite pipeInts_app, pipeInts_reports. cbn. apply app_nil_r.
Qed.

Lemma worker_reports_all_but_first_pass_witness :
  startBurnThread win64 FloatT driver8G burnArgs 0
                  [goodIteration 0; goodIteration 0; goodIteration 3]
                  (Written 4, Written 4) true false
  = (EndThread 0,
     [WriteInt 26 (Written 4); WriteInt 0 (Written 4); FlushPipe;
      WriteInt 26 (Written 4); WriteInt 3 (Written 4); FlushPipe; ClosePipe],
     true).
Proof.
  refine (proj1 (worker_reports_all_but_first_pass win64 FloatT driver8G burnArgs 0
            [goodIteration 0; goodIteration 0; goodIteration 3]
            (Written 4, Written 4) false
            (mkGPU_Test 0 false false "compare.ptx" 26 0 0) _ _ _ _)).
  - vm_compute. reflexivity.
  - repeat constructor.
  - repeat constructor.
  - vm_compute. reflexivity.
Defined.

Lemma onlyRuntime_ret {A} (a : A) : onlyRuntime (Ret a).
Proof. intros e. discriminate. Qed.

Lemma onlyRuntime_check ok desc : onlyRuntime (checkError ok desc).
Proof. intros e. unfold checkError. destruct ok; [discriminate|]. intros [= <-]. eauto. Qed.

Lemma onlyRuntime_bind {A B} (m : outcome A) (k : A -> outcome B) :
  onlyRuntime m -> (forall a, onlyRuntime (k a)) -> onlyRuntime (m ≫= k).
Proof.
  intros Hm Hk e. destruct m as [a|e']; cbn.
  - apply Hk.
  - intros [= <-]. apply Hm. reflexivity.
Qed.

Ltac only_runtime :=
  repeat first
    [ apply onlyRuntime_ret
    | apply onlyRuntime_check
    | apply onlyRuntime_bind; [|intros ?]
    | match goal with |- onlyRuntime (if ?b then _ else _) => destruct b end ].

Lemma onlyRuntime_availMemory drv : onlyRuntime (availMemory drv).
Proof. unfold availMemory, bind. only_runtime. Qed.

Lemma onlyRuntime_totalMemory drv : onlyRuntime (totalMemory drv).
Proof. unfold totalMemory, bind. only_runtime. Qed.

Lemma onlyRuntime_usableBytes drv useBytes : onlyRuntime (usableBytes drv useBytes).
Proof.
  unfold usableBytes.
  apply onlyRuntime_bind.
  - destruct (useBytes =? 0); [|apply onlyRuntime_ret].
    apply onlyRuntime_bind; [apply onlyRuntime_availMemory | intros; apply onlyRuntime_ret].
  - intros u. destruct (u <? 0); [|apply onlyRuntime_ret].
    apply onlyRuntime_bind; [apply onlyRuntime_availMemory | intros; apply onlyRuntime_ret].
Qed.

Lemma onlyRuntime_initCompareKernel drv kernelFile :
  onlyRuntime (initCompareKernel drv kernelFile).
Proof. unfold initCompareKernel. only_runtime. Qed.

(** [initBuffers] throws the low-memory string or a [std::runtime_error]. *)
Lemma initBuffers_throw drv T useBytes t e t' :
  initBuffers drv T useBytes t = (Throw e, t') ->
  e = string_exn lowMemMessage \/ exists desc, e = runtime_error desc.
Proof.
  unfold initBuffers.
  destruct (bind drv;; _) as [usable|e0] eqn:E0.
  - destruct (_ <? _).
    + intros [= <- _]. auto.
    + intros [= H _]. right. revert H. generalize e.
      change (onlyRuntime
        (checkError (cuMemAlloc_ok drv (to_uint64 (d_iters (set_d_iters (itersFor T usable) t) * resultSize T))) "C alloc";;
         checkError (cuMemAlloc_ok drv (resultSize T)) "A alloc";;
         checkError (cuMemAlloc_ok drv (resultSize T)) "B alloc";;
         checkError (cuMemAlloc_ok drv 4) "faulty data";;
         checkError (cuMemcpyHtoD_ok drv) "A -> device";;
         checkError (cuMemcpyHtoD_ok drv) "B -> device";;
         initCompareKernel drv (d_kernelFile (set_d_iters (itersFor T usable) t)))).
      do 6 (apply onlyRuntime_bind; [apply onlyRuntime_check | intros ?]).
      apply onlyRuntime_initCompareKernel.
  - intros [= <- _]. right. revert E0. generalize e0.
    change (onlyRuntime
      (bind drv;; usable ← usableBytes drv useBytes;
       totalMemory drv;; availMemory drv;; Ret usable)).
    unfold bind.
    apply onlyRuntime_bind; [apply onlyRuntime_check | intros ?].
    apply onlyRuntime_bind; [apply onlyRuntime_usableBytes | intros ?].
    apply onlyRuntime_bind; [apply onlyRuntime_totalMemory | intros ?].
    apply onlyRuntime_bind; [apply onlyRuntime_availMemory | intros ?].
    apply onlyRuntime_ret.
Qed.

(** X1: when the set-up of a worker fails with a driver error (in the
    constructor or in [initBuffers]), the thread never enters its loop: it
    writes the pair (-1, -1) to its pipe, closes the pipe and ends with
    [EMEDIUMTYPE].  The only set-up failure that is not a driver error is
    the low-memory string. *)
Theorem worker_setup_failure_sends_sentinel (P : Platform) (T : elemT)
    (drv : Driver) (args : BurnThreadArgs) (host0 : Z) (iters : list Iteration)
    (fw : WriteResult * WriteResult) (td g : bool) (e : exn) :
  initOutcome drv T args host0 g = Throw e ->
  e <> string_exn lowMemMessage ->
  fst (startBurnThread P T drv args host0 iters fw td g)
  = (EndThread EMEDIUMTYPE,
     [InitComplaint; WriteInt (-1) (fst fw); WriteInt (-1) (snd fw); ClosePipe])
  /\ (fw = (Written 4, Written 4) ->
      pipeInts (snd (fst (startBurnThread P T drv args host0 iters fw td g)))
      = [-1; -1]).
Proof.
  intros Hinit Hne.
  assert (Hrun : exists desc, e = runtime_error desc
            /\ fst (startBurnThread P T drv args host0 iters fw td g)
               = (EndThread EMEDIUMTYPE, InitComplaint :: signalFailure fw)).
  { revert Hinit. unfold initOutcome, startBurnThread.
    destruct (GPU_Test_new _ _ _ _ _ _ _) as [[our0|e0] g'] eqn:En.
    - destruct (initBuffers _ _ _ _) as [[[]|e1] our1] eqn:Eb; [discriminate|].
      intros [= ->]. apply initBuffers_throw in Eb.
      destruct Eb as [->|[desc ->]]; [contradiction|]. eauto.
    - intros [= ->]. apply GPU_Test_new_throw in En.
      destruct En as [_ [desc ->]]. eauto. }
  destruct Hrun as (desc & _ & Hrun). split; [exact Hrun|].
  intros ->. rewrite Hrun. reflexivity.
Qed.

Lemma worker_setup_failure_sends_sentinel_witness :
  fst (startBurnThread win64 FloatT driverNoContext burnArgs 0
                       [goodIteration 0] (Written 4, Written 4) true false)
  = (EndThread 124,
     [InitComplaint; WriteInt (-1) (Written 4); WriteInt (-1) (Written 4); ClosePipe]).
Proof.
  refine (proj1 (worker_setup_failure_sends_sentinel win64 FloatT driverNoContext
            burnArgs 0 [goodIteration 0] (Written 4, Written 4) true false
            (runtime_error EmptyString) _ _)).
  - vm_compute. reflexivity.
  - discriminate.
Defined.

(** X2: when the bytes [initBuffers] settles on are fewer than three
    result buffers, the [std::string] it throws passes the handler of the
    thread (which catches [std::exception] only): the process is ended by
    the uncaught exception, nothing is written to the pipe (no sentinel
    pair), the pipe is not closed, and [g_running] stays set by the
    constructor. *)
Theorem worker_low_memory_ends_process (P : Platform) (T : elemT) (drv : Driver)
    (args : BurnThreadArgs) (host0 : Z) (iters : list Iteration)
    (fw : WriteResult * WriteResult) (td g : bool) (our0 : GPU_Test) :
  fst (GPU_Test_new drv (index args) (doubles args) (tensors args)
                    (kernelFileArg args) host0 g) = Ret our0 ->
  queries_ok drv ->
  tooSmall drv T (useBytesArg args) ->
  startBurnThread P T drv args host0 iters fw td g = (ProcessDies, [], true).
Proof.
  intros Hnew Hq Hsmall. unfold startBurnThread.
  destruct (GPU_Test_new _ _ _ _ _ _ _) as [[our|e] g'] eqn:En; [|discriminate].
  cbn [fst] in Hnew. injection Hnew as ->.
  apply GPU_Test_new_ret in En. destruct En as [-> _].
  rewrite (initBuffers_unfold drv T (useBytesArg args) our0 Hq). cbv zeta.
  pose proof (resultSize_pos T) as HR.
  rewrite (to_uint64_id (3 * resultSize T)) by (unfold is_uint64; lia).
  unfold tooSmall in Hsmall.
  destruct (Z.ltb_spec (to_uint64 (usableOf (freeMem drv) (useBytesArg args)))
                       (3 * resultSize T)) as [_|?]; [|lia].
  reflexivity.
Qed.

Lemma worker_low_memory_ends_process_witness :
  startBurnThread win64 FloatT driverSmall burnArgs 0 [goodIteration 0]
                  (Written 4, Written 4) true false
  = (ProcessDies, [], true).
Proof.
  refine (worker_low_memory_ends_process win64 FloatT driverSmall burnArgs 0
            [goodIteration 0] (Written 4, Written 4) true false
            (mkGPU_Test 0 false false "compare.ptx" 0 0 0) _ _ _).
  - vm_compute. reflexivity.
  - split; reflexivity.
  - vm_compute. reflexivity.
Defined.

Lemma compute_throws drv gemm_ok t e :
  compute drv gemm_ok t = Throw e -> exists desc, e = runtime_error desc.
Proof.
  unfold compute, bind, checkError. destruct (cuCtxSetCurrent_ok drv); cbn.
  - intros H. apply gemms_throws in H. eauto.
  - intros [= <-]. eauto.
Qed.

(** A pass in which a checked driver call fails throws a
    [std::runtime_error] before anything is written. *)
Lemma workBody_fails P batch it t n :
  d_iters t = batch -> driverFails batch it ->
  exists desc, workBody P it t n = Threw (runtime_error desc) [].
Proof.
  intros Ht Hf. unfold workBody.
  destruct (compute (drvNow it) (gemm_ok it) t) as [[]|e] eqn:Ec.
  - unfold compute, bind, checkError in Ec.
    destruct (cuCtxSetCurrent_ok (drvNow it)) eqn:Eb; [|discriminate].
    cbn in Ec. rewrite gemms_spec in Ec.
    unfold compare, checkError.
    destruct (cuMemsetD32Async_ok (drvNow it)) eqn:E1; cbn; [|eauto].
    destruct (cuLaunchGridAsync_ok (drvNow it)) eqn:E2; cbn; [|eauto].
    destruct (cuMemcpyDtoHAsync_ok (drvNow it)) eqn:E3; cbn; [|eauto].
    destruct (cuEventRecord_ok it) eqn:E4; cbn; [|eauto].
    exfalso.
    destruct Hf as [?|[(i & Hi & Hg)|[?|[?|[?|?]]]]]; try congruence.
    rewrite Ec in Hg by (rewrite Ht; lia). discriminate.
  - apply compute_throws in Ec. destruct Ec as [desc ->]. eauto.
Qed.

(** X4: when a driver call fails in some pass of the loop, the reports of
    the passes before it stay as they were written, the thread adds the
    pair (-1, -1), closes the pipe and ends with [ECONNREFUSED]; the
    passes that would have followed do not happen. *)
Theorem worker_compute_failure_sends_sentinel (P : Platform) (T : elemT)
    (drv : Driver) (args : BurnThreadArgs) (host0 : Z)
    (before : list Iteration) (bad : Iteration) (rest : list Iteration)
    (fw : WriteResult * WriteResult) (td g : bool) (our : GPU_Test) :
  initOutcome drv T args host0 g = Ret our ->
  Forall (succeeds (d_iters our)) before ->
  Forall delivered before ->
  Z.of_nat (length before) < 2 ^ 31 ->
  driverFails (d_iters our) bad ->
  startBurnThread P T drv args host0 (before ++ bad :: rest) fw td g
  = (EndThread (ECONNREFUSED P),
     flat_map (reportEvents (d_iters our)) (tail before)
     ++ [ComputeComplaint; WriteInt (-1) (fst fw); WriteInt (-1) (snd fw); ClosePipe],
     true).
Proof.
  intros Hinit Hs Hd Hlen Hbad.
  destruct (startBurnThread_working P T drv args host0 (before ++ bad :: rest)
              fw td g our Hinit) as [He ->].
  destruct before as [|it0 its].
  - cbn [app workLoop].
    destruct (workBody_fails P (d_iters our) bad our 2 eq_refl Hbad) as [desc ->].
    reflexivity.
  - inversion Hd as [|? ? _ Hd']; subst. cbn [length] in Hlen.
    destruct (workLoop_start P (d_iters our) it0 its (bad :: rest) our eq_refl He Hs Hd')
      as (t' & Ht' & _ & Hloop); [lia|].
    cbn [app]. rewrite Hloop. cbn [workLoop].
    destruct (workBody_fails P (d_iters our) bad t' (1 - Z.of_nat (length its)) Ht' Hbad)
      as [desc ->].
    cbn [isStdException tail]. rewrite app_nil_r. reflexivity.
Qed.

Lemma worker_compute_failure_sends_sentinel_witness :
  startBurnThread win64 FloatT driver8G burnArgs 0
                  ([goodIteration 0; goodIteration 1] ++ gemmFails :: [goodIteration 0])
                  (Written 4, Written 4) true false
  = (EndThread 107,
     [WriteInt 26 (Written 4); WriteInt 1 (Written 4); FlushPipe;
      ComputeComplaint; WriteInt (-1) (Written 4); WriteInt (-1) (Written 4);
      ClosePipe],
     true).
Proof.
  refine (worker_compute_failure_sends_sentinel win64 FloatT driver8G burnArgs 0
            [goodIteration 0; goodIteration 1] gemmFails [goodIteration 0]
            (Written 4, Written 4) true false
            (mkGPU_Test 0 false false "compare.ptx" 26 0 0) _ _ _ _ _).
  - vm_compute. reflexivity.
  - repeat constructor.
  - repeat constructor.
  - vm_compute. reflexivity.
  - right. left. exists 2%nat. split; [vm_compute; lia | reflexivity].
Defined.

(** A pass that finds the reader gone leaves the loop after the write
    that failed. *)
Lemma workBody_reader_lost P batch it t n :
  d_iters t = batch -> d_error t = 0 -> succeeds batch it -> readerLost it ->
  - 2 ^ 31 < n <= 1 ->
  exists t', workBody P it t n = Broke t' (lastWrites batch it).
Proof.
  intros Ht He Hs Hlost Hn. unfold workBody.
  rewrite (compute_fine batch it t Ht Hs), (compare_fine batch it t Hs).
  destruct Hs as (_ & _ & _ & _ & _ & -> & ->). cbn [checkError negb].
  rewrite (to_int32_id (n - 1)) by (unfold is_int32; lia).
  destruct (Z.ltb_spec 0 (n - 1)) as [?|_]; [lia|].
  unfold lastWrites, getIters. cbn [d_iters set_d_faultyElemsHost]. rewrite Ht.
  destruct Hlost as [H1|[H1 H2]]; rewrite H1.
  - unfold writeInt, expectedWriteError. rewrite Z.eqb_refl. cbn. eauto.
  - cbn [writeInt Z.eqb Pos.eqb].
    set (t1 := set_d_faultyElemsHost (to_int32 (hostCount it)) t).
    pose proof (getErrors_fresh t1 (hostCount it) He eq_refl) as Herr.
    destruct (getErrors t1) as [errs t2] eqn:Eg.
    cbn [fst] in Herr. rewrite H2, Herr.
    unfold writeInt, expectedWriteError. rewrite Z.eqb_refl. cbn.
    exists t2. reflexivity.
Qed.

(** X5: when a write finds the reading end of the pipe closed
    ([ERROR_BROKEN_PIPE]), the thread leaves its loop at once: the passes
    that would have followed do not happen, no sentinel pair is written,
    the pipe is closed and the thread ends with code 0, as after a
    cancelled run. *)
Theorem worker_stops_when_reader_is_gone (P : Platform) (T : elemT) (drv : Driver)
    (args : BurnThreadArgs) (host0 : Z) (first : Iteration)
    (before : list Iteration) (it : Iteration) (rest : list Iteration)
    (fw : WriteResult * WriteResult) (g : bool) (our : GPU_Test) :
  initOutcome drv T args host0 g = Ret our ->
  Forall (succeeds (d_iters our)) (first :: before ++ [it]) ->
  Forall delivered before ->
  Z.of_nat (length before) < 2 ^ 31 - 1 ->
  readerLost it ->
  startBurnThread P T drv args host0 (first :: before ++ it :: rest) fw true g
  = (EndThread 0,
     flat_map (reportEvents (d_iters our)) before
     ++ lastWrites (d_iters our) it ++ [ClosePipe],
     true).
Proof.
  intros Hinit Hs Hd Hlen Hlost.
  destruct (startBurnThread_working P T drv args host0
              (first :: before ++ it :: rest) fw true g our Hinit) as [He ->].
  inversion Hs as [|? ? Hs0 Hs']; subst.
  apply Forall_app in Hs'. destruct Hs' as [Hsb Hsi].
  inversion Hsi as [|? ? Hit _]; subst.
  destruct (workLoop_start P (d_iters our) first before (it :: rest) our eq_refl He)
    as (t' & Ht' & He' & Hloop); [constructor; assumption | assumption | lia |].
  rewrite Hloop. cbn [workLoop].
  destruct (workBody_reader_lost P (d_iters our) it t' (1 - Z.of_nat (length before))
              Ht' He' Hit Hlost) as [t2 ->]; [lia|].
  rewrite <- app_assoc. reflexivity.
Qed.

Lemma worker_stops_when_reader_is_gone_witness :
  startBurnThread win64 FloatT driver8G burnArgs 0
                  (goodIteration 0 :: [goodIteration 2] ++ readerGone :: [goodIteration 0])
                  (Written 4, Written 4) true false
  = (EndThread 0,
     [WriteInt 26 (Written 4); WriteInt 2 (Written 4); FlushPipe;
      WriteInt 26 (WriteError 109); ClosePipe],
     true).
Proof.
  refine (worker_stops_when_reader_is_gone win64 FloatT driver8G burnArgs 0
            (goodIteration 0) [goodIteration 2] readerGone [goodIteration 0]
            (Written 4, Written 4) false
            (mkGPU_Test 0 false false "compare.ptx" 26 0 0) _ _ _ _ _).
  - vm_compute. reflexivity.
  - repeat constructor.
  - repeat constructor.
  - vm_compute. reflexivity.
  - left. reflexivity.
Defined.

Lemma initOutcome_iters drv T args host0 g our :
  initOutcome drv T args host0 g = Ret our -> 0 <= d_iters our.
Proof.
  unfold initOutcome.
  destruct (GPU_Test_new _ _ _ _ _ _ _) as [[our0|e] g']; [|discriminate].
  unfold initBuffers.
  destruct (bind drv;; _) as [usable|e]; [|discriminate].
  destruct (_ <? _); [discriminate|].
  destruct (checkError _ _;; _); [|discriminate].
  intros [= <-]. cbn [d_iters set_d_iters]. unfold itersFor.
  pose proof (resultSize_pos T). pose proof (to_uint64_range
    (to_uint64 usable - to_uint64 (2 * resultSize T))) as Hu.
  unfold is_uint64 in Hu. apply Z.div_pos; lia.
Qed.

(** The polling loop changes the cumulative count of a client only by
    what the answers for its own pipe say. *)
Lemma poll_loop_count n inp i m s c :
  wf n m -> (i < n)%nat -> clientCalcs m !! i = Some c ->
  for_loop (pollClient (peek inp)) 0 n m = Some s ->
  clientCalcs s !! i = Some (countAfter inp i c).
Proof.
  intros Hwf Hi Hc Hloop.
  assert (H : wf n s
              /\ clientCalcs s !! i
                 = Some (if (0 + n <=? i)%nat then c else countAfter inp i c)).
  { apply (for_loop_ind
             (fun j s => wf n s
                         /\ clientCalcs s !! i
                            = Some (if (j <=? i)%nat then c else countAfter inp i c))
             (pollClient (peek inp)) n 0 m s); [|auto|exact Hloop].
    clear s Hloop. intros j s1 s2 Hj [Hwf1 Hc1] Hbody.
    assert (Hother : j <> i -> clientCalcs s1 !! i
              = Some (if (S j <=? i)%nat then c else countAfter inp i c)).
    { intros Hne. rewrite Hc1.
      destruct (Nat.leb_spec j i), (Nat.leb_spec (S j) i); try reflexivity; lia. }
    destruct (consumedBy (peek inp) j) eqn:Ec.
    - destruct (consumedBy_true _ _ Ec) as (bytes & t & p & e & Hpk & Hb).
      destruct (applyReport_spec n j t p e s1 Hwf1 ltac:(lia))
        as (e0 & c0 & t0 & f0 & _ & Hc0 & _ & _ & Happ).
      unfold pollClient in Hbody. rewrite Hpk in Hbody.
      destruct (Z.leb_spec 8 bytes); [|lia].
      rewrite Happ in Hbody. injection Hbody as <-.
      split; [apply applied_wf; exact Hwf1|].
      rewrite applied_calcs. destruct (decide (j = i)) as [->|Hne].
      + rewrite list_lookup_insert_eq by (destruct Hwf1; lia).
        rewrite Nat.leb_refl in Hc1. rewrite Hc1 in Hc0. injection Hc0 as <-.
        destruct (Nat.leb_spec (S i) i); [lia|].
        unfold countAfter. rewrite Hpk.
        destruct (Z.leb_spec 8 bytes); [reflexivity | lia].
      + rewrite list_lookup_insert_ne by exact Hne. auto.
    - destruct (decide (j = i)) as [->|Hne].
      + rewrite Nat.leb_refl in Hc1. destruct (Nat.leb_spec (S i) i); [lia|].
        unfold pollClient in Hbody. unfold consumedBy in Ec. unfold countAfter.
        destruct (peek inp i) as [bytes t r1 r2|err].
        * assert (s2 = s1) as ->.
          { destruct (8 <=? bytes); [|congruence].
            destruct r1 as [p|]; [|congruence].
            destruct r2 as [e|]; [discriminate | congruence]. }
          split; [exact Hwf1|]. rewrite Hc1.
          destruct r1 as [p|]; [|reflexivity].
          destruct r2 as [e|]; [|reflexivity]. now rewrite Ec.
        * destruct (err =? ERROR_BROKEN_PIPE).
          -- unfold vec_at in Hbody. rewrite Hc1 in Hbody. cbn in Hbody.
             destruct (Z.eqb_spec c (-1)) as [->|_].
             ++ injection Hbody as <-. auto.
             ++ rewrite vec_set_lt in Hbody by (destruct Hwf1; lia).
                injection Hbody as <-. split; [now apply set_dead_wf|].
                cbn. apply list_lookup_insert_eq. destruct Hwf1. lia.
          -- injection Hbody as <-. auto.
      + destruct (pollClient_quiet _ _ _ _ Ec Hbody) as [->| ->].
        * auto.
        * split; [now apply set_dead_wf|]. cbn.
          rewrite list_lookup_insert_ne by exact Hne. auto. }
  destruct H as [_ H]. rewrite H.
  destruct (Nat.leb_spec (0 + n) i); [lia | reflexivity].
Qed.

(** So does a whole pass up to the liveness check. *)
Lemma pollAndReport_count cfg inp i m m' out c :
  wf (length (clientHandles cfg)) m -> (i < length (clientHandles cfg))%nat ->
  clientCalcs m !! i = Some c ->
  pollAndReport cfg inp m = Some (m', out) ->
  clientCalcs m' !! i = Some (countAfter inp i c).
Proof.
  intros Hwf Hi Hc. unfold pollAndReport.
  set (n := length (clientHandles cfg)) in *.
  destruct (for_loop (pollClient (peek inp)) 0 n m) as [s1|] eqn:Hpoll; cbn; [|discriminate].
  destruct (poll_loop_facts n (peek inp) m s1 Hwf Hpoll) as (Hwf1 & _).
  pose proof (poll_loop_count n inp i m s1 c Hwf Hi Hc Hpoll) as Hc1.
  match goal with
  | |- context [mbind _ ?x] => destruct x as [s2|] eqn:Htemp; cbn; [|discriminate]
  end.
  assert (Hs2 : wf n s2 /\ clientCalcs s2 = clientCalcs s1).
  { destruct (hasTempHandle cfg); [|injection Htemp as <-; auto].
    destruct (tempPeek inp) as [|line]; [injection Htemp as <-; auto|].
    destruct (updateTemps_facts n line s1 s2 Hwf1 Htemp) as (? & _ & _ & ? & _). auto. }
  destruct Hs2 as [Hwf2 Hc2].
  destruct (childReport s2).
  - intros Hrep. destruct (report_facts n _ s2 m' out Hwf2 Hrep)
      as (_ & _ & _ & _ & Hc3 & _).
    rewrite Hc3, Hc2. exact Hc1.
  - intros [= <- <-]. rewrite Hc2. exact Hc1.
Qed.

(** A pass that takes a whole pair or nothing from a pipe that is not
    found broken takes the pair its count is made of. *)
Lemma countAfter_pair inp i c :
  pairsOnly i inp -> pipeOpen i inp ->
  (readFrom i inp = [] /\ countAfter inp i c = c)
  \/ (exists p e, readFrom i inp = [p; e]
                  /\ countAfter inp i c = if p =? -1 then -1 else to_int32 (c + p)).
Proof.
  unfold pairsOnly, pipeOpen, consumed, consumedBy, readFrom, countAfter.
  destruct (peek inp i) as [bytes t [p|] [e|]|err]; intros Hp Ho.
  - destruct (8 <=? bytes); [right; eauto | left; auto].
  - left. destruct Hp as [Hp|Hp]; [discriminate|].
    destruct (8 <=? bytes); [discriminate | auto].
  - left. destruct (8 <=? bytes); auto.
  - left. destruct (8 <=? bytes); auto.
  - left. split; [reflexivity|].
    destruct (Z.eqb_spec err ERROR_BROKEN_PIPE) as [->|_]; [contradiction | reflexivity].
Qed.

(** The passes that read [es] pairs with the batch size [b] from the pipe
    of a client add [b] to its count for each. *)
Lemma pollLoop_counts cfg i b inputs : forall (es : list Z) m tr c,
  steady (length (clientHandles cfg)) m ->
  Z.of_nat (length (clientHandles cfg)) < 2 ^ 31 ->
  (i < length (clientHandles cfg))%nat ->
  Forall (fun inp => deadlinePassed cfg (thisTime inp) = false) inputs ->
  Forall (pairsOnly i) inputs -> Forall (pipeOpen i) inputs ->
  flat_map (readFrom i) inputs = flat_map (fun e => [b; e]) es ->
  clientCalcs m !! i = Some c -> 0 <= c ->
  0 <= Z.of_nat (length es) * b ->
  c + Z.of_nat (length es) * b < 2 ^ 31 ->
  exists m' tr',
    pollLoop cfg inputs m tr = Polling m' tr'
    /\ clientCalcs m' !! i = Some (c + Z.of_nat (length es) * b).
Proof.
  induction inputs as [|inp inputs IH];
    intros es m tr c Hs Hn Hi Hdl Hpo Hop Hread Hc Hc0 Hb0 Hb1.
  - destruct es as [|e es]; [|discriminate].
    cbn. exists m, tr. split; [reflexivity|]. rewrite Hc. f_equal. lia.
  - inversion Hdl as [|? ? Hd1 Hdl']; subst. inversion Hpo as [|? ? Hp1 Hpo']; subst.
    inversion Hop as [|? ? Ho1 Hop']; subst.
    cbn [pollLoop].
    destruct (pass_never_crashes cfg inp m Hs Hn) as [Hnc Hnext].
    assert (Hstep : exists c' es',
               flat_map (readFrom i) inputs = flat_map (fun e => [b; e]) es'
               /\ countAfter inp i c = c' /\ 0 <= c'
               /\ 0 <= Z.of_nat (length es') * b
               /\ c' + Z.of_nat (length es') * b = c + Z.of_nat (length es) * b).
    { destruct (countAfter_pair inp i c Hp1 Ho1) as [[Hr Hk]|(p & e & Hr & Hk)].
      - exists c, es. cbn [flat_map] in Hread. rewrite Hr in Hread.
        repeat split; auto.
      - cbn [flat_map] in Hread. rewrite Hr in Hread.
        destruct es as [|e' es]; [discriminate|].
        cbn [flat_map app] in Hread. injection Hread as -> -> Hread.
        cbn [length] in *.
        assert (0 <= b) by nia.
        exists (c + b), es. rewrite Hk.
        destruct (Z.eqb_spec b (-1)); [lia|].
        rewrite to_int32_id by (unfold is_int32; nia).
        repeat split; auto; nia. }
    destruct Hstep as (c' & es' & Hread' & Hk & Hc0' & Hb0' & Hsum).
    unfold pass in *. rewrite Hd1 in *.
    destruct (pollAndReport cfg inp m) as [[m2 out2]|] eqn:Hpr; [|contradiction].
    pose proof (pollAndReport_count cfg inp i m m2 out2 c (proj1 Hs) Hi Hc Hpr) as Hc2.
    rewrite Hk in Hc2.
    rewrite oneAlive_spec in *.
    assert (Hal : existsb isAlive (clientCalcs m2) = true).
    { apply existsb_exists. exists c'. split.
      - apply list_elem_of_In. eapply list_elem_of_lookup_2. exact Hc2.
      - unfold isAlive. destruct (Z.eqb_spec c' (-1)); [lia | reflexivity]. }
    rewrite Hal in *.
    destruct (IH es' m2 (tr ++ out2 ++ [SleepMs 50]) c') as (m' & tr' & Hl & Hc');
      try assumption.
    + apply (Hnext m2 (out2 ++ [SleepMs 50])). reflexivity.
    + lia.
    + exists m', tr'. split; [exact Hl|]. rewrite Hc'. f_equal. exact Hsum.
Qed.

Lemma take_reports batch (its : list Iteration) k :
  take (2 * k) (flat_map (reportOf batch) its)
  = flat_map (fun e => [to_int32 batch; e])
             ((fun it => to_int32 (hostCount it)) <$> take k its).
Proof.
  revert its. induction k as [|k IH]; intros its.
  - reflexivity.
  - destruct its as [|it its]; [reflexivity|].
    replace (2 * S k)%nat with (S (S (2 * k))) by lia.
    cbn [flat_map reportOf app take fmap list_fmap]. f_equal. f_equal. apply IH.
Qed.

(** X7: the worker and the monitor agree on the work done.  When the
    passes of the loop of [listenClients] have taken from the pipe of a
    client, in whole pairs, the first [k] pairs that a worker without
    failures wrote, the loop is still polling and its cumulative count for
    that client is [k] times the batch size (as long as that is within
    [int]): the first pass of a worker, which writes nothing, is never
    counted.  The passes are before the deadline and none finds the pipe
    of the client broken; the other clients and the temperature tool may
    behave in any way. *)
Theorem monitor_counts_all_but_first_pass (P : Platform) (T : elemT) (drv : Driver)
    (args : BurnThreadArgs) (host0 : Z) (first : Iteration) (its : list Iteration)
    (fw : WriteResult * WriteResult) (g : bool) (our : GPU_Test)
    (cfg : Config) (i : nat) (spawnClock : nat -> Z) (inputs : list PassInput)
    (k : nat) :
  initOutcome drv T args host0 g = Ret our ->
  Forall (succeeds (d_iters our)) (first :: its) ->
  Forall delivered its ->
  Z.of_nat (length its) < 2 ^ 31 - 1 ->
  (i < length (clientHandles cfg))%nat ->
  Z.of_nat (length (clientHandles cfg)) < 2 ^ 31 ->
  Forall (fun inp => deadlinePassed cfg (thisTime inp) = false) inputs ->
  Forall (pairsOnly i) inputs ->
  Forall (pipeOpen i) inputs ->
  (k <= length its)%nat ->
  Z.of_nat k * d_iters our < 2 ^ 31 ->
  let written :=
    pipeInts (snd (fst (startBurnThread P T drv args host0 (first :: its) fw true g))) in
  flat_map (readFrom i) inputs = take (2 * k) written ->
  exists m tr,
    pollLoop cfg inputs (monitor_init (length (clientHandles cfg)) spawnClock)
             (startTrace cfg) = Polling m tr
    /\ clientCalcs m !! i = Some (Z.of_nat k * d_iters our).
Proof.
  intros Hinit Hs Hd Hlen Hi Hn Hdl Hpo Hop Hk Hkb written. subst written.
  rewrite (startBurnThread_steady P T drv args host0 (first :: its) fw g our Hinit Hs Hd)
    by (cbn [length]; lia).
  cbn [fst snd tail]. rewrite pipeInts_app, pipeInts_reports.
  change (pipeInts [ClosePipe]) with (@nil Z). rewrite app_nil_r, take_reports.
  intros Hread.
  pose proof (initOutcome_iters drv T args host0 g our Hinit) as Hb.
  set (es := (fun it => to_int32 (hostCount it)) <$> take k its) in *.
  assert (Hes : length es = k).
  { unfold es. rewrite length_fmap, length_take. lia. }
  assert (Hbk : Z.of_nat k * to_int32 (d_iters our) = Z.of_nat k * d_iters our).
  { destruct k as [|k]; [reflexivity|].
    rewrite to_int32_id; [reflexivity|]. unfold is_int32. nia. }
  destruct (pollLoop_counts cfg i (to_int32 (d_iters our)) inputs es
              (monitor_init (length (clientHandles cfg)) spawnClock) (startTrace cfg) 0)
    as (m & tr & Hl & Hc); try assumption.
  - split; [apply wf_init|]. cbn. lia.
  - apply lookup_replicate_2. exact Hi.
  - lia.
  - rewrite Hes, Hbk. nia.
  - rewrite Hes, Hbk. lia.
  - exists m, tr. split; [exact Hl|]. rewrite Hc, Hes, Hbk. f_equal.
Qed.

Lemma monitor_counts_all_but_first_pass_witness :
  exists m tr,
    pollLoop cfgOne [readingPass 101 26 0; passWithoutData; readingPass 103 26 3]
             (monitor_init 1 (fun _ => 1000)) (startTrace cfgOne) = Polling m tr
    /\ clientCalcs m !! 0%nat = Some (Z.of_nat 2 * 26).
Proof.
  refine (monitor_counts_all_but_first_pass win64 FloatT driver8G burnArgs 0
            (goodIteration 0) [goodIteration 0; goodIteration 3; goodIteration 0]
            (Written 4, Written 4) false
            (mkGPU_Test 0 false false "compare.ptx" 26 0 0)
            cfgOne 0 (fun _ => 1000)
            [readingPass 101 26 0; passWithoutData; readingPass 103 26 3] 2
            _ _ _ _ _ _ _ _ _ _ _ _).
  - vm_compute. reflexivity.
  - repeat constructor.
  - repeat constructor.
  - vm_compute. reflexivity.
  - cbn. lia.
  - vm_compute. reflexivity.
  - repeat constructor.
  - constructor; [left; reflexivity|].
    constructor; [right; reflexivity|].
    constructor; [left; reflexivity|]. constructor.
  - repeat (constructor; [discriminate|]). constructor.
  - cbn. lia.
  - vm_compute. reflexivity.
  - vm_compute. reflexivity.
Defined.

Lemma writeInt_goes_on P v r : notBroken r -> snd (writeInt P v r) = false.
Proof.
  unfold notBroken. destruct r as [n|err]; cbn; [reflexivity|].
  intros H. apply Z.eqb_neq. congruence.
Qed.

Lemma workBody_writes P batch it t n :
  d_iters t = batch -> d_error t = 0 -> succeeds batch it ->
  notBroken (writeOps it) -> notBroken (writeErrs it) ->
  - 2 ^ 31 < n <= 1 ->
  workBody P it t n
  = GoOn (set_d_error 0 (set_d_faultyElemsHost (to_int32 (hostCount it)) t))
         (n - 1) (passEvents P batch it).
Proof.
  intros Ht He Hs Hw1 Hw2 Hn. unfold workBody.
  rewrite (compute_fine batch it t Ht Hs), (compare_fine batch it t Hs).
  destruct Hs as (_ & _ & _ & _ & _ & -> & ->). cbn [checkError negb].
  rewrite (to_int32_id (n - 1)) by (unfold is_int32; lia).
  destruct (Z.ltb_spec 0 (n - 1)) as [?|_]; [lia|].
  set (t1 := set_d_faultyElemsHost (to_int32 (hostCount it)) t).
  unfold getIters. replace (d_iters t1) with batch by (rewrite <- Ht; reflexivity).
  pose proof (writeInt_goes_on P (to_int32 batch) (writeOps it) Hw1) as Hb1.
  destruct (writeInt P (to_int32 batch) (writeOps it)) as [ev1 brk1] eqn:E1.
  cbn [snd] in Hb1. subst brk1.
  pose proof (getErrors_fresh t1 (hostCount it) He eq_refl) as Herr.
  destruct (getErrors t1) as [errs t2] eqn:Eg.
  cbn [fst] in Herr. rewrite Herr.
  assert (t2 = set_d_error 0 t1) as -> by (unfold getErrors in Eg; congruence).
  pose proof (writeInt_goes_on P (to_int32 (hostCount it)) (writeErrs it) Hw2) as Hb2.
  destruct (writeInt P (to_int32 (hostCount it)) (writeErrs it)) as [ev2 brk2] eqn:E2.
  cbn [snd] in Hb2. subst brk2.
  unfold passEvents. rewrite E1, E2. reflexivity.
Qed.

Lemma workLoop_writes P batch its rest : forall t n evs,
  d_iters t = batch -> d_error t = 0 ->
  Forall (succeeds batch) its ->
  Forall (fun it => notBroken (writeOps it) /\ notBroken (writeErrs it)) its ->
  n <= 1 -> - 2 ^ 31 < n - Z.of_nat (length its) ->
  exists t', d_iters t' = batch /\ d_error t' = 0
    /\ workLoop P (its ++ rest) t n evs
       = workLoop P rest t' (n - Z.of_nat (length its))
                  (evs ++ flat_map (passEvents P batch) its).
Proof.
  induction its as [|it its IH]; intros t n evs Ht He Hs Hd Hn Hlen.
  - exists t. cbn. rewrite Z.sub_0_r, app_nil_r. auto.
  - inversion Hs as [|? ? Hs1 Hs']; inversion Hd as [|? ? [Hd1 Hd2] Hd']; subst.
    cbn [length] in Hlen.
    cbn [app workLoop].
    rewrite (workBody_writes P _ it t n eq_refl He Hs1 Hd1 Hd2) by lia.
    set (t1 := set_d_error 0 _).
    destruct (IH t1 (n - 1) (evs ++ passEvents P (d_iters t) it))
      as (t' & Ht' & He' & Hloop); auto; try lia.
    exists t'. split; [exact Ht'|]. split; [exact He'|].
    rewrite Hloop. cbn [flat_map length]. rewrite <- app_assoc.
    f_equal. lia.
Qed.

(** X23: no write failure but [ERROR_BROKEN_PIPE] ends the loop of a
    worker.  Whatever else the writes answer (another error, a short
    write), the thread goes through every pass for which [shouldRun()]
    holds, tries both writes and the flush in each pass after the first,
    and ends with code 0; when every write fails, nothing reaches the
    pipe. *)
Theorem worker_survives_other_write_errors (P : Platform) (T : elemT)
    (drv : Driver) (args : BurnThreadArgs) (host0 : Z) (first : Iteration)
    (its : list Iteration) (fw : WriteResult * WriteResult) (g : bool)
    (our : GPU_Test) :
  initOutcome drv T args host0 g = Ret our ->
  Forall (succeeds (d_iters our)) (first :: its) ->
  Forall (fun it => notBroken (writeOps it) /\ notBroken (writeErrs it)) its ->
  Z.of_nat (length its) < 2 ^ 31 - 1 ->
  startBurnThread P T drv args host0 (first :: its) fw true g
  = (EndThread 0, flat_map (passEvents P (d_iters our)) its ++ [ClosePipe], true)
  /\ (Forall (fun it => exists e1 e2, writeOps it = WriteError e1
                                      /\ writeErrs it = WriteError e2) its ->
      pipeInts (flat_map (passEvents P (d_iters our)) its ++ [ClosePipe]) = []).
Proof.
  intros Hinit Hs Hd Hlen. split.
  - destruct (startBurnThread_working P T drv args host0 (first :: its) fw true g our Hinit)
      as [He ->].
    inversion Hs as [|? ? Hs0 Hs']; subst.
    cbn [workLoop]. rewrite (workBody_first P _ first our eq_refl Hs0).
    set (t1 := set_d_faultyElemsHost _ our).
    destruct (workLoop_writes P (d_iters our) its [] t1 1 ([] ++ []) eq_refl He Hs' Hd)
      as (t' & _ & _ & Hloop); try lia.
    rewrite app_nil_r in Hloop. rewrite Hloop. reflexivity.
  - intros Hfail. rewrite pipeInts_app. cbn [pipeInts flat_map app].
    rewrite app_nil_r. clear -Hfail.
    induction Hfail as [|it its (e1 & e2 & H1 & H2) _ IH]; [reflexivity|].
    cbn [flat_map]. rewrite pipeInts_app, IH, app_nil_r.
    unfold passEvents. rewrite H1, H2. cbn [writeInt fst].
    destruct (expectedWriteError P e1), (expectedWriteError P e2); reflexivity.
Qed.

Lemma worker_survives_other_write_errors_witness :
  startBurnThread win64 FloatT driver8G burnArgs 0
                  (goodIteration 0 :: [pipeClosing; pipeClosing])
                  (Written 4, Written 4) true false
  = (EndThread 0,
     [WriteInt 26 (WriteError 232); WriteInt 0 (WriteError 232); FlushPipe;
      WriteInt 26 (WriteError 232); WriteInt 0 (WriteError 232); FlushPipe;
      ClosePipe],
     true).
Proof.
  refine (proj1 (worker_survives_other_write_errors win64 FloatT driver8G burnArgs 0
            (goodIteration 0) [pipeClosing; pipeClosing]
            (Written 4, Written 4) false
            (mkGPU_Test 0 false false "compare.ptx" 26 0 0) _ _ _ _)).
  - vm_compute. reflexivity.
  - repeat constructor.
  - repeat constructor; discriminate.
  - vm_compute. reflexivity.
Defined.

(** * Properties of [launch] and [initCuda] *)

Lemma spawnAll_lengths setup count : forall i pipes threads pipes' threads',
  length pipes = length threads ->
  spawnAll setup i count pipes threads = (pipes', threads') ->
  length pipes' = length threads'
  /\ (length pipes <= length pipes' <= length pipes + count)%nat.
Proof.
  induction count as [|count IH]; intros i pipes threads pipes' threads' Hl; cbn [spawnAll].
  - intros [= <- <-]. split; [exact Hl | lia].
  - destruct (createPipe (setup i)) as [[hRead hWrite]|].
    + destruct (beginThread (setup i)) as [hThread|].
      * intros H. apply IH in H; [|rewrite !length_app; cbn; lia].
        rewrite length_app in H. cbn in H. split; [tauto | lia].
      * intros H. apply IH in H; [|exact Hl]. split; [tauto | lia].
    + intros H. apply IH in H; [|exact Hl]. split; [tauto | lia].
Qed.

Lemma launchPlan_vectors P device_id ci cc count setup pipes threads :
  launchPlan P device_id ci cc count setup = PlanListen pipes threads ->
  length pipes = length threads
  /\ (1 <= length pipes)%nat
  /\ (-1 < device_id -> length pipes = 1%nat)
  /\ (device_id <= -1 -> ci = true /\ 0 < count /\ (length pipes <= Z.to_nat count)%nat).
Proof.
  unfold launchPlan. destruct (Z.ltb_spec (-1) device_id) as [Hd|Hd].
  - destruct (createPipe (setup 0%nat)) as [[hRead hWrite]|]; [|discriminate].
    destruct (beginThread (setup 0%nat)) as [hThread|]; [|discriminate].
    intros [= <- <-]. cbn. repeat split; auto; lia.
  - unfold initCuda, checkError. destruct ci; cbn.
    + destruct cc; cbn; [|discriminate].
      destruct (Z.eqb_spec count 0) as [->|Hc]; [discriminate|].
      destruct (Z.eqb_spec count 0) as [?|_]; [contradiction|].
      destruct (spawnAll setup 0 (Z.to_nat count) [] []) as [ps ts] eqn:Es.
      apply spawnAll_lengths in Es; [|reflexivity]. cbn [length] in Es.
      destruct ps as [|p ps]; [discriminate|].
      intros [= <- <-]. cbn [length] in *.
      split; [tauto|]. split; [lia|]. split; [lia|]. intros _.
      split; [reflexivity|]. split; [|lia].
      destruct (Z_lt_le_dec 0 count); [assumption|].
      lia.
    + cbn. discriminate.
Qed.

(** X8: [launch] calls [listenClients] only with as many thread handles
    as pipe handles and with at least one of each: exactly one when a
    device was chosen, and otherwise at most as many as CUDA counted
    devices (those whose pipe or thread could not be created are left
    out). *)
Theorem launch_passes_matching_vectors (P : Platform) (device_id : Z)
    (cuInit_ok cuDeviceGetCount_ok : bool) (deviceCount : Z)
    (setup : nat -> DeviceSetup) (clientPipes clientThreads : list Z) :
  launchPlan P device_id cuInit_ok cuDeviceGetCount_ok deviceCount setup
  = PlanListen clientPipes clientThreads ->
  length clientPipes = length clientThreads
  /\ (1 <= length clientPipes)%nat
  /\ (-1 < device_id -> length clientPipes = 1%nat)
  /\ (device_id <= -1 -> Z.of_nat (length clientPipes) <= deviceCount).
Proof.
  intros H. apply launchPlan_vectors in H.
  destruct H as (H1 & H2 & H3 & H4). repeat split; auto.
  intros Hd. destruct (H4 Hd) as (_ & Hc & Hle). lia.
Qed.

Lemma launch_passes_matching_vectors_witness :
  length [10; 14] = length [100; 102]
  /\ (1 <= length [10; 14])%nat
  /\ (-1 < -1 -> length [10; 14] = 1%nat)
  /\ (-1 <= -1 -> Z.of_nat (length [10; 14]) <= 3).
Proof.
  refine (launch_passes_matching_vectors win64 (-1) true true 3 setupSkipsOne
            [10; 14] [100; 102] _).
  vm_compute. reflexivity.
Defined.

(** X9: without a chosen device, [launch] exits with [ENODEV] when
    [cuInit] fails, but when CUDA initialises and counts zero devices the
    [std::string] thrown by [initCuda] leaves [launch] uncaught; with CUDA
    initialised, an exit of [launch] is never the [ENODEV] exit (its code
    is 1). *)
Theorem launch_without_devices (P : Platform) (runLength device_id grace : Z)
    (cuInit_ok cuDeviceGetCount_ok : bool) (deviceCount : Z)
    (setup : nat -> DeviceSetup) (startTime : Z) (hasTemp : bool)
    (spawnClock : nat -> Z) (inputs : list PassInput)
    (exitCodes : nat -> ThreadQuery) :
  device_id <= -1 ->
  let r := launch P runLength device_id grace cuInit_ok cuDeviceGetCount_ok
                  deviceCount setup startTime hasTemp spawnClock inputs exitCodes in
  (cuInit_ok = false -> r = LaunchExits (ENODEV P))
  /\ (cuInit_ok = true -> cuDeviceGetCount_ok = true -> deviceCount = 0 ->
      r = LaunchThrows (string_exn "No CUDA devices"))
  /\ (cuInit_ok = true -> forall code, r = LaunchExits code -> code = 1).
Proof.
  intros Hd r. subst r. unfold launch, launchPlan.
  destruct (Z.ltb_spec (-1) device_id) as [?|_]; [lia|].
  unfold initCuda, checkError. split; [|split].
  - intros ->. reflexivity.
  - intros -> -> ->. reflexivity.
  - intros -> code. destruct cuDeviceGetCount_ok; cbn; [|discriminate].
    destruct (Z.eqb_spec deviceCount 0) as [?|Hc]; [discriminate|].
    destruct (Z.eqb_spec deviceCount 0) as [?|_]; [contradiction|].
    destruct (spawnAll setup 0 (Z.to_nat deviceCount) [] []) as [[|p ps] ts];
      [|discriminate].
    intros [= <-]. reflexivity.
Qed.

Lemma launch_without_devices_witness :
  launch win64 10 (-1) 30 true true 0 setupSkipsOne 0 false (fun _ => 0) [] (fun _ => QueryFailed)
  = LaunchThrows (string_exn "No CUDA devices").
Proof.
  refine (proj1 (proj2 (launch_without_devices win64 10 (-1) 30 true true 0
            setupSkipsOne 0 false (fun _ => 0) [] (fun _ => QueryFailed) _))
          eq_refl eq_refl eq_refl).
  lia.
Defined.

(** What a pass in which every call returns can come to, from a state
    of the monitor that cannot fail. *)
Lemma pass_cases cfg inp m :
  steady (length (clientHandles cfg)) m ->
  Z.of_nat (length (clientHandles cfg)) < 2 ^ 31 ->
  match pass cfg inp m with
  | Next m' out =>
      steady (length (clientHandles cfg)) m'
      /\ Forall (fun ev => isLoopEvent ev = true) out
      /\ deadlinePassed cfg (thisTime inp) = false
  | Deadline => deadlinePassed cfg (thisTime inp) = true
  | Exit code out => code = ENOMEDIUM
  | Crash => False
  end.
Proof.
  intros Hs Hn.
  destruct (pass_never_crashes cfg inp m Hs Hn) as [Hnc Hnext].
  pose proof (pass_events cfg inp m) as Hev.
  destruct (pass cfg inp m) as [m1 out| |code out|] eqn:Hpass.
  - split; [now apply (Hnext m1 out)|]. split; [exact Hev|].
    unfold pass in Hpass. destruct (deadlinePassed cfg (thisTime inp)); [discriminate|].
    reflexivity.
  - unfold pass in Hpass. destruct (deadlinePassed cfg (thisTime inp)); [reflexivity|].
    destruct (pollAndReport cfg inp m) as [[m2 out2]|]; [|discriminate].
    destruct (oneAlive m2) as [[|]|]; discriminate.
  - unfold pass in Hpass. destruct (deadlinePassed cfg (thisTime inp)); [discriminate|].
    destruct (pollAndReport cfg inp m) as [[m2 out2]|]; [|discriminate].
    destruct (oneAlive m2) as [[|]|]; try discriminate.
    now injection Hpass as <- _.
  - now apply Hnc.
Qed.

(** Once the clock of some pass is past the deadline, the loop has
    stopped at the deadline or left the process with [ENOMEDIUM], unless
    a pass before waits in [updateTemps]. *)
Lemma waits_pollLoop_ends cfg answers : forall m tr,
  steady (length (clientHandles cfg)) m ->
  Z.of_nat (length (clientHandles cfg)) < 2 ^ 31 ->
  Forall (fun ev => isLoopEvent ev = true) tr ->
  Exists (fun a => deadlinePassed cfg (clockOf a) = true) answers ->
  match Waits.pollLoop cfg answers m tr with
  | Waits.Stops (AtDeadline m' _) => wf (length (clientHandles cfg)) m'
  | Waits.Stops (Exited code _) => code = ENOMEDIUM
  | Waits.Stops (Crashed _) | Waits.Stops (Polling _ _) => False
  | Waits.Waiting tr' =>
      hasTempHandle cfg = true
      /\ Exists (fun a => isWait a = true) answers
      /\ Forall (fun ev => isLoopEvent ev = true) tr'
  end.
Proof.
  induction answers as [|a answers IH]; intros m tr Hs Hn Htr Hex.
  - inversion Hex.
  - assert (Hret : forall inp, clockOf a = thisTime inp ->
              match
                match pass cfg inp m with
                | Next m' out => Waits.pollLoop cfg answers m' (tr ++ out)
                | Deadline => Waits.Stops (AtDeadline m tr)
                | Exit code out => Waits.Stops (Exited code (tr ++ out))
                | Crash => Waits.Stops (Crashed tr)
                end
              with
              | Waits.Stops (AtDeadline m' _) => wf (length (clientHandles cfg)) m'
              | Waits.Stops (Exited code _) => code = ENOMEDIUM
              | Waits.Stops (Crashed _) | Waits.Stops (Polling _ _) => False
              | Waits.Waiting tr' =>
                  hasTempHandle cfg = true
                  /\ Exists (fun a => isWait a = true) (a :: answers)
                  /\ Forall (fun ev => isLoopEvent ev = true) tr'
              end).
    { intros inp Hclock. pose proof (pass_cases cfg inp m Hs Hn) as Hp.
      destruct (pass cfg inp m) as [m1 out| |code out|].
      - destruct Hp as (Hs1 & Hout & Hd).
        assert (Hex' : Exists (fun a => deadlinePassed cfg (clockOf a) = true) answers).
        { inversion Hex as [? ? Hnow|? ? Hlater]; subst; [congruence | exact Hlater]. }
        specialize (IH m1 (tr ++ out) Hs1 Hn ltac:(apply Forall_app; auto) Hex').
        destruct (Waits.pollLoop cfg answers m1 (tr ++ out)) as [[]|tr']; try exact IH.
        destruct IH as (Ht & Hw & Hev). split; [exact Ht|].
        split; [apply Exists_cons_tl; exact Hw | exact Hev].
      - exact (proj1 Hs).
      - exact Hp.
      - exact Hp. }
    cbn [Waits.pollLoop]. destruct a as [inp|now pk]; cbn [Waits.pass].
    + apply Hret. reflexivity.
    + destruct (hasTempHandle cfg) eqn:Ht; cbn [negb].
      * destruct (deadlinePassed cfg now); [exact (proj1 Hs)|].
        destruct (for_loop_total (steady (length (clientHandles cfg)))
                    (pollClient pk) (length (clientHandles cfg))
                    (fun j t Hj Hst => pollClient_total _ pk j t Hst Hj)
                    (length (clientHandles cfg)) 0%nat m ltac:(lia) Hs)
          as (s1 & Hpoll & _).
        rewrite Hpoll. split; [reflexivity|].
        split; [apply Exists_cons_hd; reflexivity | exact Htr].
      * apply (Hret (mkPassInput now pk TempNothing)). reflexivity.
Qed.

(** Over passes in which every call returns, the run is the one of
    [listenClients] above. *)
Lemma waits_listenClients_returns cfg spawnClock inputs exitCodes :
  Waits.listenClients cfg spawnClock (Returns <$> inputs) exitCodes
  = Waits.Finished (listenClients cfg spawnClock inputs exitCodes).
Proof.
  unfold Waits.listenClients, listenClients.
  assert (H : forall m tr, Waits.pollLoop cfg (Returns <$> inputs) m tr
                           = Waits.Stops (pollLoop cfg inputs m tr)).
  { induction inputs as [|inp inputs IH]; intros m tr; cbn; [reflexivity|].
    destruct (pass cfg inp m); try reflexivity. apply IH. }
  rewrite H.
  destruct (pollLoop cfg inputs _ _) as [m tr|code tr|tr|m tr]; try reflexivity.
  destruct (shutdown cfg exitCodes m); reflexivity.
Qed.

Lemma waits_launch_returns P runLength device_id grace ci cc deviceCount setup
    startTime hasTemp spawnClock inputs exitCodes :
  Waits.launch P runLength device_id grace ci cc deviceCount setup startTime hasTemp
               spawnClock (Returns <$> inputs) exitCodes
  = match launch P runLength device_id grace ci cc deviceCount setup startTime hasTemp
                 spawnClock inputs exitCodes with
    | LaunchExits code => Waits.LaunchExits code
    | LaunchThrows e => Waits.LaunchThrows e
    | LaunchRan r => Waits.LaunchRan (Waits.Finished r)
    end.
Proof.
  unfold Waits.launch, launch.
  destruct (launchPlan _ _ _ _ _ _); try reflexivity.
  now rewrite waits_listenClients_returns.
Qed.

(** X10: a run that [launch] starts comes to an end, unless the monitor
    is left waiting in [updateTemps].  Whatever the number of devices and
    whichever pipes and threads could be created, once the clock of some
    pass is beyond the deadline the monitor has returned from
    [listenClients] or left the process with [ENOMEDIUM] (it neither goes
    on polling nor dies of an exception), or else it waits in the read
    loop of [updateTemps] for the end of a line.  It can wait only when
    the temperature tool was started and one of its lines stays
    unfinished; the monitor then never clears [g_running], and the run
    does not end at its deadline. *)
Theorem launch_run_ends_or_waits (P : Platform) (runLength device_id grace : Z)
    (cuInit_ok cuDeviceGetCount_ok : bool) (deviceCount : Z)
    (setup : nat -> DeviceSetup) (startTime : Z) (hasTemp : bool)
    (spawnClock : nat -> Z) (answers : list PassAnswer)
    (exitCodes : nat -> ThreadQuery) (r : Waits.RunEnd) :
  is_int32 deviceCount ->
  Exists (fun a => (to_int64 (startTime + runLength) <? clockOf a) = true) answers ->
  Waits.launch P runLength device_id grace cuInit_ok cuDeviceGetCount_ok deviceCount
               setup startTime hasTemp spawnClock answers exitCodes
  = Waits.LaunchRan r ->
  match r with
  | Waits.Finished r' => ended r'
  | Waits.WaitsInUpdateTemps tr =>
      hasTemp = true
      /\ Exists (fun a => isWait a = true) answers
      /\ (forall g, runningAfter g tr = g)
  end.
Proof.
  intros Hc Hdl. unfold Waits.launch.
  destruct (launchPlan _ _ _ _ _ _) as [code|e|pipes threads] eqn:Ep; try discriminate.
  intros [= <-]. apply launchPlan_vectors in Ep.
  destruct Ep as (Hlen & Hone & Hsingle & Hall).
  set (cfg := mkConfig pipes threads runLength grace startTime hasTemp).
  assert (Hn : Z.of_nat (length (clientHandles cfg)) < 2 ^ 31).
  { cbn. unfold is_int32 in Hc.
    destruct (Z_lt_le_dec (-1) device_id) as [Hd|Hd].
    - rewrite (Hsingle Hd). cbn. lia.
    - destruct (Hall Hd) as (_ & Hpos & Hle). lia. }
  assert (Hs0 : steady (length (clientHandles cfg))
                  (monitor_init (length (clientHandles cfg)) spawnClock)).
  { split; [apply wf_init|]. cbn. lia. }
  assert (Hstart : Forall (fun ev => isLoopEvent ev = true) (startTrace cfg)).
  { unfold startTrace. destruct (hasTempHandle cfg); repeat constructor. }
  pose proof (waits_pollLoop_ends cfg answers _ _ Hs0 Hn Hstart Hdl) as Hloop.
  unfold Waits.listenClients.
  destruct (Waits.pollLoop cfg answers _ _) as [[m tr|code tr|tr|m tr]|tr];
    try contradiction.
  - destruct (shutdown_total cfg exitCodes m (eq_sym Hlen) Hloop) as (rest & Hsh & _).
    rewrite Hsh. exact I.
  - exact Hloop.
  - destruct Hloop as (Ht & Hw & Hev). split; [exact Ht|]. split; [exact Hw|].
    apply loop_events_quiet. exact Hev.
Qed.

Lemma launch_run_ends_or_waits_witness :
  true = true
  /\ Exists (fun a => isWait a = true)
            [Returns (idlePass 1005); TempReadWaits 1006 (peek (idlePass 1006));
             Returns (idlePass 1011)]
  /\ (forall g, runningAfter g [SleepMs 50] = g).
Proof.
  refine (launch_run_ends_or_waits win64 10 (-1) 30 true true 3 setupSkipsOne 1000 true
            (fun _ => 0)
            [Returns (idlePass 1005); TempReadWaits 1006 (peek (idlePass 1006));
             Returns (idlePass 1011)]
            (fun _ => ExitCode 0) (Waits.WaitsInUpdateTemps [SleepMs 50]) _ _ _).
  - unfold is_int32. lia.
  - apply Exists_cons_tl. apply Exists_cons_tl. apply Exists_cons_hd.
    vm_compute. reflexivity.
  - vm_compute. reflexivity.
Defined.

(** * Properties of [decodeUSEMEM] and [initBuffers] *)

Lemma to_int64_mul_l a b : to_int64 (to_int64 a * b) = to_int64 (a * b).
Proof.
  unfold to_int64, two64.
  rewrite (Z.mod_eq (a + 2 ^ 63) (2 ^ 64)) by lia.
  replace ((a + 2 ^ 63 - 2 ^ 64 * ((a + 2 ^ 63) / 2 ^ 64) - 2 ^ 63) * b + 2 ^ 63)
    with (a * b + 2 ^ 63 + (- b * ((a + 2 ^ 63) / 2 ^ 64)) * 2 ^ 64) by lia.
  now rewrite Z_mod_plus_full.
Qed.

(** [strtoll] on a decimal numeral with a minus sign. *)
Lemma strtoll_minus ds rest :
  ds <> [] -> Forall is_digit ds -> stops rest ->
  strtoll (String "-" (digitString ds ++ rest))
  = Some (clamp_int64 (- digitsValue ds), rest).
Proof.
  intros Hne Hds Hrest. destruct ds as [|d ds]; [congruence|].
  pose proof (read_digits_digitString (d :: ds) 0 rest Hds) as Hrd.
  rewrite (read_digits_stops _ rest Hrest) in Hrd.
  inversion Hds as [|? ? Hd Hds']; subst.
  unfold digitsValue.
  cbn [digitString String.append] in *.
  each_digit Hd.
  all: unfold strtoll.
  all: match goal with
       | |- context [digitChar ?d] =>
           let c := eval vm_compute in (digitChar d) in
           change (digitChar d) with c in *
       end.
  all: cbn [skip_spaces].
  all: match goal with
       | |- context [isspace ?c] =>
           let b := eval vm_compute in (isspace c) in
           change (isspace c) with b
       end.
  all: cbv beta iota.
  all: match goal with
       | |- context [digit_value ?c] =>
           let v := eval vm_compute in (digit_value c) in
           change (digit_value c) with v
       end.
  all: cbv beta iota; rewrite Hrd; reflexivity.
Qed.

(** X11: [decodeUSEMEM] gives 0, which [main] takes for a syntax error,
    for a numeral followed by anything but a lone percent sign, and also
    for the numeral zero itself, with or without the percent sign: a
    request for 0 MB or for 0% cannot be made. *)
Theorem memory_option_rejected (ds : list Z) (rest : string) :
  ds <> [] -> Forall is_digit ds ->
  (stops rest -> rest <> EmptyString -> rest <> "%"%string ->
   decodeUSEMEM (digitString ds ++ rest) = 0
   /\ main_useBytes (Some (digitString ds ++ rest)%string) = None)
  /\ (digitsValue ds = 0 ->
      main_useBytes (Some (digitString ds)) = None
      /\ main_useBytes (Some (digitString ds ++ "%")%string) = None).
Proof.
  intros Hne Hds. split.
  - intros Hstop Hn1 Hn2.
    assert (E : decodeUSEMEM (digitString ds ++ rest) = 0).
    { unfold decodeUSEMEM. rewrite (strtoll_digitString ds rest Hne Hds Hstop).
      destruct rest as [|c [|c' r]]; [congruence | | ].
      - destruct (ascii_dec c "%") as [->|Hc]; [congruence|].
        destruct c as [[] [] [] [] [] [] [] []]; try reflexivity; congruence.
      - destruct c as [[] [] [] [] [] [] [] []]; reflexivity. }
    split; [exact E|]. unfold main_useBytes. rewrite E. reflexivity.
  - intros Hz. split.
    + unfold main_useBytes. rewrite (decodeUSEMEM_plain ds Hne Hds) by (rewrite Hz; lia).
      rewrite Hz. reflexivity.
    + unfold main_useBytes. rewrite (decodeUSEMEM_percent ds Hne Hds) by (rewrite Hz; lia).
      rewrite Hz. reflexivity.
Qed.

Lemma memory_option_rejected_witness :
  main_useBytes (Some (digitString [4] ++ "GB")%string) = None
  /\ main_useBytes (Some (digitString [0])) = None.
Proof.
  pose proof (memory_option_rejected [4] "GB") as H.
  destruct H as [H1 _]; [discriminate | repeat constructor; unfold is_digit; lia |].
  pose proof (memory_option_rejected [0] EmptyString) as H.
  destruct H as [_ H2]; [discriminate | repeat constructor; unfold is_digit; lia |].
  split.
  - apply H1; [reflexivity | discriminate | discriminate].
  - apply H2. reflexivity.
Defined.

(** X12: a minus sign exchanges the two readings of the memory option.
    ["-N%"] decodes to the positive [N], which [initBuffers] takes as [N]
    bytes, and ["-N"] decodes to minus [N] MiB, which [initBuffers] takes
    as the percentage [N * 1048576] of the free memory. *)
Theorem memory_option_minus_sign (drv : Driver) (ds : list Z) :
  queries_ok drv ->
  ds <> [] -> Forall is_digit ds ->
  let N := digitsValue ds in
  0 < N -> N * 1048576 < 2 ^ 63 ->
  (decodeUSEMEM (String "-" (digitString ds ++ "%")) = N
   /\ usableBytes drv N = Ret N)
  /\ (decodeUSEMEM (String "-" (digitString ds)) = - (N * 1048576)
      /\ usableBytes drv (- (N * 1048576))
         = Ret (useBytes_percent (freeMem drv) (- (N * 1048576)))).
Proof.
  intros Hq Hne Hds N Hpos Hfit. subst N.
  rewrite !(usableBytes_ok drv _ Hq). repeat split.
  - unfold decodeUSEMEM. rewrite (strtoll_minus ds "%" Hne Hds) by reflexivity.
    rewrite clamp_int64_id by (unfold is_int64; lia).
    rewrite Z.opp_involutive. apply to_int64_id. unfold is_int64. lia.
  - f_equal. unfold usableOf.
    destruct (Z.eqb_spec (digitsValue ds) 0); [lia|].
    destruct (Z.ltb_spec (digitsValue ds) 0); [lia | reflexivity].
  - unfold decodeUSEMEM. rewrite <- (string_app_empty (digitString ds)).
    rewrite (strtoll_minus ds EmptyString Hne Hds) by exact I.
    rewrite clamp_int64_id by (unfold is_int64; lia).
    rewrite (to_int64_id (- digitsValue ds * 1024)) by (unfold is_int64; lia).
    rewrite to_int64_id by (unfold is_int64; lia). lia.
  - f_equal. unfold usableOf.
    destruct (Z.eqb_spec (- (digitsValue ds * 1048576)) 0); [lia|].
    destruct (Z.ltb_spec (- (digitsValue ds * 1048576)) 0); [reflexivity | lia].
Qed.

Lemma memory_option_minus_sign_witness :
  (decodeUSEMEM "-50%" = 50 /\ usableBytes driver8G 50 = Ret 50)
  /\ (decodeUSEMEM "-50" = - (50 * 1048576)
      /\ usableBytes driver8G (- (50 * 1048576))
         = Ret (useBytes_percent (freeMem driver8G) (- (50 * 1048576)))).
Proof.
  refine (memory_option_minus_sign driver8G [5; 0] _ _ _ _ _).
  - split; reflexivity.
  - discriminate.
  - repeat constructor; unfold is_digit; lia.
  - vm_compute. reflexivity.
  - vm_compute. reflexivity.
Defined.

(** X13: the plain form of the memory option is the MiB count times
    [2^20] wrapped to 64 bits, for every numeral that [strtoll] does not
    saturate: a count from [2^43] on loses its upper bits, so that [2^44]
    MiB decodes to 0 (the syntax error) and [2^43] MiB to a negative
    number (a percentage). *)
Theorem memory_option_wraps (ds : list Z) :
  ds <> [] -> Forall is_digit ds -> digitsValue ds < 2 ^ 63 ->
  decodeUSEMEM (digitString ds) = to_int64 (digitsValue ds * 1048576).
Proof.
  intros Hne Hds Hmax. unfold decodeUSEMEM.
  rewrite <- (string_app_empty (digitString ds)).
  rewrite (strtoll_digitString ds EmptyString Hne Hds) by exact I.
  pose proof (digitsValue_nonneg ds Hds) as Hpos.
  rewrite clamp_int64_id by (unfold is_int64; lia).
  rewrite to_int64_mul_l. f_equal. lia.
Qed.

Lemma memory_option_wraps_witness :
  decodeUSEMEM "17592186044416" = to_int64 (digitsValue [1;7;5;9;2;1;8;6;0;4;4;4;1;6] * 1048576)
  /\ to_int64 (digitsValue [1;7;5;9;2;1;8;6;0;4;4;4;1;6] * 1048576) = 0.
Proof.
  split; [|vm_compute; reflexivity].
  refine (memory_option_wraps [1;7;5;9;2;1;8;6;0;4;4;4;1;6] _ _ _).
  - discriminate.
  - repeat constructor; unfold is_digit; lia.
  - vm_compute. reflexivity.
Defined.

(** X14: whenever [initBuffers] returns normally, whatever the driver
    answered, the buffers it asked for fit the byte count it settled on:
    there is at least one result buffer, the [d_iters] result buffers and
    the two inputs together do not exceed that count, one more buffer
    would, and the size asked for the results is [d_iters] buffers without
    wrap-around. *)
Theorem initBuffers_buffers_fit (drv : Driver) (T : elemT) (useBytes : Z)
    (t t' : GPU_Test) :
  initBuffers drv T useBytes t = (Ret tt, t') ->
  exists usable,
    usableBytes drv useBytes = Ret usable
    /\ 1 <= d_iters t'
    /\ (d_iters t' + 2) * resultSize T <= to_uint64 usable
       < (d_iters t' + 3) * resultSize T
    /\ cuMemAlloc_ok drv (d_iters t' * resultSize T) = true.
Proof.
  unfold initBuffers.
  destruct (bind drv;; _) as [usable|e] eqn:E0; [|discriminate].
  assert (Hu : usableBytes drv useBytes = Ret usable).
  { revert E0. unfold bind, checkError. destruct (cuCtxSetCurrent_ok drv); [|discriminate].
    cbn. destruct (usableBytes drv useBytes) as [u|]; [|discriminate]. cbn.
    destruct (totalMemory drv); [|discriminate]. cbn.
    destruct (availMemory drv); [|discriminate]. cbn. congruence. }
  pose proof (resultSize_pos T) as HR.
  pose proof (to_uint64_range usable) as HU. unfold is_uint64 in HU.
  rewrite (to_uint64_id (3 * resultSize T)) by (unfold is_uint64; lia).
  destruct (Z.ltb_spec (to_uint64 usable) (3 * resultSize T)) as [?|Hok]; [discriminate|].
  intros [= Hrest <-]. exists usable. split; [exact Hu|].
  unfold set_d_iters in *. cbn [d_iters] in *.
  rewrite (itersFor_exact T usable Hok) in *.
  set (u := to_uint64 usable) in *. set (R := resultSize T) in *.
  assert (Hq : 1 <= (u - 2 * R) / R) by (apply Z.div_le_lower_bound; lia).
  assert (Hlo : R * ((u - 2 * R) / R) <= u - 2 * R) by (apply Z.mul_div_le; lia).
  assert (Hhi : u - 2 * R < R * Z.succ ((u - 2 * R) / R))
    by (apply Z.mul_succ_div_gt; lia).
  split; [exact Hq|]. split; [nia|].
  revert Hrest. unfold checkError.
  rewrite (to_uint64_id ((u - 2 * R) / R * R)) by (unfold is_uint64; nia).
  destruct (cuMemAlloc_ok drv ((u - 2 * R) / R * R)); [reflexivity | discriminate].
Qed.

Lemma initBuffers_buffers_fit_witness :
  exists usable,
    usableBytes driver8G 0 = Ret usable
    /\ 1 <= d_iters (set_d_iters 26 worker3)
    /\ (d_iters (set_d_iters 26 worker3) + 2) * resultSize FloatT <= to_uint64 usable
       < (d_iters (set_d_iters 26 worker3) + 3) * resultSize FloatT
    /\ cuMemAlloc_ok driver8G (d_iters (set_d_iters 26 worker3) * resultSize FloatT) = true.
Proof.
  refine (initBuffers_buffers_fit driver8G FloatT 0 worker3 (set_d_iters 26 worker3) _).
  vm_compute. reflexivity.
Defined.

(** * Further properties of the monitor *)

Lemma reportsErrors_false inp i bytes t p e :
  reportsErrors inp i = false ->
  peek inp i = Peeked bytes t (ReadInt p) (ReadInt e) -> 8 <= bytes -> e = 0.
Proof.
  unfold reportsErrors. intros H Hpk Hb. rewrite Hpk in H.
  destruct (Z.leb_spec 8 bytes); [|lia]. cbn in H.
  destruct (Z.eqb_spec e 0); [auto | discriminate].
Qed.

(** The polling loop leaves the empty error window of a client empty when
    the client reports no errors. *)
Lemma poll_loop_clean n inp i m s :
  wf n m -> (i < n)%nat -> reportsErrors inp i = false ->
  clientErrors m !! i = Some 0 ->
  for_loop (pollClient (peek inp)) 0 n m = Some s ->
  clientErrors s !! i = Some 0.
Proof.
  intros Hwf Hi Hclean He Hloop.
  assert (H : wf n s /\ clientErrors s !! i = Some 0); [|tauto].
  apply (for_loop_ind (fun _ s => wf n s /\ clientErrors s !! i = Some 0)
                      (pollClient (peek inp)) n 0 m s); [|auto|exact Hloop].
  clear s Hloop. intros j s1 s2 Hj [Hwf1 He1] Hbody.
  destruct (consumedBy (peek inp) j) eqn:Ec.
  - destruct (consumedBy_true _ _ Ec) as (bytes & t & p & e & Hpk & Hb).
    destruct (pollClient_consumed n (peek inp) j s1 bytes t p e Hwf1 ltac:(lia) Hpk Hb)
      as (e0 & c0 & t0 & f0 & He0 & Happ).
    rewrite Happ in Hbody. injection Hbody as <-.
    split; [apply applied_wf; exact Hwf1|].
    rewrite applied_errors. destruct (decide (j = i)) as [->|Hne].
    + rewrite He1 in He0. injection He0 as <-.
      rewrite (reportsErrors_false inp i bytes t p e Hclean Hpk Hb).
      apply list_lookup_insert_eq. destruct Hwf1. lia.
    + rewrite list_lookup_insert_ne by exact Hne. exact He1.
  - destruct (pollClient_quiet _ _ _ _ Ec Hbody) as [->| ->].
    + auto.
    + split; [apply set_dead_wf; exact Hwf1 | exact He1].
Qed.

(** The marking loop sets no flag for a client whose window is empty. *)
Lemma markFaulty_loop_clean i count s s' : forall j0,
  clean i s -> for_loop markFaulty j0 count s = Some s' ->
  clean i s' /\ clientErrors s' = clientErrors s.
Proof.
  intros j0 Hc Hloop.
  apply (for_loop_inv (fun s' => clean i s' /\ clientErrors s' = clientErrors s)
                      markFaulty) with (count := count) (i := j0) (s := s);
    [|auto|exact Hloop].
  clear s' Hloop. intros j s1 s2 [[He1 Hf1] Heq] Hbody.
  unfold markFaulty in Hbody.
  destruct (vec_at (clientErrors s1) j) as [e|] eqn:Ee; cbn in Hbody; [|discriminate].
  destruct (Z.eqb_spec e 0) as [->|Hne].
  - injection Hbody as <-. repeat split; assumption.
  - destruct (vec_set (clientFaulty s1) j true) as [fv|] eqn:E;
      cbn in Hbody; [|discriminate].
    apply vec_set_Some in E. destruct E as [-> Hlt]. injection Hbody as <-.
    unfold clean. cbn. split; [split; [exact He1|] | exact Heq].
    destruct (decide (j = i)) as [->|Hji].
    + unfold vec_at in Ee. congruence.
    + rewrite list_lookup_insert_ne by exact Hji. exact Hf1.
Qed.

Lemma resetErrors_loop_clean i count s s' : forall j0,
  clean i s -> for_loop resetErrors j0 count s = Some s' -> clean i s'.
Proof.
  intros j0 Hc Hloop.
  apply (for_loop_inv (clean i) resetErrors) with (count := count) (i := j0) (s := s);
    [|exact Hc|exact Hloop].
  clear s' Hloop Hc. intros j s1 s2 [He1 Hf1] Hbody.
  unfold resetErrors in Hbody.
  destruct (vec_set (clientErrors s1) j 0) as [ev|] eqn:E; cbn in Hbody; [|discriminate].
  apply vec_set_Some in E. destruct E as [-> Hlt]. injection Hbody as <-.
  unfold clean. cbn. split; [|exact Hf1].
  destruct (decide (j = i)) as [->|Hji].
  - apply list_lookup_insert_eq. exact Hlt.
  - rewrite list_lookup_insert_ne by exact Hji. exact He1.
Qed.

Lemma report_clean i el s s' out :
  clean i s -> report el s = Some (s', out) -> clean i s'.
Proof.
  intros Hc. unfold report.
  destruct (progressLine el s) as [line|]; cbn; [|discriminate].
  destruct (for_loop markFaulty 0 (length (clientErrors s)) s) as [s3|] eqn:Hmark;
    cbn; [|discriminate].
  destruct (markFaulty_loop_clean i _ s s3 0%nat Hc Hmark) as [Hc3 _].
  destruct (fl_lt (nextReport s3) el).
  - destruct (for_loop resetErrors 0 _ _) as [s5|] eqn:Hreset; cbn; [|discriminate].
    intros [= <- <-].
    apply (resetErrors_loop_clean i _ _ s5 0%nat) in Hreset; [exact Hreset | exact Hc3].
  - intros [= <- <-]. exact Hc3.
Qed.

Lemma pollAndReport_clean cfg inp i m m' out :
  wf (length (clientHandles cfg)) m -> (i < length (clientHandles cfg))%nat ->
  reportsErrors inp i = false -> clean i m ->
  pollAndReport cfg inp m = Some (m', out) -> clean i m'.
Proof.
  intros Hwf Hi Hq [He Hf]. unfold pollAndReport.
  set (n := length (clientHandles cfg)) in *.
  destruct (for_loop (pollClient (peek inp)) 0 n m) as [s1|] eqn:Hpoll; cbn; [|discriminate].
  destruct (poll_loop_facts n (peek inp) m s1 Hwf Hpoll) as (Hwf1 & Hp).
  pose proof (poll_loop_clean n inp i m s1 Hwf Hi Hq He Hpoll) as He1.
  assert (Hc1 : clean i s1).
  { split; [exact He1|]. destruct Hp as [Hfa1 _ _ _ _]. now rewrite Hfa1. }
  match goal with
  | |- context [mbind _ ?x] => destruct x as [s2|] eqn:Htemp; cbn; [|discriminate]
  end.
  assert (Hc2 : clean i s2).
  { destruct (hasTempHandle cfg); [|injection Htemp as <-; exact Hc1].
    destruct (tempPeek inp) as [|line]; [injection Htemp as <-; exact Hc1|].
    destruct (updateTemps_facts n line s1 s2 Hwf1 Htemp) as (_ & E1 & E2 & _).
    unfold clean. rewrite E1, E2. exact Hc1. }
  destruct (childReport s2).
  - apply report_clean. exact Hc2.
  - intros [= <- <-]. exact Hc2.
Qed.

Lemma pollLoop_clean cfg i inputs : forall m tr m',
  (i < length (clientHandles cfg))%nat ->
  Forall (fun inp => reportsErrors inp i = false) inputs ->
  good cfg m -> clean i m ->
  stateOf (pollLoop cfg inputs m tr) = Some m' -> clean i m'.
Proof.
  induction inputs as [|inp inputs IH]; intros m tr m' Hi Hq Hgood Hc; cbn [pollLoop].
  - intros [= <-]. exact Hc.
  - inversion Hq as [|? ? Hq1 Hq']; subst.
    destruct (pass cfg inp m) as [m1 out| |code out|] eqn:Hpass; cbn; try discriminate.
    + destruct (pass_next_facts cfg inp m m1 out Hgood Hpass) as (Hgood1 & _).
      apply IH; try assumption.
      unfold pass in Hpass.
      destruct (deadlinePassed cfg (thisTime inp)); [discriminate|].
      destruct (pollAndReport cfg inp m) as [[m2 out2]|] eqn:Hpr; [|discriminate].
      destruct (oneAlive m2) as [[]|]; try discriminate.
      injection Hpass as <- _.
      destruct Hgood as [Hwf _].
      exact (pollAndReport_clean cfg inp i m m2 out2 Hwf Hi Hq1 Hc Hpr).
    + intros [= <-]. exact Hc.
Qed.

(** The verdict lines of the final report say what the flags say. *)
Lemma shutdown_verdict_inv cfg exitCodes m tr i v :
  shutdown cfg exitCodes m = Some tr -> In (Verdict i v) tr ->
  exists f, clientFaulty m !! i = Some f /\ v = verdict f.
Proof.
  unfold shutdown.
  destruct (mapM _ (seq 0 (length (clientHandles cfg)))) as [closes|] eqn:Ec;
    cbn; [|discriminate].
  destruct (mapM _ (seq 0 (length (clientThreads cfg)))) as [verdicts|] eqn:Ev;
    cbn; [|discriminate].
  intros [= <-] Hin.
  assert (Hcl : Forall (fun ev => isVerdict ev = false) (concat closes)).
  { apply Forall_concat.
    apply (mapM_Forall _ (Forall (fun ev => isVerdict ev = false)) _ _ Ec).
    intros x y. destruct (clientHandles cfg !! x); cbn; [|discriminate].
    destruct (clientThreads cfg !! x); cbn; [|discriminate].
    intros [= <-]. repeat constructor. }
  assert (Hvs : Forall (fun ev => forall j w, ev = Verdict j w ->
                  exists f, clientFaulty m !! j = Some f /\ w = verdict f) verdicts).
  { apply (mapM_Forall _ _ _ _ Ev).
    intros x y. unfold vec_at. destruct (clientFaulty m !! x) as [f|] eqn:Ef; cbn; [|discriminate].
    intros [= <-] j w [= <- <-]. eauto. }
  repeat (destruct Hin as [Hin|Hin]; [discriminate|]).
  apply in_app_or in Hin. destruct Hin as [Hin|Hin].
  { apply in_flat_map in Hin. destruct Hin as (x & _ & Hx).
    unfold reapThread in Hx. destruct (exitCodes x) as [c|]; [|destruct Hx].
    destruct (c =? STILL_ACTIVE); [|destruct Hx].
    destruct Hx as [Hx|[]]. discriminate. }
  apply in_app_or in Hin. destruct Hin as [Hin|Hin].
  { destruct (hasTempHandle cfg); [|destruct Hin].
    repeat (destruct Hin as [Hin|Hin]; [discriminate|]). destruct Hin. }
  apply in_app_or in Hin. destruct Hin as [Hin|Hin].
  { rewrite Forall_forall in Hcl. apply list_elem_of_In, Hcl in Hin. discriminate. }
  repeat (destruct Hin as [Hin|Hin]; [discriminate|]).
  rewrite Forall_forall in Hvs. apply list_elem_of_In in Hin.
  exact (Hvs _ Hin i v eq_refl).
Qed.

(** X15: the final report says [OK] for a client, and not [FAULTY],
    whenever no pass read a report with a nonzero error count from its
    pipe: the flag is set by nothing else.  In particular a client whose
    pipe is found broken without a report having been read from it is
    reported [OK]. *)
Theorem client_without_error_reports_is_ok (cfg : Config) (spawnClock : nat -> Z)
    (inputs : list PassInput) (exitCodes : nat -> ThreadQuery) (i : nat)
    (tr : list Event) :
  (i < length (clientHandles cfg))%nat ->
  (i < length (clientThreads cfg))%nat ->
  Forall (fun inp => reportsErrors inp i = false) inputs ->
  listenClients cfg spawnClock inputs exitCodes = Returned tr ->
  In (Verdict i "OK") tr /\ ~ In (Verdict i "FAULTY") tr.
Proof.
  intros Hi Hit Hq Hret.
  destruct (listenClients_returned cfg spawnClock inputs exitCodes tr Hret)
    as (m & tr1 & tr2 & Hloop & Hshut & ->).
  set (n := length (clientHandles cfg)) in *.
  assert (Hc0 : clean i (monitor_init n spawnClock)).
  { split; cbn; apply lookup_replicate_2; exact Hi. }
  assert (Hc : clean i m).
  { apply (pollLoop_clean cfg i inputs (monitor_init n spawnClock) (startTrace cfg) m Hi Hq
             (good_init cfg spawnClock) Hc0).
    rewrite Hloop. reflexivity. }
  destruct Hc as [_ Hf]. split.
  - apply in_or_app. right.
    exact (shutdown_verdict cfg exitCodes m tr2 i false Hshut Hit Hf).
  - intros Hin. apply in_app_or in Hin. destruct Hin as [Hin|Hin].
    + assert (Hstart : Forall (fun ev => isLoopEvent ev = true) (startTrace cfg)).
      { unfold startTrace. destruct (hasTempHandle cfg); repeat constructor. }
      pose proof (pollLoop_events cfg inputs (monitor_init n spawnClock)
                    (startTrace cfg) Hstart) as Hev.
      rewrite Hloop in Hev. rewrite Forall_forall in Hev.
      apply list_elem_of_In, Hev in Hin. discriminate.
    + destruct (shutdown_verdict_inv cfg exitCodes m tr2 i "FAULTY" Hshut Hin)
        as (f & Hf' & Hv).
      rewrite Hf in Hf'. injection Hf' as <-. discriminate.
Qed.

Lemma client_without_error_reports_is_ok_witness :
  exists tr,
    listenClients cfgTwo (fun _ => 0) [passSilentDeath; passLate] exitCodesTwo
    = Returned tr
    /\ peek passSilentDeath 1 = PeekFailed ERROR_BROKEN_PIPE
    /\ In (Verdict 1 "OK") tr /\ ~ In (Verdict 1 "FAULTY") tr.
Proof.
  destruct (listenClients cfgTwo (fun _ => 0) [passSilentDeath; passLate] exitCodesTwo)
    as [tr| | |] eqn:E; try (vm_compute in E; discriminate).
  exists tr. split; [reflexivity|]. split; [reflexivity|].
  refine (client_without_error_reports_is_ok cfgTwo (fun _ => 0)
            [passSilentDeath; passLate] exitCodesTwo 1 tr _ _ _ E).
  - cbn. lia.
  - cbn. lia.
  - repeat constructor.
Defined.

(** The polling loop marks every client whose pipe is broken. *)
Lemma poll_loop_all_broken n inp m s :
  wf n m -> allPipesBroken n inp ->
  for_loop (pollClient (peek inp)) 0 n m = Some s ->
  allDead s.
Proof.
  intros Hwf Hall Hloop.
  assert (H : wf n s /\ forall k, (k < 0 + n)%nat -> clientCalcs s !! k = Some (-1)).
  { apply (for_loop_ind
             (fun j s => wf n s /\ forall k, (k < j)%nat -> clientCalcs s !! k = Some (-1))
             (pollClient (peek inp)) n 0 m s); [| |exact Hloop].
    - clear s Hloop. intros j s1 s2 Hj [Hwf1 Hd] Hbody.
      unfold pollClient in Hbody. rewrite (Hall j) in Hbody by lia.
      rewrite Z.eqb_refl in Hbody.
      destruct (vec_at (clientCalcs s1) j) as [c|] eqn:Ec; cbn in Hbody; [|discriminate].
      destruct (Z.eqb_spec c (-1)) as [->|Hc].
      + injection Hbody as <-. split; [exact Hwf1|].
        intros k Hk. destruct (decide (k = j)) as [->|Hkj]; [exact Ec | apply Hd; lia].
      + destruct (vec_set (clientCalcs s1) j (-1)) as [cc|] eqn:E;
          cbn in Hbody; [|discriminate].
        apply vec_set_Some in E. destruct E as [-> Hlt]. injection Hbody as <-.
        split; [apply set_dead_wf; exact Hwf1|].
        intros k Hk. cbn. destruct (decide (k = j)) as [->|Hkj].
        * apply list_lookup_insert_eq. exact Hlt.
        * rewrite list_lookup_insert_ne by congruence. apply Hd. lia.
    - split; [exact Hwf | intros; lia]. }
  destruct H as [Hwfs Hd]. unfold allDead.
  apply Forall_lookup. intros k c Hk.
  pose proof (lookup_lt_Some _ _ _ Hk) as Hlt.
  rewrite Hd in Hk by (destruct Hwfs; lia). congruence.
Qed.

(** X16: a pass before the deadline in which every pipe is found broken
    ends the process with [exit(ENOMEDIUM)], from any state of the monitor
    and whatever the clients had reported before; the last thing printed
    is the complaint that no client is alive, and the final report with
    the verdicts is never printed. *)
Theorem all_pipes_broken_exits (cfg : Config) (inp : PassInput) (m : Monitor) :
  steady (length (clientHandles cfg)) m ->
  Z.of_nat (length (clientHandles cfg)) < 2 ^ 31 ->
  deadlinePassed cfg (thisTime inp) = false ->
  allPipesBroken (length (clientHandles cfg)) inp ->
  exists out,
    pass cfg inp m = Exit ENOMEDIUM (out ++ [NoClientsAlive])
    /\ Forall (fun ev => isVerdict ev = false) out
    /\ forall inputs tr, pollLoop cfg (inp :: inputs) m tr
                         = Exited ENOMEDIUM (tr ++ out ++ [NoClientsAlive]).
Proof.
  intros Hst Hn Hdl Hall.
  set (n := length (clientHandles cfg)) in *.
  assert (Hpr : exists m' out, pollAndReport cfg inp m = Some (m', out) /\ allDead m').
  { unfold pollAndReport. fold n.
    destruct (for_loop_total (steady n) (pollClient (peek inp)) n
                (fun j s Hj Hs => pollClient_total n (peek inp) j s Hs Hj)
                n 0 m ltac:(lia) Hst) as (s1 & Hpoll & Hst1).
    rewrite Hpoll. cbn.
    destruct Hst as [Hwf _].
    pose proof (poll_loop_all_broken n inp m s1 Hwf Hall Hpoll) as Hd1.
    assert (H2 : exists s2,
               (if hasTempHandle cfg
                then match tempPeek inp with
                     | TempData line => updateTemps line s1
                     | TempNothing => Some s1
                     end
                else Some s1) = Some s2
               /\ steady n s2 /\ clientCalcs s2 = clientCalcs s1).
    { destruct (hasTempHandle cfg); [|eauto].
      destruct (tempPeek inp) as [|line]; [eauto|].
      destruct (updateTemps_total n line s1 Hst1 Hn) as (s2 & Hu & Hst2).
      destruct Hst1 as [Hwf1 _].
      destruct (updateTemps_facts n line s1 s2 Hwf1 Hu) as (_ & _ & _ & Hc & _).
      eauto. }
    destruct H2 as (s2 & -> & Hst2 & Hc2). cbn.
    destruct (childReport s2).
    - destruct (report_total n (elapsedPercent (thisTime inp) (startTime cfg) (runTime cfg))
                  s2 Hst2) as (s3 & out & Hrep & _).
      destruct Hst2 as [Hwf2 _].
      destruct (report_facts n _ s2 s3 out Hwf2 Hrep) as (_ & _ & _ & _ & Hc3 & _).
      exists s3, out. split; [exact Hrep|]. unfold allDead in *. now rewrite Hc3, Hc2.
    - exists s2, []. split; [reflexivity|]. unfold allDead in *. now rewrite Hc2. }
  destruct Hpr as (m' & out & Hpr & Hdead).
  assert (Hpass : pass cfg inp m = Exit ENOMEDIUM (out ++ [NoClientsAlive])).
  { unfold pass. rewrite Hdl, Hpr, oneAlive_spec.
    apply allDead_no_alive in Hdead. now rewrite Hdead. }
  exists out. split; [exact Hpass|]. split.
  - pose proof (pass_events cfg inp m) as Hev. rewrite Hpass in Hev.
    apply Forall_app in Hev. destruct Hev as [Hev _].
    eapply Forall_impl; [exact Hev|]. intros ev. destruct ev; cbn; congruence.
  - intros inputs tr. cbn [pollLoop]. now rewrite Hpass.
Qed.

Lemma all_pipes_broken_exits_witness :
  exists out,
    pass cfgTwo passAllBroken (monitor_init 2 (fun _ => 0))
    = Exit ENOMEDIUM (out ++ [NoClientsAlive])
    /\ Forall (fun ev => isVerdict ev = false) out
    /\ forall inputs tr, pollLoop cfgTwo (passAllBroken :: inputs)
                                  (monitor_init 2 (fun _ => 0)) tr
                         = Exited ENOMEDIUM (tr ++ out ++ [NoClientsAlive]).
Proof.
  refine (all_pipes_broken_exits cfgTwo passAllBroken (monitor_init 2 (fun _ => 0)) _ _ _ _).
  - split; [apply wf_init | cbn; lia].
  - cbn. lia.
  - vm_compute. reflexivity.
  - intros i _. reflexivity.
Defined.

Lemma rotateGpuIter_spec n m :
  steady n m -> Z.of_nat n < 2 ^ 31 ->
  rotateGpuIter m = Some (set_gpuIter ((gpuIter m + 1) mod Z.of_nat n) m).
Proof.
  intros [Hwf Hg] Hn. unfold rotateGpuIter.
  replace (length (clientTemp m)) with n by (now destruct Hwf).
  destruct (Z.eqb_spec (Z.of_nat n) 0) as [?|_]; [lia|].
  pose proof (Z.mod_pos_bound (gpuIter m + 1) (Z.of_nat n) ltac:(lia)).
  rewrite to_int32_id by (unfold is_int32; lia). reflexivity.
Qed.

(** One call of [updateTemps] in closed form. *)
Lemma updateTemps_step n line m :
  steady n m -> Z.of_nat n < 2 ^ 31 ->
  exists m', updateTemps line m = Some m' /\ steady n m'
    /\ gpuIter m' = (if rotates line then (gpuIter m + 1) mod Z.of_nat n else gpuIter m)
    /\ clientTemp m'
       = match line with
         | LineTemp v => <[Z.to_nat (gpuIter m) := v]> (clientTemp m)
         | _ => clientTemp m
         end.
Proof.
  intros Hst Hn. pose proof Hst as [Hwf Hg].
  pose proof (Z.mod_pos_bound (gpuIter m + 1) (Z.of_nat n) ltac:(lia)) as Hmod.
  destruct line as [|v| |]; cbn [updateTemps rotates].
  - exists m. auto.
  - destruct (Z.ltb_spec (gpuIter m) 0) as [?|_]; [lia|].
    rewrite vec_set_lt by (destruct Hwf; lia). cbn.
    set (m1 := set_clientTemp _ m).
    assert (Hst1 : steady n m1).
    { split; [|exact Hg]. destruct Hwf. constructor; cbn; rewrite ?length_insert; assumption. }
    rewrite (rotateGpuIter_spec n m1 Hst1 Hn).
    eexists. split; [reflexivity|]. split; [|split; reflexivity].
    split; [|exact Hmod]. destruct Hst1 as [Hwf1 _]. destruct Hwf1. constructor; assumption.
  - rewrite (rotateGpuIter_spec n m Hst Hn).
    eexists. split; [reflexivity|]. split; [|split; reflexivity].
    split; [|exact Hmod]. destruct Hwf. constructor; assumption.
  - exists m. auto.
Qed.

(** X17: the temperature lines are dealt out to the clients in rotation.
    After any sequence of lines [gpuIter] has advanced, modulo the number
    of clients, by the number of temperature and N/A lines among them (an
    N/A line skips a client, other lines and failed reads change
    nothing), it still indexes the vector, and no call throws.  A
    temperature line stores its value at the client [gpuIter] pointed to
    and nowhere else. *)
Theorem temperature_lines_rotate (n : nat) (lines : list TempLine) (m : Monitor) :
  steady n m -> Z.of_nat n < 2 ^ 31 ->
  (exists m', feedTemps lines m = Some m' /\ steady n m'
     /\ gpuIter m' = (gpuIter m + rotations lines) mod Z.of_nat n)
  /\ (forall v, exists m',
        updateTemps (LineTemp v) m = Some m'
        /\ clientTemp m' !! Z.to_nat (gpuIter m) = Some v
        /\ forall j, j <> Z.to_nat (gpuIter m) -> clientTemp m' !! j = clientTemp m !! j).
Proof.
  intros Hst Hn. split.
  - revert m Hst. induction lines as [|line lines IH]; intros m Hst.
    + exists m. split; [reflexivity|]. split; [exact Hst|].
      unfold rotations. cbn. destruct Hst as [_ Hg].
      rewrite Z.add_0_r, Z.mod_small; lia.
    + destruct (updateTemps_step n line m Hst Hn) as (m1 & Hu & Hst1 & Hg1 & _).
      destruct (IH m1 Hst1) as (m' & Hf & Hst' & Hg').
      exists m'. cbn [feedTemps]. rewrite Hu. cbn. split; [exact Hf|].
      split; [exact Hst'|]. rewrite Hg', Hg1. unfold rotations. cbn [List.filter].
      destruct (rotates line); cbn [length].
      * rewrite Zplus_mod_idemp_l. f_equal. lia.
      * reflexivity.
  - intros v. destruct (updateTemps_step n (LineTemp v) m Hst Hn) as (m' & Hu & _ & _ & Ht).
    exists m'. split; [exact Hu|]. rewrite Ht. destruct Hst as [Hwf Hg]. split.
    + apply list_lookup_insert_eq. destruct Hwf. lia.
    + intros j Hj. apply list_lookup_insert_ne. congruence.
Qed.

Lemma temperature_lines_rotate_witness :
  (exists m', feedTemps [LineTemp 61; LineOther; LineNA; LineTemp 64] (monitor_init 3 (fun _ => 0))
              = Some m'
     /\ steady 3 m'
     /\ gpuIter m' = (gpuIter (monitor_init 3 (fun _ => 0))
                      + rotations [LineTemp 61; LineOther; LineNA; LineTemp 64]) mod Z.of_nat 3)
  /\ (forall v, exists m',
        updateTemps (LineTemp v) (monitor_init 3 (fun _ => 0)) = Some m'
        /\ clientTemp m' !! Z.to_nat (gpuIter (monitor_init 3 (fun _ => 0))) = Some v
        /\ forall j, j <> Z.to_nat (gpuIter (monitor_init 3 (fun _ => 0))) ->
                     clientTemp m' !! j = clientTemp (monitor_init 3 (fun _ => 0)) !! j).
Proof.
  refine (temperature_lines_rotate 3 [LineTemp 61; LineOther; LineNA; LineTemp 64]
            (monitor_init 3 (fun _ => 0)) _ _).
  - split; [apply wf_init | cbn; lia].
  - cbn. lia.
Defined.

(** * Properties of [main] *)

Lemma optionStep_plain L T rest o : plain T -> optionStep L T rest o = inr (o, rest).
Proof.
  intros (H1 & H2 & H3 & H4 & H5 & H6 & H7 & H8).
  unfold optionStep, optM, optI, optC, optS.
  now rewrite H1, H2, H3, H4, H5, H6, H7, H8.
Qed.

Lemma optionStep_flag L f rest o :
  isFlag f -> optionStep L f rest o = inr (afterFlags [f] o, rest).
Proof.
  intros [-> | ->]; cbn; unfold afterFlags, bump; cbn.
  - rewrite orb_true_r, orb_false_r. reflexivity.
  - rewrite orb_true_r, orb_false_r. reflexivity.
Qed.

Lemma afterFlags_cons f flags o :
  afterFlags flags (afterFlags [f] o) = afterFlags (f :: flags) o.
Proof.
  unfold afterFlags, hasFlag. cbn [existsb length runLength useDoubles useTensorCores
    thisParam useBytes device_id kernelFile sigtermSecs].
  rewrite !orb_false_r, !orb_assoc. f_equal. lia.
Qed.

(** The loop over a run of flags. *)
Lemma optionLoop_flags L flags : forall rest fuel o,
  Forall isFlag flags ->
  optionLoop L (length flags + fuel) (flags ++ rest) o
  = optionLoop L fuel rest (afterFlags flags o).
Proof.
  induction flags as [|f flags IH]; intros rest fuel o Hf.
  - cbn [length app Nat.add]. f_equal. unfold afterFlags, hasFlag. cbn.
    rewrite !orb_false_r, Z.add_0_r. now destruct o.
  - inversion Hf as [|? ? Hf1 Hf']; subst.
    cbn [length app Nat.add optionLoop].
    rewrite (optionStep_flag L f (flags ++ rest) o Hf1).
    rewrite (IH rest fuel _ Hf'). now rewrite afterFlags_cons.
Qed.

(** X18: with any number of the flags [-d] and [-tc] in any order and the
    time as the last argument, [main] launches with the time converted by
    [atoi], doubles exactly when [-d] is among the flags, Tensor Cores
    exactly when [-tc] is, and the defaults for the rest. *)
Theorem flags_then_time (L : CLib) (prog : string) (flags : list string) (T : string) :
  Forall isFlag flags -> plain T ->
  main L (prog :: flags ++ [T])
  = Launches (mkOptions (atoi L T) (hasFlag "-d" flags) (hasFlag "-tc" flags)
                        (Z.of_nat (length flags)) 0 (-1) COMPARE_KERNEL
                        SIGTERM_TIMEOUT_THRESHOLD_SECS).
Proof.
  intros Hf HT. unfold main. cbn [tail].
  rewrite length_app. cbn [length].
  rewrite (optionLoop_flags L flags [T] 1 options0 Hf).
  cbn [optionLoop]. rewrite (optionStep_plain L T [] _ HT).
  assert (Hp : thisParam (afterFlags flags options0) = Z.of_nat (length flags))
    by reflexivity.
  rewrite Hp, length_app. cbn [length].
  destruct (Z.ltb_spec (Z.of_nat (S (length flags + 1)) - Z.of_nat (length flags)) 2)
    as [?|_]; [lia|].
  replace (Z.to_nat (1 + Z.of_nat (length flags))) with (S (length flags)) by lia.
  rewrite lookup_cons, (list_lookup_middle flags [] T _ eq_refl).
  reflexivity.
Qed.

Lemma flags_then_time_witness :
  main clib ["gpu-burn.exe"; "-tc"; "-d"; "3600"]%string
  = Launches (mkOptions 3600 true true 2 0 (-1) "compare.ptx" 30).
Proof.
  refine (flags_then_time clib "gpu-burn.exe" ["-tc"; "-d"]%string "3600" _ _).
  - constructor; [right; reflexivity|]. constructor; [left; reflexivity|]. constructor.
  - repeat split; reflexivity.
Defined.

(** X19: the run time is read from the argument that follows as many
    arguments as the loop counted options, wherever the options stood.
    With the time in front of one or more flags the run length is [atoi]
    of the last flag, and the time that was given is not used. *)
Theorem time_before_flags_is_ignored (L : CLib) (prog T : string)
    (flags : list string) (f : string) :
  Forall isFlag (flags ++ [f]) -> plain T ->
  main L (prog :: T :: flags ++ [f])
  = Launches (mkOptions (atoi L f) (hasFlag "-d" (flags ++ [f]))
                        (hasFlag "-tc" (flags ++ [f]))
                        (Z.of_nat (length (flags ++ [f]))) 0 (-1) COMPARE_KERNEL
                        SIGTERM_TIMEOUT_THRESHOLD_SECS).
Proof.
  intros Hf HT. unfold main. cbn [tail length optionLoop].
  rewrite (optionStep_plain L T _ _ HT).
  pose proof (optionLoop_flags L (flags ++ [f]) [] 0 options0 Hf) as Hloop.
  rewrite Nat.add_0_r, app_nil_r in Hloop. rewrite Hloop.
  cbn [optionLoop].
  assert (Hp : thisParam (afterFlags (flags ++ [f]) options0)
               = Z.of_nat (length (flags ++ [f]))) by reflexivity.
  rewrite Hp, length_app. cbn [length].
  destruct (Z.ltb_spec (Z.of_nat (S (S (length flags + 1))) - Z.of_nat (length flags + 1)) 2)
    as [?|_]; [lia|].
  replace (Z.to_nat (1 + Z.of_nat (length flags + 1))) with (S (S (length flags))) by lia.
  rewrite !lookup_cons, (list_lookup_middle flags [] f _ eq_refl).
  unfold set_runLength, afterFlags.
  cbn [runLength useDoubles useTensorCores thisParam useBytes device_id kernelFile
       sigtermSecs options0 orb Z.add].
  rewrite length_app. reflexivity.
Qed.

Lemma time_before_flags_is_ignored_witness :
  main clib ["gpu-burn.exe"; "3600"; "-d"]%string
  = Launches (mkOptions (atoi clib "-d") true false 1 0 (-1) "compare.ptx" 30).
Proof.
  refine (time_before_flags_is_ignored clib "gpu-burn.exe" "3600" [] "-d" _ _).
  - constructor; [left; reflexivity | constructor].
  - repeat split; reflexivity.
Defined.

(** A numeral, with or without the percent sign, holds no option. *)
Lemma finds_dash_memValue p ds percent :
  Forall is_digit ds -> finds (String "-" p) (memValue ds percent) = false.
Proof.
  intros Hds. unfold memValue. induction Hds as [|d ds Hd _ IH].
  - destruct percent; reflexivity.
  - cbn [digitString String.append finds]. rewrite IH, orb_false_r.
    each_digit Hd; reflexivity.
Qed.

Lemma starts_dash_memValue c ds percent :
  Forall is_digit ds -> starts (String "-" c) (memValue ds percent) = false.
Proof.
  intros Hds. unfold memValue, starts. destruct Hds as [|d ds Hd _].
  - destruct percent; reflexivity.
  - cbn [digitString String.append]. each_digit Hd; reflexivity.
Qed.

Lemma memValue_nonempty ds percent :
  ds <> [] -> exists c r, memValue ds percent = String c r.
Proof.
  destruct ds as [|d ds]; [congruence|]. intros _. unfold memValue. cbn. eauto.
Qed.

(** X20: the two spellings of the memory option, [-m V] and [-mV], give
    the same launch: [useBytes] is [decodeUSEMEM V] and the run time is
    the argument after the option, for every numeral [V] (with or
    without the percent sign) that [decodeUSEMEM] does not reject; a
    rejected value is the syntax error in both spellings, and so is [-m]
    as the last argument. *)
Theorem memory_option_spellings (L : CLib) (prog : string) (ds : list Z)
    (percent : bool) (T : string) :
  ds <> [] -> Forall is_digit ds -> plain T ->
  let V := memValue ds percent in
  let launched (counted : Z) :=
    Launches (mkOptions (atoi L T) false false counted (decodeUSEMEM V) (-1)
                        COMPARE_KERNEL SIGTERM_TIMEOUT_THRESHOLD_SECS) in
  (decodeUSEMEM V <> 0 ->
   main L [prog; "-m"%string; V; T] = launched 2
   /\ main L [prog; String "-" (String "m" V); T] = launched 1)
  /\ (decodeUSEMEM V = 0 ->
      main L [prog; "-m"%string; V; T] = SyntaxError
      /\ main L [prog; String "-" (String "m" V); T] = SyntaxError)
  /\ main L [prog; "-m"%string] = SyntaxError.
Proof.
  intros Hne Hds HT V launched. subst launched.
  destruct (memValue_nonempty ds percent Hne) as (c & r & HV).
  assert (Hi : starts "-i" V = false) by (apply starts_dash_memValue; exact Hds).
  assert (Hc : starts "-c" V = false) by (apply starts_dash_memValue; exact Hds).
  assert (Hs : starts "-s" V = false) by (apply starts_dash_memValue; exact Hds).
  assert (Hh : finds "-h" V = false) by (apply finds_dash_memValue; exact Hds).
  assert (Hl : finds "-l" V = false) by (apply finds_dash_memValue; exact Hds).
  assert (Hd : finds "-d" V = false) by (apply finds_dash_memValue; exact Hds).
  assert (Ht : finds "-tc" V = false) by (apply finds_dash_memValue; exact Hds).
  change (memValue ds percent) with V in HV. clearbody V.
  assert (Hdet : optionStep L "-m" [V; T] options0
                 = if decodeUSEMEM V =? 0 then inl SyntaxError
                   else inr (set_useBytes (decodeUSEMEM V) (bump (bump options0)), [T])).
  { unfold optionStep, optM. cbn [finds String.prefix starts after2 orb Ascii.eqb
      Bool.eqb andb mbind option_bind].
    cbn -[decodeUSEMEM Z.eqb].
    destruct (decodeUSEMEM V =? 0); [reflexivity|].
    unfold optI, optC, optS. rewrite Hi, Hc, Hs. reflexivity. }
  assert (Hatt : optionStep L (String "-" (String "m" V)) [T] options0
                 = if decodeUSEMEM V =? 0 then inl SyntaxError
                   else inr (set_useBytes (decodeUSEMEM V) (bump options0), [T])).
  { unfold optionStep, optM.
    assert (Hf : forall p, finds (String "-" p) V = false ->
                   String.prefix (String "-" p) (String "-" (String "m" V)) = false ->
                   finds (String "-" p) (String "-" (String "m" V)) = false).
    { intros p Hp Hpre. cbn [finds]. rewrite Hpre, Hp. reflexivity. }
    rewrite (Hf _ Hh eq_refl), (Hf _ Hl eq_refl), (Hf _ Hd eq_refl), (Hf _ Ht eq_refl).
    cbn [starts String.prefix after2 Ascii.eqb Bool.eqb andb].
    rewrite HV. cbn -[decodeUSEMEM Z.eqb]. rewrite <- HV.
    destruct (decodeUSEMEM V =? 0); reflexivity. }
  split; [|split].
  - intros Hnz. apply Z.eqb_neq in Hnz. rewrite Hnz in Hdet, Hatt.
    unfold main. cbn [tail length optionLoop]. rewrite Hdet, Hatt.
    rewrite !(fun o => optionStep_plain L T [] o HT). split; reflexivity.
  - intros Hz. apply Z.eqb_eq in Hz. rewrite Hz in Hdet, Hatt.
    unfold main. cbn [tail length optionLoop]. rewrite Hdet, Hatt. auto.
  - reflexivity.
Qed.

Lemma memory_option_spellings_witness :
  main clib ["gpu-burn.exe"; "-m"; "50%"; "60"]%string
  = Launches (mkOptions 60 false false 2 (-50) (-1) "compare.ptx" 30)
  /\ main clib ["gpu-burn.exe"; "-m50%"; "60"]%string
     = Launches (mkOptions 60 false false 1 (-50) (-1) "compare.ptx" 30).
Proof.
  refine (proj1 (memory_option_spellings clib "gpu-burn.exe" [5; 0] true "60" _ _ _) _).
  - discriminate.
  - repeat constructor; unfold is_digit; lia.
  - repeat split; reflexivity.
  - vm_compute. discriminate.
Defined.

(** X21: the argument after [-c] is taken as the kernel file and then
    read again as an option.  A file name that contains ["-h"] makes
    [main] show the help and return; one that contains ["-d"] switches to
    doubles and is counted once more, so that the run time after it is
    not used and the run length stays at its default 10; a file name
    that matches no option is passed on with the run time that follows
    it. *)
Theorem kernel_file_is_read_as_option (L : CLib) (prog file T : string)
    (rest : list string) :
  (finds "-h" file = true ->
   main L (prog :: "-c"%string :: file :: rest) = ShowsHelp)
  /\ (finds "-h" file = false -> finds "-l" file = false ->
      finds "-d" file = true -> finds "-tc" file = false ->
      starts "-m" file = false -> starts "-i" file = false ->
      starts "-c" file = false -> starts "-s" file = false ->
      plain T ->
      main L [prog; "-c"%string; file; T]
      = Launches (mkOptions 10 true false 3 0 (-1) file
                            SIGTERM_TIMEOUT_THRESHOLD_SECS))
  /\ (plain file -> plain T ->
      main L [prog; "-c"%string; file; T]
      = Launches (mkOptions (atoi L T) false false 2 0 (-1) file
                            SIGTERM_TIMEOUT_THRESHOLD_SECS)).
Proof.
  assert (Hc : forall l, optionStep L "-c" (file :: l) options0
                         = inr (bump (set_kernelFile file (bump options0)), file :: l))
    by reflexivity.
  split; [|split].
  - intros Hh. unfold main. cbn [tail length optionLoop]. rewrite Hc.
    unfold optionStep. rewrite Hh. reflexivity.
  - intros H1 H2 H3 H4 H5 H6 H7 H8 HT.
    unfold main. cbn [tail length optionLoop]. rewrite Hc.
    assert (Hstep : forall o, optionStep L file [T] o
                              = inr (bump (set_useDoubles o), [T])).
    { intros o. unfold optionStep, optM, optI, optC, optS.
      now rewrite H1, H2, H3, H4, H5, H6, H7, H8. }
    rewrite Hstep, (optionStep_plain L T [] _ HT). reflexivity.
  - intros Hf HT. unfold main. cbn [tail length optionLoop]. rewrite Hc.
    rewrite (optionStep_plain L file [T] _ Hf), (optionStep_plain L T [] _ HT).
    reflexivity.
Qed.

Lemma kernel_file_is_read_as_option_witness :
  main clib ["gpu-burn.exe"; "-c"; "kernels-hopper.ptx"; "60"]%string = ShowsHelp
  /\ main clib ["gpu-burn.exe"; "-c"; "build-dir.ptx"; "60"]%string
     = Launches (mkOptions 10 true false 3 0 (-1) "build-dir.ptx" 30).
Proof.
  split.
  - refine (proj1 (kernel_file_is_read_as_option clib "gpu-burn.exe"
                     "kernels-hopper.ptx" "60" ["60"%string]) _).
    reflexivity.
  - refine (proj1 (proj2 (kernel_file_is_read_as_option clib "gpu-burn.exe"
                     "build-dir.ptx" "60" [])) _ _ _ _ _ _ _ _ _);
      try reflexivity.
    repeat split; reflexivity.
Defined.

(** * The summary windows *)

Lemma applied_nextReport i t p e e0 c0 t0 f0 m :
  nextReport (applied i t p e e0 c0 t0 f0 m) = nextReport m.
Proof.
  unfold applied.
  destruct (p =? -1); [|destruct ((0 <? tickDelta t t0) && negb f0)]; reflexivity.
Qed.

Lemma poll_loop_nextReport n pk m s :
  wf n m -> for_loop (pollClient pk) 0 n m = Some s -> nextReport s = nextReport m.
Proof.
  intros Hwf Hloop.
  assert (H : wf n s /\ nextReport s = nextReport m); [|tauto].
  apply (for_loop_ind (fun _ s => wf n s /\ nextReport s = nextReport m)
                      (pollClient pk) n 0 m s); [|auto|exact Hloop].
  clear s Hloop. intros j s1 s2 Hj [Hwf1 Hn1] Hbody.
  destruct (consumedBy pk j) eqn:Ec.
  - destruct (consumedBy_true _ _ Ec) as (bytes & t & p & e & Hpk & Hb).
    destruct (pollClient_consumed n pk j s1 bytes t p e Hwf1 ltac:(lia) Hpk Hb)
      as (e0 & c0 & t0 & f0 & _ & Happ).
    rewrite Happ in Hbody. injection Hbody as <-.
    split; [apply applied_wf; exact Hwf1|]. now rewrite applied_nextReport.
  - destruct (pollClient_quiet _ _ _ _ Ec Hbody) as [->| ->].
    + auto.
    + split; [apply set_dead_wf; exact Hwf1 | exact Hn1].
Qed.

(** The percentage printed is at most 100, or minus infinity. *)
Lemma elapsedPercent_bound thisTime startTime runTime :
  elapsedPercent thisTime startTime runTime = NInf
  \/ exists b, elapsedPercent thisTime startTime runTime = Fin b /\ (b <= inject_Z 100)%Q.
Proof.
  unfold elapsedPercent.
  destruct (fl_scale _ _) as [q| | |]; cbn [fminf]; auto; right.
  - eexists. split; [reflexivity|].
    unfold Qlt_bool. destruct (Qle_bool (inject_Z 100) q) eqn:E; cbn.
    + apply Qle_refl.
    + apply Qlt_le_weak, Qnot_le_lt. intros H. apply Qle_bool_iff in H. congruence.
  - eexists. split; [reflexivity | apply Qle_refl].
  - eexists. split; [reflexivity | apply Qle_refl].
Qed.

(** What the report block does to [nextReport]: it stamps at most one
    summary, only below 100, and then moves [nextReport] on by at least
    10 (the sum [elapsed + 10.0f] is rounded, but not below the integer
    [k + 10] that it exceeds). *)
Lemma report_window n el s s' out k :
  wf n s -> 0 <= k ->
  (el = NInf \/ exists b, el = Fin b /\ (b <= inject_Z 100)%Q) ->
  nextReportFrom k s ->
  report el s = Some (s', out) ->
  (summaries out = 0 /\ nextReportFrom k s')
  \/ (summaries out = 1 /\ k < 100 /\ nextReportFrom (k + 10) s').
Proof.
  intros Hwf Hk0 Hel (a & Ha & Hka). unfold report.
  destruct (progressLine el s) as [line|] eqn:Hline; cbn; [|discriminate].
  apply progressLine_is_progress in Hline.
  assert (Hls : isSummary line = false) by (destruct line; cbn in *; congruence).
  replace (length (clientErrors s)) with n by (now destruct Hwf).
  destruct (for_loop markFaulty 0 n s) as [s3|] eqn:Hmark; cbn; [|discriminate].
  destruct (markFaulty_loop n s s3 Hwf Hmark) as (Hwf3 & Honly & _).
  assert (Hn3 : nextReport s3 = nextReport s) by (rewrite Honly; reflexivity).
  rewrite Hn3, Ha.
  destruct (fl_lt (Fin a) el) eqn:Hlt.
  - set (s4 := set_nextReport (fl_add el (inject_Z 10)) s3).
    destruct (for_loop resetErrors 0 (length (clientErrors s3)) s4) as [s5|] eqn:Hreset;
      cbn; [|discriminate].
    intros [= <- <-]. right.
    assert (Hwf4 : wf n s4) by (destruct Hwf3; constructor; assumption).
    assert (Hn5 : nextReport s5 = fl_add el (inject_Z 10)).
    { apply (for_loop_inv (fun x => nextReport x = fl_add el (inject_Z 10)) resetErrors)
        with (count := length (clientErrors s3)) (i := 0%nat) (s := s4);
        [|reflexivity|exact Hreset].
      intros j x y Hx Hb. unfold resetErrors in Hb.
      destruct (vec_set (clientErrors x) j 0); cbn in Hb; [|discriminate].
      injection Hb as <-. exact Hx. }
    destruct Hel as [->|(b & -> & Hb)]; [discriminate|].
    cbn [fl_lt] in Hlt. unfold Qlt_bool in Hlt.
    assert (Hab : (a < b)%Q).
    { apply Qnot_le_lt. intros H. apply Qle_bool_iff in H. rewrite H in Hlt. discriminate. }
    split; [|split].
    + unfold summaries. cbn. rewrite Hls. reflexivity.
    + assert (H : (inject_Z k < inject_Z 100)%Q).
      { eapply Qle_lt_trans; [exact Hka|]. eapply Qlt_le_trans; [exact Hab | exact Hb]. }
      rewrite <- Zlt_Qlt in H. exact H.
    + assert (Hk100 : k < 100).
      { assert (H : (inject_Z k < inject_Z 100)%Q).
        { eapply Qle_lt_trans; [exact Hka|]. eapply Qlt_le_trans; [exact Hab | exact Hb]. }
        rewrite <- Zlt_Qlt in H. exact H. }
      exists (to_float (b + inject_Z 10)). split; [rewrite Hn5; reflexivity|].
      apply rnd_ge_int; [lia | change (2 ^ 24) with 16777216; lia |].
      rewrite inject_Z_plus. apply Qplus_le_compat; [|apply Qle_refl].
      apply Qlt_le_weak. eapply Qle_lt_trans; [exact Hka | exact Hab].
  - intros [= <- <-]. left. split.
    + unfold summaries. cbn. rewrite Hls. reflexivity.
    + exists a. rewrite Hn3. auto.
Qed.

Lemma summaries_app tr1 tr2 : summaries (tr1 ++ tr2) = summaries tr1 + summaries tr2.
Proof. unfold summaries. rewrite List.filter_app, length_app. lia. Qed.

Lemma pollAndReport_window cfg inp m m' out k :
  wf (length (clientHandles cfg)) m -> 0 <= k -> nextReportFrom k m ->
  pollAndReport cfg inp m = Some (m', out) ->
  (summaries out = 0 /\ nextReportFrom k m')
  \/ (summaries out = 1 /\ k < 100 /\ nextReportFrom (k + 10) m').
Proof.
  intros Hwf Hk0 Hk. unfold pollAndReport.
  set (n := length (clientHandles cfg)) in *.
  destruct (for_loop (pollClient (peek inp)) 0 n m) as [s1|] eqn:Hpoll; cbn; [|discriminate].
  destruct (poll_loop_facts n (peek inp) m s1 Hwf Hpoll) as (Hwf1 & _).
  pose proof (poll_loop_nextReport n (peek inp) m s1 Hwf Hpoll) as Hn1.
  match goal with
  | |- context [mbind _ ?x] => destruct x as [s2|] eqn:Htemp; cbn; [|discriminate]
  end.
  assert (H2 : wf n s2 /\ nextReport s2 = nextReport s1).
  { destruct (hasTempHandle cfg); [|injection Htemp as <-; auto].
    destruct (tempPeek inp) as [|line]; [injection Htemp as <-; auto|].
    destruct (updateTemps_facts n line s1 s2 Hwf1 Htemp) as (? & _ & _ & _ & _ & ?).
    auto. }
  destruct H2 as [Hwf2 Hn2].
  assert (Hk2 : nextReportFrom k s2).
  { destruct Hk as (a & Ha & Hka). exists a. rewrite Hn2, Hn1. auto. }
  destruct (childReport s2).
  - apply (report_window n _ s2 m' out k Hwf2 Hk0); [|exact Hk2].
    apply elapsedPercent_bound.
  - intros [= <- <-]. left. split; [reflexivity | exact Hk2].
Qed.

Lemma pollLoop_window cfg inputs : forall m tr k,
  good cfg m -> nextReportFrom k m ->
  summaries tr <= 9 -> 10 * (1 + summaries tr) <= k ->
  summaries (traceOf (pollLoop cfg inputs m tr)) <= 9.
Proof.
  induction inputs as [|inp inputs IH]; intros m tr k Hgood Hk Hc Hck; cbn [pollLoop].
  - exact Hc.
  - assert (Hk0 : 0 <= k) by (unfold summaries in Hck; lia).
    destruct (pass cfg inp m) as [m1 out| |code out|] eqn:Hpass; cbn [traceOf];
      try exact Hc.
    + destruct (pass_next_facts cfg inp m m1 out Hgood Hpass) as (Hgood1 & _).
      unfold pass in Hpass.
      destruct (deadlinePassed cfg (thisTime inp)); [discriminate|].
      destruct (pollAndReport cfg inp m) as [[m2 out2]|] eqn:Hpr; [|discriminate].
      destruct (oneAlive m2) as [[]|]; try discriminate.
      injection Hpass as <- <-.
      destruct Hgood as [Hwf _].
      assert (Hs : summaries (tr ++ out2 ++ [SleepMs 50]) = summaries tr + summaries out2).
      { rewrite !summaries_app. unfold summaries at 3. cbn. lia. }
      destruct (pollAndReport_window cfg inp m m2 out2 k Hwf Hk0 Hk Hpr)
        as [[H0 Hk']|(H1 & Hlt & Hk')].
      * apply (IH m2 _ k Hgood1 Hk'); rewrite Hs; lia.
      * apply (IH m2 _ (k + 10) Hgood1 Hk'); rewrite Hs; lia.
    + unfold pass in Hpass.
      destruct (deadlinePassed cfg (thisTime inp)); [discriminate|].
      destruct (pollAndReport cfg inp m) as [[m2 out2]|] eqn:Hpr; [|discriminate].
      destruct (oneAlive m2) as [[]|]; try discriminate.
      injection Hpass as _ <-.
      destruct Hgood as [Hwf _].
      rewrite !summaries_app. unfold summaries at 3. cbn.
      destruct (pollAndReport_window cfg inp m m2 out2 k Hwf Hk0 Hk Hpr)
        as [[H0 _]|(H1 & Hlt & _)]; lia.
Qed.

(** The run of ten seconds with a report in every second stamps six
    summaries, at the percentages 20, 30.0000019, 50, 60.0000038, 80 and
    100 (the [float] quotient 0.3 times 100 is above 30, and
    [30.0000019f + 10.0f] is [40.0f]); the error window, which counted
    eleven errors in all, is empty after the last of them. *)
Lemma ten_second_run_summaries :
  exists m tr,
    pollLoop cfgOne tenSeconds (monitor_init 1 (fun _ => 1000)) (startTrace cfgOne)
    = Polling m tr
    /\ summaries tr = 6
    /\ clientCalcs m = [286] /\ clientErrors m = [0]
    /\ clientFaulty m = [true]
    /\ nextReport m = Fin (to_float 110).
Proof.
  destruct (pollLoop cfgOne tenSeconds _ _) as [m tr|code tr|tr|m tr] eqn:E;
    try (vm_compute in E; discriminate).
  exists m, tr. split; [reflexivity|].
  vm_compute in E. injection E as <- <-. vm_compute. repeat split.
Qed.

(** X22: a run stamps at most nine summaries, and so resets the error
    windows of its clients at most nine times.  [nextReport] starts at 10;
    a summary is stamped only when the percentage, which [fminf] keeps at
    or below 100, exceeds it, and then moves it to the [float] sum
    [elapsed + 10.0f]: when it was at least the integer [k] before, it is
    at least [k + 10] after, since rounding to the nearest [float] does
    not go below an integer that the exact sum exceeds.  So after nine
    summaries it is at least 100, and none is stamped any more.  This
    holds for all clock readings and run times, a run time of zero
    included, with every [float] operation rounded as the machine
    does. *)
Theorem at_most_nine_summaries (cfg : Config) (spawnClock : nat -> Z)
    (inputs : list PassInput) :
  summaries (traceOf (pollLoop cfg inputs
                        (monitor_init (length (clientHandles cfg)) spawnClock)
                        (startTrace cfg))) <= 9.
Proof.
  assert (Hs : summaries (startTrace cfg) = 0).
  { unfold startTrace. destruct (hasTempHandle cfg); reflexivity. }
  apply (pollLoop_window cfg inputs _ _ 10 (good_init cfg spawnClock)).
  - exists (inject_Z 10). split; [reflexivity | apply Qle_refl].
  - rewrite Hs. lia.
  - rewrite Hs. lia.
Qed.
